(** * iolib: terminal line editing, selection menu and scrolling display

A shallow embedding of [src/iolib/main.py] and the properties of its
key-consumption loops, its fixed-size registry and its redraw
protocol.

Conventions of the embedding.
- A raw key ([msvcrt.getch()], a [bytes] of length one) is an [ascii].
- The keyboard is the finite list of keys that will be pressed; an
  iteration of a polling loop in which [msvcrt.kbhit()] is false does
  nothing and is not represented.  A loop that has used up the list
  without returning is still polling ([Polling]).
- Python integers are [Z]; list indexing, slicing, [insert] and [pop]
  follow Python for every integer index, negative ones included.
- [sys.stdout] is the string of everything written so far.
- The worker thread of a display is a record of where it stands in
  [_start]; [stop] is described for each place the worker can stand at
  when the flag is lowered, and [join] lets the worker alone run to its
  end. *)

From Stdlib Require Import ZArith List String Ascii Bool Lia DecimalString DecimalPos.
Import ListNotations.

Local Open Scope Z_scope.

Infix "+++" := String.append (at level 60, right associativity).

(* ================================================================== *)
(** ** Python primitives used by the program *)

Module Py.

Inductive exn : Type :=
| TypeError          (* raise TypeError("no option supplied"), len() of an unsized object *)
| IndexError         (* list index / pop out of range *)
| UnicodeDecodeError (* bytes.decode() on a byte outside ASCII *).

(** [s * n] on strings: the empty string when [n <= 0]. *)
Fixpoint repeat_nat (s : string) (n : nat) : string :=
  match n with
  | O => EmptyString
  | S n' => s +++ repeat_nat s n'
  end.

Definition mul (s : string) (n : Z) : string := repeat_nat s (Z.to_nat n).

Definition len (s : string) : Z := Z.of_nat (String.length s).

Definition llen {A} (l : list A) : Z := Z.of_nat (List.length l).

(** [str(n)] and the [{n}] of an f-string, for an integer. *)
Definition str_of_int (n : Z) : string := NilZero.string_of_int (Z.to_int n).

(** Joining a list of one-character strings with the empty separator. *)
Definition join_chars (l : list ascii) : string := string_of_list_ascii l.

(** [list(s)] for a string. *)
Definition chars (s : string) : list ascii := list_ascii_of_string s.

(** Bound of a slice or of [list.insert]: negative indices count from
    the end, and the result is clipped to [0 .. n]. *)
Definition clip (n i : Z) : Z :=
  if i <? 0 then Z.max 0 (i + n) else Z.min i n.

(** [l[a:b]] *)
Definition slice {A} (l : list A) (a b : Z) : list A :=
  let lo := clip (llen l) a in
  let hi := clip (llen l) b in
  firstn (Z.to_nat (hi - lo)) (skipn (Z.to_nat lo) l).

(** [l.insert(i, x)] *)
Definition insert {A} (l : list A) (i : Z) (x : A) : list A :=
  let k := Z.to_nat (clip (llen l) i) in
  firstn k l ++ x :: skipn k l.

(** [l[i]]; [None] is IndexError. *)
Definition index {A} (l : list A) (i : Z) : option A :=
  let j := if i <? 0 then i + llen l else i in
  if (0 <=? j) && (j <? llen l) then nth_error l (Z.to_nat j) else None.

(** [l.pop(i)]: the list without its element [i]; [None] is IndexError. *)
Definition pop {A} (l : list A) (i : Z) : option (list A) :=
  let j := if i <? 0 then i + llen l else i in
  if (0 <=? j) && (j <? llen l)
  then Some (firstn (Z.to_nat j) l ++ skipn (S (Z.to_nat j)) l)
  else None.

(** [bytes.decode()] of a single byte (UTF-8): only ASCII decodes. *)
Definition decode (k : ascii) : option ascii :=
  if Z.of_nat (nat_of_ascii k) <? 128 then Some k else None.

End Py.

(* ================================================================== *)
(** ** Module constants *)

Definition key := ascii.

Definition UP : key := "H"%char.
Definition DOWN : key := "P"%char.
Definition RIGHT : key := "M"%char.
Definition LEFT : key := "K"%char.
Definition ENTER : key := "013"%char.
Definition BACKSPACE : key := "008"%char.
Definition SPECIAL : key := "000"%char.
Definition IGNORE : list key := [RIGHT; LEFT; "H"%char; "P"%char].

Definition ESC : ascii := "027"%char.
Definition CR : string := String "013"%char EmptyString.
Definition NL : string := String "010"%char EmptyString.
Definition SP : string := String " "%char EmptyString.

Definition ANSI_UP : string := String ESC "[A".
Definition ANSI_DOWN : string := String ESC "[B".
Definition ANSI_RIGHT : string := String ESC "[C".
Definition ANSI_LEFT : string := String ESC "[D".

(** [key in IGNORE] *)
Definition in_IGNORE (k : key) : bool := existsb (Ascii.eqb k) IGNORE.

(** [last_key_copy == SPECIAL]; [last_key] starts as the empty string,
    which equals no key: [None]. *)
Definition after_SPECIAL (last : option key) : bool :=
  match last with
  | Some k => Ascii.eqb k SPECIAL
  | None => false
  end.

(* ================================================================== *)
(** ** Polling loops *)

(** What one iteration with a key does. *)
Inductive step_result (S R : Type) : Type :=
| Continue (s : S) (out : string)          (* next iteration, [out] written *)
| Return (r : R) (out : string)            (* the function returns [r] *)
| Raise (e : Py.exn) (out : string)        (* an exception leaves the function *).
Arguments Continue {S R} s out.
Arguments Return {S R} r out.
Arguments Raise {S R} e out.

(** What the whole call does on a finite keyboard. *)
Inductive outcome (S R : Type) : Type :=
| Returned (r : R) (out : string)
| Raised (e : Py.exn) (out : string)
| Polling (s : S) (out : string)           (* keys used up, still in the loop *).
Arguments Returned {S R} r out.
Arguments Raised {S R} e out.
Arguments Polling {S R} s out.

Section Loop.
Context {S R : Type} (step : S -> key -> step_result S R).

(** [while True: if msvcrt.kbhit(): key = msvcrt.getch(); ...] with
    [out] already on the terminal. *)
Fixpoint run (s : S) (out : string) (keys : list key) : outcome S R :=
  match keys with
  | [] => Polling s out
  | k :: ks =>
      match step s k with
      | Continue s' o => run s' (out +++ o) ks
      | Return r o => Returned r (out +++ o)
      | Raise e o => Raised e (out +++ o)
      end
  end.

(** The loop states met, the first one included. *)
Fixpoint trace (s : S) (keys : list key) : list S :=
  s :: match keys with
       | [] => []
       | k :: ks =>
           match step s k with
           | Continue s' _ => trace s' ks
           | _ => []
           end
       end.
End Loop.

Definition output {S R} (o : outcome S R) : string :=
  match o with
  | Returned _ out | Raised _ out | Polling _ out => out
  end.

(* ================================================================== *)
(** ** selection *)

Module Selection.

(** The arguments of a call whose options are strings, the labels of the
    menu.  [selection] takes any objects: on options without a length,
    or that cannot be added to a string, it raises TypeError, which is
    not described here. *)
Record menu : Type := {
  options : list string;
  active : string;
  passive : string;
  wrap : bool
}.

Section Menu.
Variable m : menu.

Definition n_options : Z := Py.llen (options m).

(** [len(max(options, key=len))] *)
Definition longest_option : Z :=
  fold_right (fun o acc => Z.max (Py.len o) acc) 0 (options m).

(** [len(max(passive, active, key=len))] *)
Definition longest_mode : Z := Z.max (Py.len (passive m)) (Py.len (active m)).

Definition longest_length : Z := longest_option + longest_mode.

Definition reset : string := CR +++ Py.mul SP longest_length +++ CR.

(** [options[i]], an IndexError otherwise. *)
Definition with_option {S} (i : Z) (out : string)
    (k : string -> step_result S string) : step_result S string :=
  match Py.index (options m) i with
  | Some o => k o
  | None => Raise Py.IndexError out
  end.

(** One iteration of the [while True] loop on key [k], highlight at
    [idx]. *)
Definition step (idx : Z) (k : key) : step_result Z string :=
  if Ascii.eqb k ENTER then
    with_option idx NL (fun o => Return o NL)
  else if Ascii.eqb k DOWN then
    let current := idx in
    let idx := Z.min (idx + 1) (n_options - 1) in
    with_option current reset (fun oc =>
      let out := reset +++ passive m +++ oc +++ CR in
      let '(idx, out) :=
        if idx =? current then
          if wrap m && (n_options >? 1)
          then (0, out +++ Py.mul ANSI_UP (n_options - 1))
          else (idx, out)
        else (idx, out +++ ANSI_DOWN) in
      with_option idx out (fun o =>
        Continue idx (out +++ active m +++ o +++ CR)))
  else if Ascii.eqb k UP then
    let current := idx in
    let idx := Z.max (idx - 1) 0 in
    with_option current reset (fun oc =>
      let out := reset +++ passive m +++ oc +++ CR in
      let '(idx, out) :=
        if idx =? current then
          if wrap m && (n_options >? 1)
          then (n_options - 1, out +++ Py.mul ANSI_DOWN (n_options - 1))
          else (idx, out)
        else (idx, out +++ ANSI_UP) in
      with_option idx out (fun o =>
        Continue idx (out +++ active m +++ o +++ CR)))
  else Continue idx EmptyString.

(** What is written before the loop: every option, then the cursor
    back on the first line. *)
Definition display : string :=
  match options m with
  | [] => EmptyString
  | o0 :: rest =>
      (active m +++ o0)
      +++ fold_right (fun o acc => (NL +++ passive m +++ o) +++ acc)
            EmptyString rest
      +++ CR
      +++ Py.mul ANSI_UP (n_options - 1)
  end.

(** [selection] on a variadic tuple of options, with [active], [passive]
    and [wrap]. *)
Definition selection (keys : list key) : outcome Z string :=
  match options m with
  | [] => Raised Py.TypeError EmptyString
  | _ :: _ => run step 0 display keys
  end.

(** The highlight index while the menu is still open. *)
Definition index_after (keys : list key) : option Z :=
  match selection keys with
  | Polling i _ => Some i
  | _ => None
  end.
End Menu.

End Selection.


(* ================================================================== *)
(** ** input_write *)

(** The cursor-left sequence of the f-string: ESC, bracket, [n], D. *)
Definition csi_left (n : Z) : string :=
  String ESC "[" +++ Py.str_of_int n +++ "D".

Module InputWrite.

(** The variables of the loop. *)
Record state : Type := {
  written : list ascii;
  curr : Z;
  last_key : option key
}.

(** The [else] branch once the key is known to be a letter: decode it,
    insert it at the cursor, redraw what follows, walk the cursor back. *)
Definition write_letter (w : list ascii) (c : Z) (k : key)
  : step_result state string :=
  match Py.decode k with
  | None => Raise Py.UnicodeDecodeError EmptyString
  | Some letter =>
      let w := Py.insert w c letter in
      let out := String letter EmptyString in
      let c := c + 1 in
      let size := Py.llen w in
      let rest := Py.join_chars (Py.slice w c size) in
      let out := out +++ rest in
      let n := size - c in
      Continue {| written := w; curr := c; last_key := Some k |}
        (if n >? 0 then out +++ csi_left n else out)
  end.

(** One iteration of the [while True] loop on key [k]. *)
Definition step (s : state) (k : key) : step_result state string :=
  let last_key_copy := last_key s in
  let w := written s in
  let c := curr s in
  let same := {| written := w; curr := c; last_key := Some k |} in
  if Ascii.eqb k ENTER then
    Return (Py.join_chars w) NL
  else if Ascii.eqb k RIGHT && after_SPECIAL last_key_copy then
    if c <? Py.llen w
    then Continue {| written := w; curr := c + 1; last_key := Some k |} ANSI_RIGHT
    else Continue same EmptyString
  else if Ascii.eqb k LEFT && after_SPECIAL last_key_copy then
    if c >? 0
    then Continue {| written := w; curr := c - 1; last_key := Some k |} ANSI_LEFT
    else Continue same EmptyString
  else if Ascii.eqb k BACKSPACE then
    match w with
    | [] => Continue same EmptyString
    | _ :: _ =>
        if c <=? 0 then Continue same EmptyString
        else
          let size := Py.llen w in
          let rest := Py.join_chars (Py.slice w c size) in
          let n := Py.len rest + 1 in
          let out := ANSI_LEFT +++ (rest +++ SP) +++ csi_left n in
          let c := c - 1 in
          match Py.pop w c with
          | Some w' =>
              Continue {| written := w'; curr := c; last_key := Some k |} out
          | None => Raise Py.IndexError out
          end
    end
  else
    if Ascii.eqb k SPECIAL then Continue same EmptyString
    else if in_IGNORE k then
      if after_SPECIAL last_key_copy then Continue same EmptyString
      else write_letter w c k
    else write_letter w c k.

Definition init (edit : string) : state :=
  {| written := Py.chars edit; curr := Py.len edit; last_key := None |}.

(** [input_write(prompt, edit)] *)
Definition input_write (prompt edit : string) (keys : list key)
  : outcome state string :=
  run step (init edit) (prompt +++ edit) keys.

(** [0 <= curr <= len(written)] *)
Definition cursor_ok (s : state) : Prop :=
  0 <= curr s <= Py.llen (written s).

End InputWrite.

(* ================================================================== *)
(** ** input_hidden *)

Module InputHidden.

Record state : Type := {
  written : list ascii;
  last_key : option key
}.

(** [written.append(key.decode())] *)
Definition store_letter (w : list ascii) (k : key) : step_result state string :=
  match Py.decode k with
  | None => Raise Py.UnicodeDecodeError EmptyString
  | Some letter =>
      Continue {| written := w ++ [letter]; last_key := Some k |} EmptyString
  end.

(** One iteration of the [while True] loop on key [k]. *)
Definition step (s : state) (k : key) : step_result state string :=
  let last_key_copy := last_key s in
  let w := written s in
  let same := {| written := w; last_key := Some k |} in
  if Ascii.eqb k ENTER then
    Return (Py.join_chars w) NL
  else if Ascii.eqb k BACKSPACE then
    match w with
    | [] => Continue same EmptyString
    | _ :: _ => Continue {| written := removelast w; last_key := Some k |} EmptyString
    end
  else
    if Ascii.eqb k SPECIAL then Continue same EmptyString
    else if in_IGNORE k then
      if after_SPECIAL last_key_copy then Continue same EmptyString
      else store_letter w k
    else store_letter w k.

Definition init : state := {| written := []; last_key := None |}.

(** [input_hidden(prompt)] *)
Definition input_hidden (prompt : string) (keys : list key)
  : outcome state string :=
  run step init prompt keys.

End InputHidden.

(* ================================================================== *)
(** ** IODisplay *)

Module Display.

(** The objects handed to [push].  An atom has no [__iter__] or is a
    string; a sequence is a list or tuple of atoms; a stream is an
    iterable without [__len__], such as a generator. *)
Inductive atom : Type :=
| AStr (s : string)
| AInt (n : Z)
| ABool (b : bool)
| ANone.

Inductive object : Type :=
| Atom (a : atom)
| Sequence (l : list atom)
| Stream (l : list atom).

(** [str(a)] *)
Definition str (a : atom) : string :=
  match a with
  | AStr s => s
  | AInt n => Py.str_of_int n
  | ABool true => "True"
  | ABool false => "False"
  | ANone => "None"
  end.

(** [isinstance(o, Iterable)]: strings, sequences and streams. *)
Definition isinstance_Iterable (o : object) : bool :=
  match o with
  | Atom (AStr _) | Sequence _ | Stream _ => true
  | Atom _ => false
  end.

(** [isinstance(o, str)] *)
Definition isinstance_str (o : object) : bool :=
  match o with
  | Atom (AStr _) => true
  | _ => false
  end.

(** Where a thread that runs [_start] stands. *)
Inductive pc : Type :=
| Created                 (* started; no statement of [_start] has run yet *)
| Begun                   (* [self._running = True] has run; the lines are drawn next *)
| At_test                 (* about to test [while self._running] *)
| In_body                 (* the test has passed; [msvcrt.kbhit()] is next *)
| Finished                (* the test has failed: [_start] has returned *)
| Failed (e : Py.exn)     (* an exception has ended the thread *).

(** The worker of a display started with [threaded=True]: where it
    stands, the locals of its [_start] loop (not yet bound when it is
    [Created]) and the keys it has still to read. *)
Record Thread : Type := {
  t_pc : pc;
  t_curr : Z;
  t_last_key : option key;
  t_keys : list key
}.

Section Callables.
(** The values that may be passed as [callback]. *)
Variable Callable : Type.

Record IODisplay : Type := {
  prompt : string;
  lines : Z;
  callback : option Callable;
  dispatch_on_enter : bool;
  _running : bool;
  _written : list ascii;
  _regestry : list string;
  _thread : option Thread
}.

(** Calling a callback with the submitted string: the display it leaves
    behind and what it wrote.  The callback returns: one that raises
    ends the thread of the loop and is not described.  Nor is a call of
    [get], [push] or [clear] from another thread while the loop runs:
    between two keys the display changes only through the callback. *)
Variable call : Callable -> string -> IODisplay -> IODisplay * string.

Definition set_running (d : IODisplay) (b : bool) : IODisplay :=
  {| prompt := prompt d; lines := lines d; callback := callback d;
     dispatch_on_enter := dispatch_on_enter d; _running := b;
     _written := _written d; _regestry := _regestry d; _thread := _thread d |}.

Definition set_written (d : IODisplay) (w : list ascii) : IODisplay :=
  {| prompt := prompt d; lines := lines d; callback := callback d;
     dispatch_on_enter := dispatch_on_enter d; _running := _running d;
     _written := w; _regestry := _regestry d; _thread := _thread d |}.

Definition set_regestry (d : IODisplay) (r : list string) : IODisplay :=
  {| prompt := prompt d; lines := lines d; callback := callback d;
     dispatch_on_enter := dispatch_on_enter d; _running := _running d;
     _written := _written d; _regestry := r; _thread := _thread d |}.

Definition set_thread (d : IODisplay) (t : option Thread) : IODisplay :=
  {| prompt := prompt d; lines := lines d; callback := callback d;
     dispatch_on_enter := dispatch_on_enter d; _running := _running d;
     _written := _written d; _regestry := _regestry d; _thread := t |}.

Definition set_callback (d : IODisplay) (c : option Callable) : IODisplay :=
  {| prompt := prompt d; lines := lines d; callback := c;
     dispatch_on_enter := dispatch_on_enter d; _running := _running d;
     _written := _written d; _regestry := _regestry d; _thread := _thread d |}.

(** The list of [lines] empty strings built by the comprehension over
    [range(lines)]. *)
Definition empty_regestry (n : Z) : list string :=
  repeat EmptyString (Z.to_nat n).

(** [IODisplay(prompt, lines, dispatch_on_enter=...)] *)
Definition __init__ (p : string) (n : Z) (dispatch : bool) : IODisplay :=
  {| prompt := p; lines := n; callback := None;
     dispatch_on_enter := dispatch; _running := false;
     _written := []; _regestry := empty_regestry n; _thread := None |}.

(** [get(dispatch=...)]: the typed string, the display, the output. *)
Definition get (d : IODisplay) (dispatch : bool)
  : string * IODisplay * string :=
  let string := Py.join_chars (_written d) in
  if dispatch then
    match _written d with
    | [] => (string, d, EmptyString)
    | _ :: _ =>
        let reset := Py.mul SP (Py.llen (_written d))
                     +++ Py.mul ANSI_LEFT (Py.llen (_written d)) in
        (string, set_written d [], reset)
    end
  else (string, d, EmptyString).

(** [_clear_lines()]: the buffer written to the terminal. *)
Definition _clear_lines (d : IODisplay) : string :=
  fold_left
    (fun buffer element =>
       (buffer +++ (Py.mul SP (Py.len element) +++ CR)) +++ ANSI_DOWN)
    (_regestry d)
    (Py.mul ANSI_UP (lines d) +++ CR).

(** [_render_lines(init=...)] *)
Definition _render_lines (d : IODisplay) (init : bool) : string :=
  let head := if init then EmptyString else Py.mul ANSI_UP (lines d) +++ CR in
  let '(typed, _, _) := get d false in
  head +++ String.concat NL (_regestry d ++ [prompt d +++ typed]).

(** The result of a method that may raise after it has changed the
    display. *)
Inductive result : Type :=
| Ok (d : IODisplay) (out : string)
| Err (e : Py.exn) (d : IODisplay) (out : string).

(** [push(o, flush=...)].  The first branch is taken by the objects that
    are [Iterable] and not [str], the sequences and the streams; the
    second by the atoms, strings included. *)
Definition push (d : IODisplay) (o : object) (flush : bool) : result :=
  let out := _clear_lines d in
  let finish d :=
    if flush then Ok d (out +++ _render_lines d false) else Ok d out in
  match o with
  | Sequence l =>
      let r := _regestry d ++ map str l in
      finish (set_regestry d (Py.slice r (Py.llen l) (Py.llen r)))
  | Stream l =>
      (* [len(o)] raises once the registry has been extended *)
      Err Py.TypeError (set_regestry d (_regestry d ++ map str l)) out
  | Atom a =>
      let r := _regestry d ++ [str a] in
      match Py.pop r 0 with
      | Some r' => finish (set_regestry d r')
      | None => Err Py.IndexError (set_regestry d r) out
      end
  end.

(** [clear(flush=...)] *)
Definition clear (d : IODisplay) (flush : bool) : IODisplay * string :=
  let out := _clear_lines d in
  let d := set_regestry d (empty_regestry (lines d)) in
  if flush then (d, out +++ _render_lines d false) else (d, out).

(** The state of the [_start] loop: the display and the locals. *)
Record loop_state : Type := {
  disp : IODisplay;
  curr : Z;
  last_key : option key
}.

(** The [else] branch once the key is known to be a letter. *)
Definition write_letter (d : IODisplay) (c : Z) (k : key)
  : step_result loop_state Empty_set :=
  match Py.decode k with
  | None => Raise Py.UnicodeDecodeError EmptyString
  | Some letter =>
      let w := Py.insert (_written d) c letter in
      let out := String letter EmptyString in
      let c := c + 1 in
      let size := Py.llen w in
      let rest := Py.join_chars (Py.slice w c size) in
      let out := out +++ rest in
      let n := size - c in
      Continue {| disp := set_written d w; curr := c; last_key := Some k |}
        (if n >? 0 then out +++ csi_left n else out)
  end.

(** One iteration of the [while self._running] loop on key [k]; no
    branch of it returns from [_start]. *)
Definition step (s : loop_state) (k : key) : step_result loop_state Empty_set :=
  let last_key_copy := last_key s in
  let d := disp s in
  let c := curr s in
  let same := {| disp := d; curr := c; last_key := Some k |} in
  if Ascii.eqb k ENTER then
    let out := if negb (c =? 0) then Py.mul ANSI_LEFT c else EmptyString in
    let '(string, d, o) := get d (dispatch_on_enter d) in
    let out := out +++ o in
    let '(d, out) :=
      match callback d with
      | Some f => let '(d', o') := call f string d in (d', out +++ o')
      | None => (d, out)
      end in
    Continue {| disp := d; curr := 0; last_key := None |} out
  else if Ascii.eqb k RIGHT && after_SPECIAL last_key_copy then
    if c <? Py.llen (_written d)
    then Continue {| disp := d; curr := c + 1; last_key := Some k |} ANSI_RIGHT
    else Continue same EmptyString
  else if Ascii.eqb k LEFT && after_SPECIAL last_key_copy then
    if c >? 0
    then Continue {| disp := d; curr := c - 1; last_key := Some k |} ANSI_LEFT
    else Continue same EmptyString
  else if Ascii.eqb k BACKSPACE then
    match _written d with
    | [] => Continue same EmptyString
    | _ :: _ =>
        if c <=? 0 then Continue same EmptyString
        else
          let size := Py.llen (_written d) in
          let rest := Py.join_chars (Py.slice (_written d) c size) in
          let n := Py.len rest + 1 in
          let out := ANSI_LEFT +++ (rest +++ SP) +++ csi_left n in
          let c := Z.max 0 (c - 1) in
          match Py.pop (_written d) c with
          | Some w' =>
              Continue {| disp := set_written d w'; curr := c;
                          last_key := Some k |} out
          | None => Raise Py.IndexError out
          end
    end
  else
    if Ascii.eqb k SPECIAL then Continue same EmptyString
    else if in_IGNORE k then
      if after_SPECIAL last_key_copy then Continue same EmptyString
      else write_letter d c k
    else write_letter d c k.

(** How the loop of [_start] stands after a finite keyboard. *)
Inductive loop_end : Type :=
| Left_loop (s : loop_state) (out : string)      (* [_running] was found false *)
| Died (e : Py.exn) (s : loop_state) (out : string)
| Still_polling (s : loop_state) (out : string).

(** [while self._running: if msvcrt.kbhit(): ...] *)
Fixpoint loop (s : loop_state) (out : string) (keys : list key) : loop_end :=
  if negb (_running (disp s)) then Left_loop s out
  else
    match keys with
    | [] => Still_polling s out
    | k :: ks =>
        match step s k with
        | Continue s' o => loop s' (out +++ o) ks
        | Return r _ => match r with end
        | Raise e o => Died e s (out +++ o)
        end
    end.

(** The loop states met by [loop], the first one included. *)
Fixpoint loop_trace (s : loop_state) (keys : list key) : list loop_state :=
  s :: (if negb (_running (disp s)) then []
        else match keys with
             | [] => []
             | k :: ks =>
                 match step s k with
                 | Continue s' _ => loop_trace s' ks
                 | _ => []
                 end
             end).

(** [_start()]: raise the flag, draw the lines and the prompt, loop. *)
Definition _start (d : IODisplay) (keys : list key) : loop_end :=
  let d := set_running d true in
  loop {| disp := d; curr := 0; last_key := None |} (_render_lines d true) keys.

(** [0 <= curr <= len(self._written)] *)
Definition cursor_ok (s : loop_state) : Prop :=
  0 <= curr s <= Py.llen (_written (disp s)).

(** How the worker [t] of the display [d] ends when it alone runs, from
    where it stands.  A worker just created runs [_start] from its first
    statement, which raises the flag; a worker that has begun draws the
    lines and comes to the test; a worker at the test goes on with
    the loop; a worker inside the body finishes the iteration, with the
    key that is there to read if there is one, and comes to the test; a
    thread that has ended stays as it is.  [Still_polling]: the worker
    never ends. *)
Definition resume (d : IODisplay) (t : Thread) : loop_end :=
  let s := {| disp := d; curr := t_curr t; last_key := t_last_key t |} in
  match t_pc t with
  | Created => _start d (t_keys t)
  | Begun =>
      loop {| disp := d; curr := 0; last_key := None |} (_render_lines d true)
        (t_keys t)
  | At_test => loop s EmptyString (t_keys t)
  | In_body =>
      match t_keys t with
      | [] => loop s EmptyString []
      | k :: ks =>
          match step s k with
          | Continue s' o => loop s' o ks
          | Return r _ => match r with end
          | Raise e o => Died e s o
          end
      end
  | Finished => Left_loop s EmptyString
  | Failed e => Died e s EmptyString
  end.

(** [Thread.join()]: the caller is blocked until the worker has come to
    its end, by returning from [_start] or by an exception; meanwhile the
    worker alone runs.  [None]: the worker never ends and neither does
    the wait. *)
Definition join (d : IODisplay) (t : Thread) : option (IODisplay * string) :=
  match resume d t with
  | Left_loop s out => Some (disp s, out)
  | Died _ s out => Some (disp s, out)
  | Still_polling _ _ => None
  end.

(** What [start] has done when it returns. *)
Inductive started : Type :=
| Spawned (d : IODisplay)     (* threaded: the worker has been started *)
| Ran (e : loop_end)          (* not threaded: [_start] ran in the caller *).

(** [start(threaded=..., callback=...)].  With [threaded=True] the worker
    is created and started and the call returns; nothing in [start]
    touches the running flag, and no statement of the worker has run
    yet.  Otherwise [_start] runs in the caller, on the keys [keys]. *)
Definition start (d : IODisplay) (threaded : bool) (cb : option Callable)
    (keys : list key) : started :=
  let d := set_callback d cb in
  if threaded then
    let t := {| t_pc := Created; t_curr := 0; t_last_key := None;
                t_keys := keys |} in
    Spawned (set_thread d (Some t))
  else Ran (_start (set_thread d None) keys).

(** [stop(dispatch=...)], called on the display [d] whose [_thread], if it
    has one, stands where its [t_pc] says; [None] when the call does not
    return.  Between lowering the flag and joining, [stop] reads and
    writes nothing else, so the worker's progress before the join is
    part of where it stands. *)
Definition stop (d : IODisplay) (dispatch : bool) : option (IODisplay * string) :=
  let d := set_running d false in
  let joined :=
    match _thread d with
    | Some t =>
        match join d t with
        | Some (d', out) => Some (set_thread d' None, out)
        | None => None
        end
    | None => Some (d, EmptyString)
    end in
  match joined with
  | Some (d, out) =>
      if dispatch then Some (d, out +++ _clear_lines d) else Some (d, out)
  | None => None
  end.

End Callables.

Arguments prompt {Callable}.
Arguments lines {Callable}.
Arguments callback {Callable}.
Arguments dispatch_on_enter {Callable}.
Arguments _running {Callable}.
Arguments _written {Callable}.
Arguments _regestry {Callable}.
Arguments _thread {Callable}.
Arguments disp {Callable}.
Arguments curr {Callable}.
Arguments last_key {Callable}.

End Display.

(* ================================================================== *)
(** ** The terminal that reads the output stream

    What the cursor-control sequences written by the program mean: a
    cursor on a grid of rows and columns without edges (no wrapping at a
    right margin, no scrolling at a last row), a line feed that also
    returns the carriage (the console's text mode), and the CSI
    sequences [ESC [ n A/B/C/D] with [n] defaulting to one.  A printable
    ASCII character (codes 32 to 126) takes one column.  What a terminal
    does with any other byte (tab, bell, backspace, vertical tab, form
    feed, delete, bytes from 128 on) or with any other escape sequence
    differs between terminals and is not described: after such a byte
    the model is [Lost] and stays so, and nothing is known of the cursor
    any more. *)

Module Terminal.

Inductive parser : Type :=
| Ground
| Escape                      (* ESC seen *)
| Csi (n : option Z)          (* ESC [ seen, with the digits read so far *)
| Lost                        (* a byte or sequence outside the model was read *).

Record term : Type := {
  row : Z;
  col : Z;
  mode : parser;
  printed : list Z            (* the rows a character was printed on *)
}.

Definition is_digit (c : ascii) : bool :=
  (48 <=? Z.of_nat (nat_of_ascii c)) && (Z.of_nat (nat_of_ascii c) <=? 57).

Definition digit (c : ascii) : Z := Z.of_nat (nat_of_ascii c) - 48.

(** The count of a cursor movement: one when absent or zero. *)
Definition count (n : option Z) : Z :=
  match n with
  | Some k => if k =? 0 then 1 else k
  | None => 1
  end.

(** A character that is printed in one column: printable ASCII. *)
Definition plain_char (c : ascii) : bool :=
  (32 <=? Z.of_nat (nat_of_ascii c)) && (Z.of_nat (nat_of_ascii c) <=? 126).

Definition lost (t : term) : term :=
  {| row := row t; col := col t; mode := Lost; printed := printed t |}.

Definition feed (t : term) (c : ascii) : term :=
  match mode t with
  | Ground =>
      if Ascii.eqb c ESC then
        {| row := row t; col := col t; mode := Escape; printed := printed t |}
      else if Ascii.eqb c "010" then
        {| row := row t + 1; col := 0; mode := Ground; printed := printed t |}
      else if Ascii.eqb c "013" then
        {| row := row t; col := 0; mode := Ground; printed := printed t |}
      else if plain_char c then
        {| row := row t; col := col t + 1; mode := Ground;
           printed := row t :: printed t |}
      else lost t
  | Escape =>
      if Ascii.eqb c "[" then
        {| row := row t; col := col t; mode := Csi None; printed := printed t |}
      else lost t
  | Csi n =>
      if is_digit c then
        {| row := row t; col := col t;
           mode := Csi (Some (10 * match n with Some k => k | None => 0 end
                              + digit c));
           printed := printed t |}
      else if Ascii.eqb c "A" then
        {| row := row t - count n; col := col t; mode := Ground;
           printed := printed t |}
      else if Ascii.eqb c "B" then
        {| row := row t + count n; col := col t; mode := Ground;
           printed := printed t |}
      else if Ascii.eqb c "C" then
        {| row := row t; col := col t + count n; mode := Ground;
           printed := printed t |}
      else if Ascii.eqb c "D" then
        {| row := row t; col := Z.max 0 (col t - count n); mode := Ground;
           printed := printed t |}
      else lost t
  | Lost => t
  end.

(** [sys.stdout.write(s)] as the terminal sees it. *)
Fixpoint write (t : term) (s : string) : term :=
  match s with
  | EmptyString => t
  | String c s' => write (feed t c) s'
  end.

(** A cursor at row [r] and column [c], nothing printed yet. *)
Definition at_ (r c : Z) : term :=
  {| row := r; col := c; mode := Ground; printed := [] |}.

(** A string of printable ASCII characters. *)
Fixpoint plain (s : string) : bool :=
  match s with
  | EmptyString => true
  | String c s' => plain_char c && plain s'
  end.

End Terminal.

(* ================================================================== *)
(** ** overload *)

Module Overload.

(** A Python dict with string keys, in insertion order: assignment to a
    key that is present replaces its value in place, assignment to a new
    key adds it at the end. *)
Definition dict (V : Type) : Type := list (string * V).

Fixpoint dict_get {V} (k : string) (d : dict V) : option V :=
  match d with
  | [] => None
  | (k', v) :: d' => if String.eqb k k' then Some v else dict_get k d'
  end.

Fixpoint dict_set {V} (k : string) (v : V) (d : dict V) : dict V :=
  match d with
  | [] => [(k, v)]
  | (k', v') :: d' =>
      if String.eqb k k' then (k, v) :: d' else (k', v') :: dict_set k v d'
  end.

(** A class, by the name its [repr] shows: int, str, bool, NoneType. *)
Definition class := string.

(** [str(c)] and [repr(c)] of a class. *)
Definition repr_class (c : class) : string := "<class '" +++ c +++ "'>".

(** [type(a)] *)
Definition type_of (a : Display.atom) : class :=
  match a with
  | Display.AStr _ => "str"%string
  | Display.AInt _ => "int"%string
  | Display.ABool _ => "bool"%string
  | Display.ANone => "NoneType"%string
  end.

(** [str(l)] of a list of classes: the [repr] of each, between brackets,
    separated by a comma and a blank. *)
Definition str_list (l : list class) : string :=
  "[" +++ String.concat ", " (map repr_class l) +++ "]".

(** [s[a:b]] on a string. *)
Definition str_slice (s : string) (a b : Z) : string :=
  Py.join_chars (Py.slice (Py.chars s) a b).

Section Functions.
(** What a call of a function gives. *)
Variable R : Type.

(** A function object: its name, its annotations in the order of the
    [def] (the one of the result, under the key return, comes last), and
    what calling it with positional and keyword arguments gives. *)
Record function : Type := {
  __name__ : string;
  __annotations__ : list (string * class);
  body : list Display.atom -> list (string * Display.atom) -> R
}.

(** The class attribute [_uniques]. *)
Definition uniques : Type := dict (dict function).

(** An instance of [overload]. *)
Record overload : Type := {
  fn : function;
  fn_name : string;
  fn_signature : list class
}.

(** The signature [__init__] computes: the annotation values, without
    the last one when the annotations have the key return. *)
Definition signature_of (f : function) : list class :=
  let fn_signature := map snd (__annotations__ f) in
  if existsb (String.eqb "return") (map fst (__annotations__ f))
  then removelast fn_signature
  else fn_signature.

(** [overload(function)]: the instance and the registry after it. *)
Definition __init__ (f : function) (u : uniques) : overload * uniques :=
  let self :=
    {| fn := f; fn_name := __name__ f; fn_signature := signature_of f |} in
  let key := str_list (fn_signature self) in
  match dict_get (fn_name self) u with
  | Some inner =>
      (self, dict_set (fn_name self) (dict_set key (fn self) inner) u)
  | None => (self, dict_set (fn_name self) [(key, fn self)] u)
  end.

(** The message of OverloadUnmatched. *)
Definition unmatched_message (name types : string) : string :=
  "overload function '" +++ name +++ "': argument types '" +++ types
  +++ "' not mathing any instance".

Inductive call_result : Type :=
| Called (r : R)                       (* the matching function was called *)
| OverloadUnmatched (message : string)
| KeyError                             (* [_uniques[self.fn_name]] is missing *).

(** The signature string a call computes from its arguments. *)
Definition call_signature (args : list Display.atom)
    (kwargs : list (string * Display.atom)) : string :=
  let types := map (fun a => repr_class (type_of a)) (args ++ map snd kwargs) in
  "[" +++ String.concat ", " types +++ "]".

(** [__call__]: the instance called with positional and keyword
    arguments. *)
Definition __call__ (self : overload) (u : uniques)
    (args : list Display.atom) (kwargs : list (string * Display.atom))
  : call_result :=
  let signature := call_signature args kwargs in
  match dict_get (fn_name self) u with
  | None => KeyError
  | Some inner =>
      match dict_get signature inner with
      | None =>
          OverloadUnmatched
            (unmatched_message (fn_name self) (str_slice signature 1 (-1)))
      | Some func => Called (body func args kwargs)
      end
  end.

(** The registry after the decorator has been applied to each function
    of a list, in order. *)
Definition register_all (fs : list function) (u : uniques) : uniques :=
  fold_left (fun u f => snd (__init__ f u)) fs u.

End Functions.

Arguments __name__ {R}.
Arguments __annotations__ {R}.
Arguments body {R}.
Arguments fn {R}.
Arguments fn_name {R}.
Arguments fn_signature {R}.

End Overload.

(* ================================================================== *)
(** ** Vocabulary of the statements *)

(** The menu of the examples: options A, B, C with the default marks. *)
Definition abc (w : bool) : Selection.menu :=
  {| Selection.options := ["A"; "B"; "C"]%string;
     Selection.active := " >"; Selection.passive := "> ";
     Selection.wrap := w |}.

(** A key that [decode] accepts. *)
Definition ascii_key (k : key) : Prop := Py.decode k = Some k.

(** A key with no role of its own in the loops: not Enter, not
    Backspace, not the prefix, not one of the four codes. *)
Definition unrelated (k : key) : Prop :=
  Ascii.eqb k ENTER = false /\ Ascii.eqb k BACKSPACE = false
  /\ Ascii.eqb k SPECIAL = false /\ in_IGNORE k = false.

(** A step of [input_write] that navigates: the text is kept and the
    cursor has moved. *)
Definition write_navigates (s s' : InputWrite.state) : Prop :=
  InputWrite.written s' = InputWrite.written s
  /\ InputWrite.curr s' <> InputWrite.curr s.

(** The same for the live line of a display. *)
Definition display_navigates {C} (s s' : Display.loop_state C) : Prop :=
  Display._written (Display.disp s') = Display._written (Display.disp s)
  /\ Display.curr s' <> Display.curr s.

(** The keyboard without its prefix bytes. *)
Definition without_prefix (keys : list key) : list key :=
  filter (fun k => negb (Ascii.eqb k SPECIAL)) keys.

(** A key typed as a letter: it decodes and is neither Enter, nor
    Backspace, nor the prefix. *)
Definition letter (k : key) : Prop :=
  ascii_key k /\ Ascii.eqb k ENTER = false
  /\ Ascii.eqb k BACKSPACE = false /\ Ascii.eqb k SPECIAL = false.

(** The calls that change the registry of a display. *)
Inductive op : Type :=
| Push (o : Display.object) (flush : bool)
| Clear (flush : bool).

(** The display after a call, also when the call has raised. *)
Definition after {C} (d : Display.IODisplay C) (o : op) : Display.IODisplay C :=
  match o with
  | Push x flush =>
      match Display.push C d x flush with
      | Display.Ok _ d' _ => d'
      | Display.Err _ _ d' _ => d'
      end
  | Clear flush => fst (Display.clear C d flush)
  end.

(** A call that pushes an atom or a sequence (an object with a length),
    or clears. *)
Definition sized (o : op) : Prop :=
  match o with
  | Push (Display.Stream _) _ => False
  | _ => True
  end.

(** A call that pushes an atom or a sequence. *)
Definition sized_push (o : op) : Prop :=
  match o with
  | Push (Display.Atom _) _ | Push (Display.Sequence _) _ => True
  | _ => False
  end.

(** What a piece of output does to a terminal that is not in the middle
    of an escape sequence: the cursor moves down by [dr] rows, and every
    row printed on lies between rows [lo] and [hi], counted from the row
    the cursor started on. *)
Definition effect (s : string) (dr lo hi : Z) : Prop :=
  forall t : Terminal.term,
    Terminal.mode t = Terminal.Ground ->
    Terminal.mode (Terminal.write t s) = Terminal.Ground
    /\ Terminal.row (Terminal.write t s) = Terminal.row t + dr
    /\ exists q,
         Terminal.printed (Terminal.write t s) = q ++ Terminal.printed t
         /\ Forall (fun x => Terminal.row t + lo <= x <= Terminal.row t + hi) q.

(** What the loop of [_clear_lines] adds to its buffer for the lines
    [reg]: per line, blanks, a carriage return, a cursor-down. *)
Definition erase_rows (reg : list string) : string :=
  fold_right
    (fun element acc => ((Py.mul SP (Py.len element) +++ CR) +++ ANSI_DOWN) +++ acc)
    EmptyString reg.

(** The redraw of a display: [_clear_lines()] then [_render_lines()]. *)
Definition redraw {C} (d : Display.IODisplay C) : string :=
  Display._clear_lines C d +++ Display._render_lines C d false.

(** A display whose lines, prompt and typed text are printable ASCII
    (no line break, no control or escape character), and whose registry
    has [lines] entries. *)
Definition tidy {C} (d : Display.IODisplay C) : Prop :=
  Py.llen (Display._regestry d) = Display.lines d
  /\ Forall (fun l => Terminal.plain l = true) (Display._regestry d)
  /\ Terminal.plain (Display.prompt d) = true
  /\ Terminal.plain (Py.join_chars (Display._written d)) = true.

(** A display of capacity 1 after [push] of a string with a line break
    in it: a, line feed, b. *)
Definition broken_line : Display.IODisplay unit :=
  after (Display.__init__ unit "> " 1 true)
    (Push (Display.Atom (Display.AStr ("a" +++ NL +++ "b"))) true).

(** Where Down and Up lead from a valid index. *)
Definition down_target (m : Selection.menu) (i : Z) : Z :=
  if i <? Selection.n_options m - 1 then i + 1
  else if Selection.wrap m then 0 else i.

Definition up_target (m : Selection.menu) (i : Z) : Z :=
  if 0 <? i then i - 1
  else if Selection.wrap m then Selection.n_options m - 1 else i.

(** A valid highlight index. *)
Definition index_ok (m : Selection.menu) (i : Z) : Prop :=
  0 <= i < Selection.n_options m.

(** A menu whose options and marks are printable ASCII (no line break,
    no control or escape character). *)
Definition menu_plain (m : Selection.menu) : Prop :=
  Forall (fun o => Terminal.plain o = true) (Selection.options m)
  /\ Terminal.plain (Selection.active m) = true
  /\ Terminal.plain (Selection.passive m) = true.

(** The keys the menu reacts to. *)
Definition menu_key (k : key) : bool :=
  Ascii.eqb k ENTER || Ascii.eqb k DOWN || Ascii.eqb k UP.

(** The terminal [t0] after the output [out] of a menu whose first line
    is on row [top]: not inside an escape sequence, the cursor on row
    [top + i], every printed row a row of the menu. *)
Definition menu_shown (m : Selection.menu) (t0 : Terminal.term) (top : Z)
    (i : Z) (out : string) : Prop :=
  Terminal.mode (Terminal.write t0 out) = Terminal.Ground
  /\ Terminal.row (Terminal.write t0 out) = top + i
  /\ Forall (fun x => top <= x <= top + Selection.n_options m - 1)
       (Terminal.printed (Terminal.write t0 out)).

(** A state of [input_write] and a state of [input_hidden] that hold
    the same text, the cursor of the first at the end of it, and the same
    remembered key, which is not the prefix. *)
Definition same_text (a : InputWrite.state) (b : InputHidden.state) : Prop :=
  InputWrite.written a = InputHidden.written b
  /\ InputWrite.curr a = Py.llen (InputWrite.written a)
  /\ InputWrite.last_key a = InputHidden.last_key b
  /\ after_SPECIAL (InputWrite.last_key a) = false.

(** What two calls have in common when they end alike. *)
Definition same_result (x : outcome InputWrite.state string)
    (y : outcome InputHidden.state string) : Prop :=
  match x, y with
  | Returned a _, Returned b _ => a = b
  | Raised e _, Raised e' _ => e = e'
  | Polling a _, Polling b _ => same_text a b
  | _, _ => False
  end.

(** The Left arrow pressed [k] times: the prefix byte and K, [k] times. *)
Definition lefts (k : nat) : list key := List.concat (repeat [SPECIAL; LEFT] k).

(** What the terminal has read of the count of a CSI sequence after the
    digits [d], having read [a] before them. *)
Fixpoint digits_read (d : Decimal.uint) (a : option Z) : option Z :=
  let acc := match a with Some k => k | None => 0 end in
  match d with
  | Decimal.Nil => a
  | Decimal.D0 d' => digits_read d' (Some (10 * acc + 0))
  | Decimal.D1 d' => digits_read d' (Some (10 * acc + 1))
  | Decimal.D2 d' => digits_read d' (Some (10 * acc + 2))
  | Decimal.D3 d' => digits_read d' (Some (10 * acc + 3))
  | Decimal.D4 d' => digits_read d' (Some (10 * acc + 4))
  | Decimal.D5 d' => digits_read d' (Some (10 * acc + 5))
  | Decimal.D6 d' => digits_read d' (Some (10 * acc + 6))
  | Decimal.D7 d' => digits_read d' (Some (10 * acc + 7))
  | Decimal.D8 d' => digits_read d' (Some (10 * acc + 8))
  | Decimal.D9 d' => digits_read d' (Some (10 * acc + 9))
  end.

(** The terminal is not inside an escape sequence and its cursor is on
    row [r], column [c]. *)
Definition cursor_at (t : Terminal.term) (r c : Z) : Prop :=
  Terminal.mode t = Terminal.Ground
  /\ Terminal.row t = r /\ Terminal.col t = c.

(** A key whose echo, if it has one, is one printed character: a
    printable ASCII byte, or one of the keys the loops never echo as
    themselves (Enter, Backspace, the prefix). *)
Definition echoable (k : key) : Prop :=
  Terminal.plain_char k = true
  \/ Ascii.eqb k ENTER = true \/ Ascii.eqb k BACKSPACE = true
  \/ Ascii.eqb k SPECIAL = true.

(** The edit line of [input_write] as the terminal [t0] shows it after
    the output [out]: the terminal cursor is on row [r], in column [base]
    plus the logical cursor; the cursor is within the text; the text is
    made of printable ASCII characters. *)
Definition line_shown (t0 : Terminal.term) (r base : Z)
    (s : InputWrite.state) (out : string) : Prop :=
  cursor_at (Terminal.write t0 out) r (base + InputWrite.curr s)
  /\ InputWrite.cursor_ok s
  /\ Forall (fun a => Terminal.plain_char a = true) (InputWrite.written s).

(** The lines [l] pushed one call at a time. *)
Definition push_each (l : list Display.atom) (flush : bool) : list op :=
  map (fun a => Push (Display.Atom a) flush) l.

(** The lines an object puts in the registry are printable ASCII. *)
Definition lines_plain (o : Display.object) : Prop :=
  match o with
  | Display.Atom a => Terminal.plain (Display.str a) = true
  | Display.Sequence l | Display.Stream l =>
      Forall (fun a => Terminal.plain (Display.str a) = true) l
  end.

(** The function among [fs] that a call of the name [n] with the
    signature string [key] reaches: the last one registered under that
    name with that signature string. *)
Definition reached {R} (fs : list (Overload.function R)) (n key : string)
  : option (Overload.function R) :=
  find (fun g => String.eqb n (Overload.__name__ g)
                 && String.eqb key
                      (Overload.str_list (Overload.signature_of R g)))
       (rev fs).

(** The classes of the arguments of a call, positional then keyword. *)
Definition classes_of (args : list Display.atom)
    (kwargs : list (string * Display.atom)) : list Overload.class :=
  map Overload.type_of (args ++ map snd kwargs).

(** The function stored in the registry under a name and a signature
    string. *)
Definition lookup {R} (u : Overload.uniques R) (n key : string)
  : option (Overload.function R) :=
  match Overload.dict_get n u with
  | Some inner => Overload.dict_get key inner
  | None => None
  end.

(** Functions of the examples; what each gives is its own label. *)
Definition add_ints : Overload.function string :=
  {| Overload.__name__ := "f";
     Overload.__annotations__ :=
       [("a", "int"); ("b", "int"); ("return", "int")]%string;
     Overload.body := fun _ _ => "add_ints"%string |}.

Definition add_strs : Overload.function string :=
  {| Overload.__name__ := "f";
     Overload.__annotations__ :=
       [("a", "str"); ("b", "str"); ("return", "int")]%string;
     Overload.body := fun _ _ => "add_strs"%string |}.

Definition add_ints_again : Overload.function string :=
  {| Overload.__name__ := "f";
     Overload.__annotations__ :=
       [("a", "int"); ("b", "int"); ("return", "str")]%string;
     Overload.body := fun _ _ => "add_ints_again"%string |}.

Definition bare : Overload.function string :=
  {| Overload.__name__ := "g";
     Overload.__annotations__ := [];
     Overload.body := fun _ _ => "bare"%string |}.

(** The live line of a display without callback as the terminal [t0]
    shows it after the output [out]: the terminal cursor is on row [r], in
    column [base] plus the logical cursor; the cursor is within the text;
    the text is made of printable ASCII characters. *)
Definition live_line_shown {C} (t0 : Terminal.term) (r base : Z)
    (s : Display.loop_state C) (out : string) : Prop :=
  cursor_at (Terminal.write t0 out) r (base + Display.curr s)
  /\ Display.cursor_ok C s
  /\ Forall (fun a => Terminal.plain_char a = true)
       (Display._written (Display.disp s))
  /\ Display.callback (Display.disp s) = None.

(* ================================================================== *)
(** * Properties *)

(** ** Python lists *)

Lemma llen_nonneg {A} (l : list A) : 0 <= Py.llen l.
Proof. unfold Py.llen; lia. Qed.

Lemma index_in_range {A} (l : list A) (i : Z) :
  0 <= i < Py.llen l -> exists x, Py.index l i = Some x.
Proof.
  intros H. unfold Py.index.
  destruct (i <? 0) eqn:E; [apply Z.ltb_lt in E; lia|].
  replace ((0 <=? i) && (i <? Py.llen l)) with true
    by (symmetry; apply andb_true_iff; split; [apply Z.leb_le | apply Z.ltb_lt]; lia).
  destruct (nth_error l (Z.to_nat i)) as [x|] eqn:N; [eauto|].
  apply nth_error_None in N. unfold Py.llen in H. lia.
Qed.

Lemma pop_in_range {A} (l : list A) (i : Z) :
  0 <= i < Py.llen l ->
  exists l', Py.pop l i = Some l' /\ Py.llen l' = Py.llen l - 1.
Proof.
  intros H. unfold Py.pop.
  destruct (i <? 0) eqn:E; [apply Z.ltb_lt in E; lia|].
  replace ((0 <=? i) && (i <? Py.llen l)) with true
    by (symmetry; apply andb_true_iff; split; [apply Z.leb_le | apply Z.ltb_lt]; lia).
  eexists; split; [reflexivity|].
  unfold Py.llen in *. rewrite length_app, length_firstn, length_skipn. lia.
Qed.

Lemma insert_length {A} (l : list A) (i : Z) (x : A) :
  Py.llen (Py.insert l i x) = Py.llen l + 1.
Proof.
  unfold Py.insert, Py.llen. rewrite length_app. simpl.
  rewrite length_firstn, length_skipn.
  assert (0 <= Py.clip (Z.of_nat (List.length l)) i <= Z.of_nat (List.length l)).
  { unfold Py.clip. destruct (i <? 0) eqn:E.
    - apply Z.ltb_lt in E. lia.
    - apply Z.ltb_ge in E. lia. }
  unfold Py.llen. lia.
Qed.

(** ** Polling loops *)

Lemma trace_invariant {S R} (step : S -> key -> step_result S R) (P : S -> Prop) :
  (forall s k s' o, P s -> step s k = Continue s' o -> P s') ->
  forall keys s, P s -> Forall P (trace step s keys).
Proof.
  intros Hstep keys; induction keys as [|k ks IH]; intros s Hs; simpl.
  - constructor; [exact Hs | constructor].
  - constructor; [exact Hs|].
    destruct (step s k) as [s' o| |] eqn:E; try constructor.
    apply IH. eapply Hstep; eauto.
Qed.

(* ------------------------------------------------------------------ *)
(** ** The selection menu *)

(** C5. [selection] called without options raises TypeError (the
    invalid-argument error of the program) and nothing has been written
    to the terminal: the outcome on every keyboard is the exception with
    the empty output. *)
Theorem selection_no_option (a p : string) (w : bool) (keys : list key) :
  Selection.selection
    {| Selection.options := []; Selection.active := a;
       Selection.passive := p; Selection.wrap := w |} keys
  = Raised Py.TypeError EmptyString.
Proof. reflexivity. Qed.

(** C3, as stated, fails on its last example: with wrap, the third Down
    from index 0 already stands on the last of three options and wraps
    to 0, so after a fourth Down the index is 1, not 0. *)
Lemma selection_wrap_fourth_down :
  Selection.index_after (abc true) [DOWN; DOWN; DOWN; DOWN] <> Some 0.
Proof. vm_compute. discriminate. Qed.

(** C3, amended.  With the highlight at a valid index [i] of [n] options:
    Down moves to [i+1] below the last index, and at the last index stays
    without wrap and moves to 0 with wrap; Up moves to [i-1] above index
    0, and at index 0 stays without wrap and moves to the last index with
    wrap; Enter returns [options[i]].  For the options A, B, C from index
    0: without wrap Up stays at 0 and four Downs end at 2; with wrap two
    Downs reach 2, the third yields 0 and the fourth yields 1. *)
Theorem selection_navigation (m : Selection.menu) (i : Z) :
  0 <= i < Selection.n_options m ->
  let n := Selection.n_options m in
  (exists out, Selection.step m i DOWN
     = Continue (if i <? n - 1 then i + 1
                 else if Selection.wrap m then 0 else i) out)
  /\ (exists out, Selection.step m i UP
     = Continue (if 0 <? i then i - 1
                 else if Selection.wrap m then n - 1 else i) out)
  /\ (exists o, Py.index (Selection.options m) i = Some o
                /\ Selection.step m i ENTER = Return o NL)
  /\ Selection.index_after (abc false) [UP] = Some 0
  /\ Selection.index_after (abc false) [DOWN; DOWN; DOWN; DOWN] = Some 2
  /\ Selection.index_after (abc true) [DOWN; DOWN] = Some 2
  /\ Selection.index_after (abc true) [DOWN; DOWN; DOWN] = Some 0
  /\ Selection.index_after (abc true) [DOWN; DOWN; DOWN; DOWN] = Some 1.
Proof.
  intros Hi n.
  destruct (index_in_range (Selection.options m) i Hi) as [oi Hoi].
  assert (Hopt : forall j, 0 <= j < n ->
            exists o, Py.index (Selection.options m) j = Some o)
    by (intros j Hj; apply index_in_range; exact Hj).
  repeat split; try (vm_compute; reflexivity).
  - (* Down *)
    unfold Selection.step, Selection.with_option.
    change (Ascii.eqb DOWN ENTER) with false.
    change (Ascii.eqb DOWN DOWN) with true. cbv iota.
    rewrite Hoi. fold n.
    destruct (i <? n - 1) eqn:Elast.
    + apply Z.ltb_lt in Elast.
      rewrite Z.min_l by lia.
      replace (i + 1 =? i) with false by (symmetry; apply Z.eqb_neq; lia).
      destruct (Hopt (i + 1)) as [o Ho]; [lia|]. rewrite Ho. eauto.
    + apply Z.ltb_ge in Elast.
      rewrite Z.min_r by lia.
      replace (n - 1 =? i) with true by (symmetry; apply Z.eqb_eq; lia).
      destruct (Selection.wrap m); simpl andb.
      * destruct (n >? 1) eqn:En.
        -- destruct (Hopt 0) as [o Ho]; [lia|]. rewrite Ho. eauto.
        -- assert (n <= 1) by (rewrite Z.gtb_ltb in En; apply Z.ltb_ge in En; lia).
           replace (n - 1) with 0 by lia.
           destruct (Hopt 0) as [o Ho]; [lia|]. rewrite Ho. eauto.
      * replace (n - 1) with i by lia. rewrite Hoi. eauto.
  - (* Up *)
    unfold Selection.step, Selection.with_option.
    change (Ascii.eqb UP ENTER) with false.
    change (Ascii.eqb UP DOWN) with false.
    change (Ascii.eqb UP UP) with true. cbv iota.
    rewrite Hoi. fold n.
    destruct (0 <? i) eqn:Efirst.
    + apply Z.ltb_lt in Efirst.
      rewrite Z.max_l by lia.
      replace (i - 1 =? i) with false by (symmetry; apply Z.eqb_neq; lia).
      destruct (Hopt (i - 1)) as [o Ho]; [lia|]. rewrite Ho. eauto.
    + apply Z.ltb_ge in Efirst.
      rewrite Z.max_r by lia.
      replace (0 =? i) with true by (symmetry; apply Z.eqb_eq; lia).
      destruct (Selection.wrap m); simpl andb.
      * destruct (n >? 1) eqn:En.
        -- destruct (Hopt (n - 1)) as [o Ho]; [lia|]. rewrite Ho. eauto.
        -- assert (n <= 1) by (rewrite Z.gtb_ltb in En; apply Z.ltb_ge in En; lia).
           replace (n - 1) with 0 by lia.
           destruct (Hopt 0) as [o Ho]; [lia|]. rewrite Ho. eauto.
      * replace 0 with i by lia. rewrite Hoi. eauto.
  - (* Enter *)
    exists oi. split; [exact Hoi|].
    unfold Selection.step, Selection.with_option.
    change (Ascii.eqb ENTER ENTER) with true. cbv iota.
    rewrite Hoi. reflexivity.
Qed.

Lemma selection_navigation_witness :
  exists out, Selection.step (abc true) 2 DOWN = Continue 0 out.
Proof.
  destruct (selection_navigation (abc true) 2) as [H _].
  - change (Selection.n_options (abc true)) with 3. lia.
  - exact H.
Defined.

(* ------------------------------------------------------------------ *)
(** ** The edit line: cursor and Backspace *)

Lemma chars_length (s : string) : Py.llen (Py.chars s) = Py.len s.
Proof.
  unfold Py.llen, Py.len, Py.chars. f_equal.
  induction s as [|c s IH]; simpl; congruence.
Qed.

Lemma write_letter_cursor (w : list ascii) (c : Z) (k : key)
    (s' : InputWrite.state) (o : string) :
  0 <= c <= Py.llen w ->
  InputWrite.write_letter w c k = Continue s' o ->
  InputWrite.cursor_ok s'.
Proof.
  intros Hc H. unfold InputWrite.write_letter in H.
  destruct (Py.decode k); [|discriminate].
  inversion H; subst; clear H.
  unfold InputWrite.cursor_ok; simpl. rewrite insert_length. lia.
Qed.

Lemma input_write_step_cursor (s : InputWrite.state) (k : key)
    (s' : InputWrite.state) (o : string) :
  InputWrite.cursor_ok s ->
  InputWrite.step s k = Continue s' o ->
  InputWrite.cursor_ok s'.
Proof.
  unfold InputWrite.cursor_ok. intros Hc H.
  pose proof (write_letter_cursor (InputWrite.written s) (InputWrite.curr s) k s' o Hc) as Hw.
  unfold InputWrite.cursor_ok in Hw.
  unfold InputWrite.step in H.
  destruct (Ascii.eqb k ENTER); [discriminate|].
  destruct (Ascii.eqb k RIGHT && after_SPECIAL (InputWrite.last_key s)).
  { destruct (InputWrite.curr s <? Py.llen (InputWrite.written s)) eqn:E;
      inversion H; subst; simpl; [apply Z.ltb_lt in E|]; lia. }
  destruct (Ascii.eqb k LEFT && after_SPECIAL (InputWrite.last_key s)).
  { destruct (InputWrite.curr s >? 0) eqn:E;
      inversion H; subst; simpl; [rewrite Z.gtb_ltb in E; apply Z.ltb_lt in E|]; lia. }
  destruct (Ascii.eqb k BACKSPACE).
  { destruct (InputWrite.written s) as [|a w] eqn:Ew.
    - inversion H; subst; simpl; lia.
    - destruct (InputWrite.curr s <=? 0) eqn:E.
      + inversion H; subst; simpl; lia.
      + apply Z.leb_gt in E.
        destruct (pop_in_range (a :: w) (InputWrite.curr s - 1)) as [w' [Hp Hl]];
          [lia|].
        rewrite Hp in H. inversion H; subst; simpl. lia. }
  destruct (Ascii.eqb k SPECIAL); [inversion H; subst; simpl; lia|].
  destruct (in_IGNORE k); [|auto].
  destruct (after_SPECIAL (InputWrite.last_key s)); [inversion H; subst; simpl; lia|auto].
Qed.

Section DisplayLoop.
Context {Callable : Type}.
Variable call : Callable -> string -> Display.IODisplay Callable
                -> Display.IODisplay Callable * string.

Lemma display_write_letter_cursor (d : Display.IODisplay Callable) (c : Z)
    (k : key) (s' : Display.loop_state Callable) (o : string) :
  0 <= c <= Py.llen (Display._written d) ->
  Display.write_letter Callable d c k = Continue s' o ->
  Display.cursor_ok Callable s'.
Proof.
  intros Hc H. unfold Display.write_letter in H.
  destruct (Py.decode k); [|discriminate].
  inversion H; subst; clear H.
  unfold Display.cursor_ok; simpl. rewrite insert_length. lia.
Qed.

Lemma display_step_cursor (s : Display.loop_state Callable) (k : key)
    (s' : Display.loop_state Callable) (o : string) :
  Display.cursor_ok Callable s ->
  Display.step Callable call s k = Continue s' o ->
  Display.cursor_ok Callable s'.
Proof.
  unfold Display.cursor_ok. intros Hc H.
  pose proof (display_write_letter_cursor (Display.disp s) (Display.curr s) k s' o Hc) as Hw.
  unfold Display.cursor_ok in Hw.
  unfold Display.step in H.
  destruct (Ascii.eqb k ENTER).
  { destruct (Display.get Callable (Display.disp s)
                (Display.dispatch_on_enter (Display.disp s))) as [[str d1] o1].
    destruct (Display.callback d1) as [f|].
    - destruct (call f str d1) as [d2 o2].
      inversion H; subst; simpl. pose proof (llen_nonneg (Display._written d2)). lia.
    - inversion H; subst; simpl. pose proof (llen_nonneg (Display._written d1)). lia. }
  destruct (Ascii.eqb k RIGHT && after_SPECIAL (Display.last_key s)).
  { destruct (Display.curr s <? Py.llen (Display._written (Display.disp s))) eqn:E;
      inversion H; subst; simpl; [apply Z.ltb_lt in E|]; lia. }
  destruct (Ascii.eqb k LEFT && after_SPECIAL (Display.last_key s)).
  { destruct (Display.curr s >? 0) eqn:E;
      inversion H; subst; simpl; [rewrite Z.gtb_ltb in E; apply Z.ltb_lt in E|]; lia. }
  destruct (Ascii.eqb k BACKSPACE).
  { destruct (Display._written (Display.disp s)) as [|a w] eqn:Ew.
    - inversion H; subst; simpl; rewrite Ew; lia.
    - destruct (Display.curr s <=? 0) eqn:E.
      + inversion H; subst; simpl; rewrite Ew; lia.
      + apply Z.leb_gt in E.
        destruct (pop_in_range (a :: w) (Z.max 0 (Display.curr s - 1)))
          as [w' [Hp Hl]]; [lia|].
        rewrite Hp in H. inversion H; subst; simpl. lia. }
  destruct (Ascii.eqb k SPECIAL); [inversion H; subst; simpl; lia|].
  destruct (in_IGNORE k); [|auto].
  destruct (after_SPECIAL (Display.last_key s)); [inversion H; subst; simpl; lia|auto].
Qed.

Lemma loop_trace_invariant (P : Display.loop_state Callable -> Prop) :
  (forall s k s' o, P s -> Display.step Callable call s k = Continue s' o -> P s') ->
  forall keys s, P s -> Forall P (Display.loop_trace Callable call s keys).
Proof.
  intros Hstep keys; induction keys as [|k ks IH]; intros s Hs; simpl.
  - constructor; [exact Hs|]. destruct (negb _); constructor.
  - constructor; [exact Hs|].
    destruct (negb _); [constructor|].
    destruct (Display.step Callable call s k) as [s' o| |] eqn:E; try constructor.
    apply IH. eapply Hstep; eauto.
Qed.

End DisplayLoop.

(** C1. At every step of the key loop of [input_write], started from any
    initial edit text, and of the key loop of [IODisplay._start], started
    with the cursor at 0 on any display, whatever keys arrive (printable
    keys, Backspace, arrows, and any other byte), the cursor index
    satisfies [0 <= curr <= len(written)]. *)
Theorem cursor_within_content :
  (forall (edit : string) (keys : list key),
      Forall InputWrite.cursor_ok
        (trace InputWrite.step (InputWrite.init edit) keys))
  /\ (forall (Callable : Type)
        (call : Callable -> string -> Display.IODisplay Callable
                -> Display.IODisplay Callable * string)
        (d : Display.IODisplay Callable) (keys : list key),
      Forall (Display.cursor_ok Callable)
        (Display.loop_trace Callable call
           {| Display.disp := d; Display.curr := 0; Display.last_key := None |}
           keys)).
Proof.
  split.
  - intros edit keys. apply trace_invariant.
    + intros s k s' o. apply input_write_step_cursor.
    + unfold InputWrite.cursor_ok, InputWrite.init; simpl.
      rewrite chars_length. unfold Py.len. lia.
  - intros Callable call d keys. apply loop_trace_invariant.
    + intros s k s' o. apply display_step_cursor.
    + unfold Display.cursor_ok; simpl. pose proof (llen_nonneg (Display._written d)). lia.
Qed.

(** C6. Backspace on an empty buffer, or with the cursor at index 0, is
    a no-op in [input_write] and in the live line of [IODisplay]: the
    next loop state has the same content and the same cursor (only the
    remembered last key changes) and nothing is written. *)
Theorem backspace_noop (w : list ascii) (c : Z) (last : option key)
    (Callable : Type)
    (call : Callable -> string -> Display.IODisplay Callable
            -> Display.IODisplay Callable * string)
    (d : Display.IODisplay Callable) :
  w = [] \/ c = 0 ->
  InputWrite.step
    {| InputWrite.written := w; InputWrite.curr := c;
       InputWrite.last_key := last |} BACKSPACE
  = Continue {| InputWrite.written := w; InputWrite.curr := c;
                InputWrite.last_key := Some BACKSPACE |} EmptyString
  /\ Display.step Callable call
       {| Display.disp := Display.set_written Callable d w;
          Display.curr := c; Display.last_key := last |} BACKSPACE
     = Continue {| Display.disp := Display.set_written Callable d w;
                   Display.curr := c; Display.last_key := Some BACKSPACE |}
         EmptyString.
Proof.
  intros H.
  unfold InputWrite.step, Display.step.
  change (Ascii.eqb BACKSPACE ENTER) with false.
  change (Ascii.eqb BACKSPACE RIGHT) with false.
  change (Ascii.eqb BACKSPACE LEFT) with false.
  change (Ascii.eqb BACKSPACE BACKSPACE) with true.
  cbn [andb InputWrite.written InputWrite.curr InputWrite.last_key
       Display.disp Display.curr Display.last_key Display._written
       Display.set_written].
  destruct w as [|a w]; [split; reflexivity|].
  destruct H as [H|H]; [discriminate|]. subst c.
  split; reflexivity.
Qed.

Lemma backspace_noop_witness :
  InputWrite.step
    {| InputWrite.written := ["a"%char]; InputWrite.curr := 0;
       InputWrite.last_key := None |} BACKSPACE
  = Continue {| InputWrite.written := ["a"%char]; InputWrite.curr := 0;
                InputWrite.last_key := Some BACKSPACE |} EmptyString.
Proof.
  refine (proj1 (backspace_noop ["a"%char] 0 None unit
                   (fun _ _ d => (d, EmptyString))
                   (Display.__init__ unit EmptyString 4 true) _)).
  right. reflexivity.
Defined.

(* ------------------------------------------------------------------ *)
(** ** Navigation codes and the prefix byte *)

Lemma append_empty_r (s : string) : s +++ EmptyString = s.
Proof. induction s as [|c s IH]; simpl; congruence. Qed.

Lemma append_assoc (a b c : string) : (a +++ b) +++ c = a +++ (b +++ c).
Proof. induction a as [|x a IH]; simpl; congruence. Qed.

Lemma code_facts (k : key) :
  In k IGNORE ->
  Ascii.eqb k ENTER = false /\ Ascii.eqb k BACKSPACE = false
  /\ Ascii.eqb k SPECIAL = false /\ in_IGNORE k = true
  /\ Py.decode k = Some k.
Proof.
  intros H. unfold IGNORE in H. simpl in H.
  destruct H as [H|[H|[H|[H|[]]]]]; subst k; repeat split; reflexivity.
Qed.

Lemma unrelated_not_arrow (k : key) :
  unrelated k -> Ascii.eqb k RIGHT = false /\ Ascii.eqb k LEFT = false.
Proof.
  intros (_ & _ & _ & H). unfold in_IGNORE, IGNORE in H. simpl in H.
  apply orb_false_elim in H. destruct H as [H1 H].
  apply orb_false_elim in H. destruct H as [H2 _]. auto.
Qed.

Lemma pop_length {A} (l l' : list A) (i : Z) :
  Py.pop l i = Some l' -> Py.llen l' = Py.llen l - 1.
Proof.
  unfold Py.pop. intros H.
  destruct ((0 <=? (if i <? 0 then i + Py.llen l else i))
            && ((if i <? 0 then i + Py.llen l else i) <? Py.llen l)) eqn:E;
    [|discriminate].
  apply andb_true_iff in E. destruct E as [E1 E2].
  apply Z.leb_le in E1. apply Z.ltb_lt in E2.
  injection H as <-.
  unfold Py.llen in *. rewrite length_app, length_firstn.
  destruct l as [|a l]; [simpl in *; lia|].
  rewrite length_skipn. simpl List.length in *. lia.
Qed.

Lemma write_navigates_only_arrows (s s' : InputWrite.state) (k : key) (o : string) :
  InputWrite.step s k = Continue s' o ->
  write_navigates s s' ->
  after_SPECIAL (InputWrite.last_key s) = true /\ (k = RIGHT \/ k = LEFT).
Proof.
  unfold write_navigates. intros H [Hw Hc].
  assert (Hletter : forall r, InputWrite.write_letter (InputWrite.written s)
                                (InputWrite.curr s) k = Continue r o ->
                              InputWrite.written r <> InputWrite.written s).
  { intros r Hr. unfold InputWrite.write_letter in Hr.
    destruct (Py.decode k); [|discriminate].
    inversion Hr; subst; simpl. intros E.
    apply (f_equal Py.llen) in E. rewrite insert_length in E. lia. }
  unfold InputWrite.step in H.
  destruct (Ascii.eqb k ENTER); [discriminate|].
  destruct (Ascii.eqb k RIGHT) eqn:ER.
  { apply Ascii.eqb_eq in ER. subst k.
    destruct (after_SPECIAL (InputWrite.last_key s)) eqn:EL; [auto|].
    exfalso.
    change (Ascii.eqb RIGHT LEFT) with false in H.
    change (Ascii.eqb RIGHT BACKSPACE) with false in H.
    change (Ascii.eqb RIGHT SPECIAL) with false in H.
    change (in_IGNORE RIGHT) with true in H.
    cbn [andb] in H. apply (Hletter s'); auto. }
  destruct (Ascii.eqb k LEFT) eqn:EK.
  { apply Ascii.eqb_eq in EK. subst k.
    destruct (after_SPECIAL (InputWrite.last_key s)) eqn:EL; [auto|].
    exfalso.
    change (Ascii.eqb LEFT BACKSPACE) with false in H.
    change (Ascii.eqb LEFT SPECIAL) with false in H.
    change (in_IGNORE LEFT) with true in H.
    cbn [andb] in H. apply (Hletter s'); auto. }
  cbn [andb] in H.
  exfalso.
  destruct (Ascii.eqb k BACKSPACE).
  { destruct (InputWrite.written s) as [|a w] eqn:Ew.
    - inversion H; subst; simpl in *; congruence.
    - destruct (InputWrite.curr s <=? 0).
      + inversion H; subst; simpl in *; congruence.
      + destruct (Py.pop (a :: w) (InputWrite.curr s - 1)) as [w'|] eqn:Hp;
          [|discriminate].
        apply pop_length in Hp. inversion H; subst s'; cbn in Hw.
        subst w'. lia. }
  destruct (Ascii.eqb k SPECIAL); [inversion H; subst; simpl in *; congruence|].
  destruct (in_IGNORE k).
  - destruct (after_SPECIAL (InputWrite.last_key s)).
    + inversion H; subst; simpl in *; congruence.
    + apply (Hletter s'); auto.
  - apply (Hletter s'); auto.
Qed.

Lemma display_navigates_only_arrows {Callable : Type}
    (call : Callable -> string -> Display.IODisplay Callable
            -> Display.IODisplay Callable * string)
    (s s' : Display.loop_state Callable) (k : key) (o : string) :
  Ascii.eqb k ENTER = false ->
  Display.step Callable call s k = Continue s' o ->
  display_navigates s s' ->
  after_SPECIAL (Display.last_key s) = true /\ (k = RIGHT \/ k = LEFT).
Proof.
  unfold display_navigates. intros HE H [Hw Hc].
  assert (Hletter : forall r, Display.write_letter Callable (Display.disp s)
                                (Display.curr s) k = Continue r o ->
                              Display._written (Display.disp r)
                              <> Display._written (Display.disp s)).
  { intros r Hr. unfold Display.write_letter in Hr.
    destruct (Py.decode k); [|discriminate].
    inversion Hr; subst; simpl. intros E.
    apply (f_equal Py.llen) in E. rewrite insert_length in E. lia. }
  unfold Display.step in H. rewrite HE in H.
  destruct (Ascii.eqb k RIGHT) eqn:ER.
  { apply Ascii.eqb_eq in ER. subst k.
    destruct (after_SPECIAL (Display.last_key s)) eqn:EL; [auto|].
    exfalso.
    change (Ascii.eqb RIGHT LEFT) with false in H.
    change (Ascii.eqb RIGHT BACKSPACE) with false in H.
    change (Ascii.eqb RIGHT SPECIAL) with false in H.
    change (in_IGNORE RIGHT) with true in H.
    cbn [andb] in H. apply (Hletter s'); auto. }
  destruct (Ascii.eqb k LEFT) eqn:EK.
  { apply Ascii.eqb_eq in EK. subst k.
    destruct (after_SPECIAL (Display.last_key s)) eqn:EL; [auto|].
    exfalso.
    change (Ascii.eqb LEFT BACKSPACE) with false in H.
    change (Ascii.eqb LEFT SPECIAL) with false in H.
    change (in_IGNORE LEFT) with true in H.
    cbn [andb] in H. apply (Hletter s'); auto. }
  cbn [andb] in H.
  exfalso.
  destruct (Ascii.eqb k BACKSPACE).
  { destruct (Display._written (Display.disp s)) as [|a w] eqn:Ew.
    - inversion H; subst; simpl in *; congruence.
    - destruct (Display.curr s <=? 0).
      + inversion H; subst; simpl in *; congruence.
      + destruct (Py.pop (a :: w) (Z.max 0 (Display.curr s - 1))) as [w'|] eqn:Hp;
          [|discriminate].
        apply pop_length in Hp. inversion H; subst s'; cbn in Hw.
        subst w'. lia. }
  destruct (Ascii.eqb k SPECIAL); [inversion H; subst; simpl in *; congruence|].
  destruct (in_IGNORE k).
  - destruct (after_SPECIAL (Display.last_key s)).
    + inversion H; subst; simpl in *; congruence.
    + apply (Hletter s'); auto.
  - apply (Hletter s'); auto.
Qed.

Lemma selection_step_prefix (m : Selection.menu) (idx : Z) :
  Selection.step m idx SPECIAL = Continue idx EmptyString.
Proof. reflexivity. Qed.

Lemma selection_run_without_prefix (m : Selection.menu) (keys : list key) :
  forall idx out,
    run (Selection.step m) idx out keys
    = run (Selection.step m) idx out (without_prefix keys).
Proof.
  induction keys as [|k ks IH]; intros idx out; [reflexivity|].
  unfold without_prefix. cbn [filter]. fold (without_prefix ks).
  destruct (Ascii.eqb k SPECIAL) eqn:E; cbn [negb].
  - apply Ascii.eqb_eq in E. subst k. cbn [run].
    rewrite selection_step_prefix, append_empty_r. apply IH.
  - cbn [run]. destruct (Selection.step m idx k); try reflexivity. apply IH.
Qed.

(** C4, as stated, fails for [selection]: the raw byte P, with no prefix
    byte before it, moves the highlight of the menu. *)
Lemma selection_raw_code_navigates :
  Selection.index_after (abc false) ["P"%char]
  <> Selection.index_after (abc false) [].
Proof. vm_compute. discriminate. Qed.

(** C4, amended.  In [input_write], [input_hidden] and the loop of
    [IODisplay]: (1) a byte M, K, H or P that does not come right after
    the prefix byte is stored as a letter (inserted at the cursor, or
    appended in [input_hidden]); (2) a step that moves the cursor and
    keeps the text, other than Enter in [IODisplay], happens only for M
    or K right after the prefix byte; (3) after an orphan prefix byte, a
    byte that is neither a code nor Enter, Backspace or the prefix is
    handled as a letter.  (4) [selection] does not look at the prefix
    byte: its outcome is the same with every prefix byte removed from the
    keyboard, and a raw P moves the highlight from 0 to 1. *)
Theorem navigation_codes_and_prefix :
  (forall (k : key) (last : option key),
      In k IGNORE -> after_SPECIAL last = false ->
      (forall w c, exists o,
          InputWrite.step
            {| InputWrite.written := w; InputWrite.curr := c;
               InputWrite.last_key := last |} k
          = Continue {| InputWrite.written := Py.insert w c k;
                        InputWrite.curr := c + 1;
                        InputWrite.last_key := Some k |} o)
      /\ (forall w,
          InputHidden.step
            {| InputHidden.written := w; InputHidden.last_key := last |} k
          = Continue {| InputHidden.written := w ++ [k];
                        InputHidden.last_key := Some k |} EmptyString)
      /\ (forall Callable call (d : Display.IODisplay Callable) c, exists o,
          Display.step Callable call
            {| Display.disp := d; Display.curr := c;
               Display.last_key := last |} k
          = Continue
              {| Display.disp :=
                   Display.set_written Callable d
                     (Py.insert (Display._written d) c k);
                 Display.curr := c + 1; Display.last_key := Some k |} o))
  /\ (forall s s' k o,
      InputWrite.step s k = Continue s' o -> write_navigates s s' ->
      after_SPECIAL (InputWrite.last_key s) = true /\ (k = RIGHT \/ k = LEFT))
  /\ (forall Callable call (s s' : Display.loop_state Callable) k o,
      Ascii.eqb k ENTER = false ->
      Display.step Callable call s k = Continue s' o ->
      display_navigates s s' ->
      after_SPECIAL (Display.last_key s) = true /\ (k = RIGHT \/ k = LEFT))
  /\ (forall k : key, unrelated k ->
      (forall w c,
          InputWrite.step
            {| InputWrite.written := w; InputWrite.curr := c;
               InputWrite.last_key := Some SPECIAL |} k
          = InputWrite.write_letter w c k)
      /\ (forall w,
          InputHidden.step
            {| InputHidden.written := w;
               InputHidden.last_key := Some SPECIAL |} k
          = InputHidden.store_letter w k)
      /\ (forall Callable call (d : Display.IODisplay Callable) c,
          Display.step Callable call
            {| Display.disp := d; Display.curr := c;
               Display.last_key := Some SPECIAL |} k
          = Display.write_letter Callable d c k))
  /\ (forall m keys,
      Selection.selection m keys = Selection.selection m (without_prefix keys))
  /\ Selection.index_after (abc false) ["P"%char] = Some 1.
Proof.
  split; [|split; [|split; [|split; [|split]]]].
  - intros k last Hk Hl.
    destruct (code_facts k Hk) as (E1 & E2 & E3 & E4 & E5).
    split; [|split].
    + intros w c. unfold InputWrite.step, InputWrite.write_letter.
      cbn [InputWrite.written InputWrite.curr InputWrite.last_key].
      rewrite E1, E2, E3, E4, E5, Hl, !andb_false_r. eexists. reflexivity.
    + intros w. unfold InputHidden.step, InputHidden.store_letter.
      cbn [InputHidden.written InputHidden.last_key].
      rewrite E1, E2, E3, E4, E5, Hl. reflexivity.
    + intros Callable call d c. unfold Display.step, Display.write_letter.
      cbn [Display.disp Display.curr Display.last_key].
      rewrite E1, E2, E3, E4, E5, Hl, !andb_false_r. eexists. reflexivity.
  - intros s s' k o. apply write_navigates_only_arrows.
  - intros Callable call s s' k o. apply display_navigates_only_arrows.
  - intros k Hk. destruct (unrelated_not_arrow k Hk) as [ER EL].
    destruct Hk as (E1 & E2 & E3 & E4).
    split; [|split].
    + intros w c. unfold InputWrite.step.
      cbn [InputWrite.written InputWrite.curr InputWrite.last_key].
      rewrite E1, E2, E3, E4, ER, EL. reflexivity.
    + intros w. unfold InputHidden.step.
      cbn [InputHidden.written InputHidden.last_key].
      rewrite E1, E2, E3, E4. reflexivity.
    + intros Callable call d c. unfold Display.step.
      cbn [Display.disp Display.curr Display.last_key].
      rewrite E1, E2, E3, E4, ER, EL. reflexivity.
  - intros m keys. unfold Selection.selection.
    destruct (Selection.options m); [reflexivity|].
    apply selection_run_without_prefix.
  - vm_compute. reflexivity.
Qed.

Lemma navigation_codes_and_prefix_witness :
  exists o,
    InputWrite.step
      {| InputWrite.written := ["a"%char]; InputWrite.curr := 1;
         InputWrite.last_key := Some "a"%char |} "M"%char
    = Continue {| InputWrite.written := Py.insert ["a"%char] 1 "M"%char;
                  InputWrite.curr := 1 + 1;
                  InputWrite.last_key := Some "M"%char |} o.
Proof.
  refine (proj1 (proj1 navigation_codes_and_prefix "M"%char (Some "a"%char) _ _)
            ["a"%char] 1).
  - left. reflexivity.
  - reflexivity.
Defined.

(* ------------------------------------------------------------------ *)
(** ** The hidden input line *)

Lemma hidden_step_silent (s : InputHidden.state) (k : key) :
  match InputHidden.step s k with
  | Continue _ o => o = EmptyString
  | Return _ o => o = NL
  | Raise _ o => o = EmptyString
  end.
Proof.
  unfold InputHidden.step, InputHidden.store_letter.
  destruct (Ascii.eqb k ENTER); [reflexivity|].
  destruct (Ascii.eqb k BACKSPACE);
    [destruct (InputHidden.written s); reflexivity|].
  destruct (Ascii.eqb k SPECIAL); [reflexivity|].
  destruct (in_IGNORE k); [destruct (after_SPECIAL _); [reflexivity|]|];
    destruct (Py.decode k); reflexivity.
Qed.

Lemma hidden_step_no_raise (s : InputHidden.state) (k : key) :
  ascii_key k -> forall e o, InputHidden.step s k <> Raise e o.
Proof.
  unfold ascii_key. intros Hk e o.
  unfold InputHidden.step, InputHidden.store_letter. rewrite Hk.
  destruct (Ascii.eqb k ENTER); [discriminate|].
  destruct (Ascii.eqb k BACKSPACE);
    [destruct (InputHidden.written s); discriminate|].
  destruct (Ascii.eqb k SPECIAL); [discriminate|].
  destruct (in_IGNORE k); [destruct (after_SPECIAL _)|]; discriminate.
Qed.

Lemma hidden_run_output (keys : list key) :
  forall s out,
    output (run InputHidden.step s out keys) = out
    \/ output (run InputHidden.step s out keys) = out +++ NL.
Proof.
  induction keys as [|k ks IH]; intros s out; cbn [run].
  - left. reflexivity.
  - pose proof (hidden_step_silent s k) as H.
    destruct (InputHidden.step s k) as [s' o|r o|e o]; subst o; cbn [output].
    + rewrite append_empty_r. apply IH.
    + right. reflexivity.
    + left. apply append_empty_r.
Qed.

Lemma hidden_run_returns (keys : list key) :
  Forall ascii_key keys ->
  forall s out, exists typed,
    run InputHidden.step s out (keys ++ [ENTER]) = Returned typed (out +++ NL).
Proof.
  induction 1 as [|k ks Hk _ IH]; intros s out.
  - exists (Py.join_chars (InputHidden.written s)). reflexivity.
  - cbn [app run].
    pose proof (hidden_step_silent s k) as Ho.
    pose proof (hidden_step_no_raise s k Hk) as Hr.
    destruct (InputHidden.step s k) as [s' o|r o|e o]; subst o.
    + rewrite append_empty_r. apply IH.
    + eauto.
    + exfalso. eapply Hr. reflexivity.
Qed.

Lemma hidden_run_letters (keys : list key) :
  Forall letter keys ->
  forall w last out, after_SPECIAL last = false ->
    run InputHidden.step
      {| InputHidden.written := w; InputHidden.last_key := last |} out
      (keys ++ [ENTER])
    = Returned (Py.join_chars (w ++ keys)) (out +++ NL).
Proof.
  induction 1 as [|k ks Hk _ IH]; intros w last out Hl.
  - cbn [app run]. rewrite app_nil_r. reflexivity.
  - destruct Hk as (Hd & E1 & E2 & E3). unfold ascii_key in Hd.
    cbn [app run]. unfold InputHidden.step, InputHidden.store_letter.
    cbn [InputHidden.written InputHidden.last_key].
    rewrite E1, E2, E3, Hl, Hd.
    assert (Hk' : after_SPECIAL (Some k) = false) by exact E3.
    destruct (in_IGNORE k); rewrite append_empty_r, (IH _ _ _ Hk'), <- app_assoc;
      reflexivity.
Qed.

(** What [input_hidden] does on the keys that decode.  On every keyboard
    the terminal output is the prompt, followed by one newline once the
    function has returned, and nothing else.  For two keyboards of keys
    that decode (ASCII bytes: letters, Backspace, the prefix and the
    codes), each ended by Enter, both calls return and their outputs are
    the same string, the prompt and one newline; when the keys are
    letters the value returned is the typed text. *)
Theorem input_hidden_never_echoes (prompt : string) (keys1 keys2 : list key) :
  Forall ascii_key keys1 -> Forall ascii_key keys2 ->
  (exists typed1, InputHidden.input_hidden prompt (keys1 ++ [ENTER])
                  = Returned typed1 (prompt +++ NL))
  /\ (exists typed2, InputHidden.input_hidden prompt (keys2 ++ [ENTER])
                     = Returned typed2 (prompt +++ NL))
  /\ output (InputHidden.input_hidden prompt (keys1 ++ [ENTER]))
     = output (InputHidden.input_hidden prompt (keys2 ++ [ENTER]))
  /\ (Forall letter keys1 ->
      InputHidden.input_hidden prompt (keys1 ++ [ENTER])
      = Returned (Py.join_chars keys1) (prompt +++ NL))
  /\ (forall keys,
      output (InputHidden.input_hidden prompt keys) = prompt
      \/ output (InputHidden.input_hidden prompt keys) = prompt +++ NL).
Proof.
  intros H1 H2. unfold InputHidden.input_hidden.
  destruct (hidden_run_returns keys1 H1 InputHidden.init prompt) as [t1 E1].
  destruct (hidden_run_returns keys2 H2 InputHidden.init prompt) as [t2 E2].
  repeat split.
  - eauto.
  - eauto.
  - rewrite E1, E2. reflexivity.
  - intros Hl. apply (hidden_run_letters keys1 Hl [] None prompt). reflexivity.
  - intros keys. apply hidden_run_output.
Qed.

Lemma input_hidden_never_echoes_witness :
  InputHidden.input_hidden "Password: " (["a"; "b"]%char ++ [ENTER])
  = Returned "ab"%string ("Password: " +++ NL)
  /\ output (InputHidden.input_hidden "Password: " (["a"; "b"]%char ++ [ENTER]))
     = output (InputHidden.input_hidden "Password: "
                 (["x"; BACKSPACE; "y"; "z"]%char ++ [ENTER])).
Proof.
  assert (H1 : Forall letter ["a"; "b"]%char)
    by (repeat constructor).
  assert (H1' : Forall ascii_key ["a"; "b"]%char)
    by (repeat constructor).
  assert (H2 : Forall ascii_key ["x"; BACKSPACE; "y"; "z"]%char)
    by (repeat constructor).
  destruct (input_hidden_never_echoes "Password: " _ _ H1' H2)
    as (_ & _ & Hout & Hret & _).
  split; [exact (Hret H1) | exact Hout].
Defined.

Lemma hidden_step_undecodable (s : InputHidden.state) (k : key) :
  Py.decode k = None ->
  InputHidden.step s k = Raise Py.UnicodeDecodeError EmptyString.
Proof.
  destruct k as [[] [] [] [] [] [] [] []]; vm_compute; intros H;
    try discriminate H; reflexivity.
Qed.

Lemma hidden_step_continues (s : InputHidden.state) (k : key) :
  ascii_key k -> Ascii.eqb k ENTER = false ->
  exists s', InputHidden.step s k = Continue s' EmptyString.
Proof.
  intros Hk HE.
  pose proof (hidden_step_silent s k) as Ho.
  pose proof (hidden_step_no_raise s k Hk) as Hr.
  destruct (InputHidden.step s k) as [s' o|r o|e o] eqn:E.
  - subst o. eauto.
  - exfalso. unfold InputHidden.step in E. rewrite HE in E.
    destruct (Ascii.eqb k BACKSPACE);
      [destruct (InputHidden.written s); discriminate|].
    destruct (Ascii.eqb k SPECIAL); [discriminate|].
    unfold InputHidden.store_letter in E.
    destruct (in_IGNORE k); [destruct (after_SPECIAL _); [discriminate|]|];
      destruct (Py.decode k); discriminate.
  - exfalso. eapply Hr. reflexivity.
Qed.

(** C8 at a byte that does not decode.  When the keyboard delivers a byte
    from 0x80 up (the prefix 0xE0 of an arrow key, an accented letter)
    before Enter is pressed, after any keys that decode, the call does
    not return: [key.decode()] raises UnicodeDecodeError, whatever comes
    after that byte, Enter included, and the terminal output is the
    prompt alone, without the newline. *)
Theorem input_hidden_undecodable_key (prompt : string)
    (before : list key) (k : key) (rest : list key) :
  Forall ascii_key before -> ~ In ENTER before -> Py.decode k = None ->
  InputHidden.input_hidden prompt (before ++ k :: rest ++ [ENTER])
  = Raised Py.UnicodeDecodeError prompt.
Proof.
  intros Hb Hne Hk. unfold InputHidden.input_hidden.
  generalize InputHidden.init as s.
  induction Hb as [|b bs Hb _ IH]; intros s; cbn [app run].
  - rewrite (hidden_step_undecodable s k Hk). f_equal. apply append_empty_r.
  - assert (HE : Ascii.eqb b ENTER = false).
    { destruct (Ascii.eqb b ENTER) eqn:E; [|reflexivity].
      apply Ascii.eqb_eq in E. exfalso. apply Hne. left. exact E. }
    destruct (hidden_step_continues s b Hb HE) as [s' ->].
    rewrite append_empty_r. apply IH. intros Hin. apply Hne. right. exact Hin.
Qed.

Lemma input_hidden_undecodable_key_witness :
  InputHidden.input_hidden "Password: "
    (["a"; "b"]%char ++ "224"%char :: ["H"%char] ++ [ENTER])
  = Raised Py.UnicodeDecodeError "Password: ".
Proof.
  apply input_hidden_undecodable_key.
  - repeat constructor.
  - intros [H|[H|[]]]; discriminate H.
  - reflexivity.
Defined.

(* ------------------------------------------------------------------ *)
(** ** The registry of a display *)

Lemma slice_to_end {A} (r : list A) (k : Z) :
  0 <= k <= Py.llen r ->
  Py.slice r k (Py.llen r) = skipn (Z.to_nat k) r.
Proof.
  intros H. unfold Py.slice, Py.clip.
  pose proof (llen_nonneg r) as Hn.
  destruct (k <? 0) eqn:Ek; [apply Z.ltb_lt in Ek; lia|].
  destruct (Py.llen r <? 0) eqn:En; [apply Z.ltb_lt in En; lia|].
  rewrite !Z.min_l by lia.
  apply firstn_all2. rewrite length_skipn. unfold Py.llen in *. lia.
Qed.

Lemma pop_front {A} (r : list A) (x : A) :
  Py.pop (r ++ [x]) 0 = Some (tl (r ++ [x])).
Proof.
  unfold Py.pop. change (0 <? 0) with false. cbv iota.
  replace ((0 <=? 0) && (0 <? Py.llen (r ++ [x]))) with true.
  - destruct r; reflexivity.
  - symmetry. apply andb_true_iff. split; [reflexivity|].
    apply Z.ltb_lt. unfold Py.llen. rewrite length_app. simpl. lia.
Qed.

Section Regestry.
Context {Callable : Type}.

Lemma push_sequence (d : Display.IODisplay Callable) (l : list Display.atom) (flush : bool) :
  exists out,
    Display.push Callable d (Display.Sequence l) flush
    = Display.Ok Callable
        (Display.set_regestry Callable d
           (skipn (List.length l) (Display._regestry d ++ map Display.str l)))
        out.
Proof.
  unfold Display.push. rewrite slice_to_end.
  - unfold Py.llen. rewrite Nat2Z.id. destruct flush; eexists; reflexivity.
  - unfold Py.llen. rewrite length_app, length_map. lia.
Qed.

Lemma push_atom (d : Display.IODisplay Callable) (a : Display.atom) (flush : bool) :
  exists out,
    Display.push Callable d (Display.Atom a) flush
    = Display.Ok Callable
        (Display.set_regestry Callable d
           (tl (Display._regestry d ++ [Display.str a])))
        out.
Proof.
  unfold Display.push. rewrite pop_front.
  destruct flush; eexists; reflexivity.
Qed.

(** The branch of [push] and its test: the first branch is taken exactly
    by the objects that are [Iterable] and not [str]. *)
Lemma push_guard (o : Display.object) :
  Display.isinstance_Iterable o && negb (Display.isinstance_str o)
  = match o with
    | Display.Atom _ => false
    | Display.Sequence _ | Display.Stream _ => true
    end.
Proof. destruct o as [[s|n|b|]|l|l]; reflexivity. Qed.

(** Outside the sized objects: a stream has no length, and [push] raises
    TypeError with the registry already extended by its lines. *)
Lemma push_stream (d : Display.IODisplay Callable) (l : list Display.atom)
    (flush : bool) :
  Display.push Callable d (Display.Stream l) flush
  = Display.Err Callable Py.TypeError
      (Display.set_regestry Callable d (Display._regestry d ++ map Display.str l))
      (Display._clear_lines Callable d).
Proof. reflexivity. Qed.

Lemma after_sized_length (d : Display.IODisplay Callable) (o : op) :
  sized o ->
  Py.llen (Display._regestry d) = Z.max 0 (Display.lines d) ->
  Py.llen (Display._regestry (after d o)) = Z.max 0 (Display.lines (after d o))
  /\ Display.lines (after d o) = Display.lines d.
Proof.
  intros Hs Hd. destruct o as [[a|l|l] flush|flush]; cbn [after].
  - destruct (push_atom d a flush) as [out ->]. cbn. split; [|reflexivity].
    rewrite <- Hd. unfold Py.llen. f_equal.
    destruct (Display._regestry d); cbn; [reflexivity|].
    rewrite length_app. simpl. lia.
  - destruct (push_sequence d l flush) as [out ->]. cbn. split; [|reflexivity].
    rewrite <- Hd. unfold Py.llen. f_equal.
    rewrite length_skipn, length_app, length_map. lia.
  - destruct Hs.
  - unfold Display.clear. destruct flush; cbn; (split; [|reflexivity]);
      unfold Display.empty_regestry, Py.llen; rewrite repeat_length; lia.
Qed.

Lemma ops_sized_length (ops : list op) :
  Forall sized ops ->
  forall d : Display.IODisplay Callable,
    Py.llen (Display._regestry d) = Z.max 0 (Display.lines d) ->
    Py.llen (Display._regestry (fold_left after ops d)) = Z.max 0 (Display.lines d).
Proof.
  induction 1 as [|o ops Ho _ IH]; intros d Hd; cbn [fold_left]; [exact Hd|].
  destruct (after_sized_length d o Ho Hd) as [H1 H2].
  rewrite (IH _ H1). congruence.
Qed.

End Regestry.

(** The registry under the calls that push an object with a length.  A
    display built with capacity [n >= 0] keeps a registry of
    exactly [n] lines through every series of pushes of atoms or of
    sequences and of clears.  A push of a sequence of [k] lines leaves
    the old registry followed by the [k] lines, without its first [k]
    entries; a push of an atom leaves the old registry followed by the
    one line, without its first entry; a clear leaves [n] empty strings.
    With capacity 2, the pushes of x, y and z leave exactly y, z. *)
Theorem regestry_fixed_length (Callable : Type) (p : string) (n : Z)
    (dispatch : bool) (ops : list op) :
  0 <= n -> Forall sized ops ->
  Py.llen (Display._regestry
             (fold_left after ops (Display.__init__ Callable p n dispatch))) = n
  /\ (forall (d : Display.IODisplay Callable) l flush, exists out,
        Display.push Callable d (Display.Sequence l) flush
        = Display.Ok Callable
            (Display.set_regestry Callable d
               (skipn (List.length l)
                  (Display._regestry d ++ map Display.str l))) out)
  /\ (forall (d : Display.IODisplay Callable) a flush, exists out,
        Display.push Callable d (Display.Atom a) flush
        = Display.Ok Callable
            (Display.set_regestry Callable d
               (tl (Display._regestry d ++ [Display.str a]))) out)
  /\ (forall (d : Display.IODisplay Callable) flush,
        Display._regestry (fst (Display.clear Callable d flush))
        = repeat EmptyString (Z.to_nat (Display.lines d)))
  /\ Display._regestry
       (fold_left after
          [Push (Display.Atom (Display.AStr "x")) true;
           Push (Display.Atom (Display.AStr "y")) true;
           Push (Display.Atom (Display.AStr "z")) true]
          (Display.__init__ Callable p 2 dispatch))
     = ["y"; "z"]%string.
Proof.
  intros Hn Hops. repeat split.
  - rewrite (ops_sized_length ops Hops).
    + cbn. lia.
    + cbn. unfold Display.empty_regestry, Py.llen. rewrite repeat_length. lia.
  - intros d l flush. apply push_sequence.
  - intros d a flush. apply push_atom.
  - intros d flush. unfold Display.clear. destruct flush; reflexivity.
Qed.

Lemma regestry_fixed_length_witness :
  Py.llen (Display._regestry
             (fold_left after
                [Push (Display.Sequence [Display.AStr "a"; Display.AInt 7;
                                         Display.AStr "b"]) true;
                 Clear false;
                 Push (Display.Atom Display.ANone) false]
                (Display.__init__ unit "> " 2 true))) = 2.
Proof.
  refine (proj1 (regestry_fixed_length unit "> " 2 true _ _ _)).
  - lia.
  - repeat constructor.
Defined.

Lemma after_push_length {Callable : Type} (d : Display.IODisplay Callable)
    (o : op) :
  sized_push o ->
  Py.llen (Display._regestry (after d o)) = Py.llen (Display._regestry d).
Proof.
  intros Hs. destruct o as [[a|l|l] flush|flush]; cbn [after];
    try destruct Hs.
  - destruct (push_atom d a flush) as [out ->]. cbn. unfold Py.llen. f_equal.
    destruct (Display._regestry d); cbn; [reflexivity|].
    rewrite length_app. simpl. lia.
  - destruct (push_sequence d l flush) as [out ->]. cbn. unfold Py.llen. f_equal.
    rewrite length_skipn, length_app, length_map. lia.
Qed.

Lemma pushes_keep_length {Callable : Type} (ops : list op) :
  Forall sized_push ops ->
  forall d : Display.IODisplay Callable,
    Py.llen (Display._regestry (fold_left after ops d))
    = Py.llen (Display._regestry d).
Proof.
  induction 1 as [|o ops Ho _ IH]; intros d; cbn [fold_left]; [reflexivity|].
  rewrite IH. apply after_push_length. exact Ho.
Qed.

(** C2 at an iterable without a length.  [push] of a generator of [k]
    lines on a display of capacity [n] takes the branch of the
    iterables: the registry is extended by the [k] lines, then [len(o)]
    raises TypeError and nothing is cut from the front.  The registry
    holds [n + k] lines when the call is left, and it still does after
    any later pushes of atoms or of sequences: each of them removes as
    many lines as it adds. *)
Theorem push_generator_grows_regestry (Callable : Type) (p : string) (n : Z)
    (dispatch flush : bool) (l : list Display.atom) (later : list op) :
  0 <= n -> Forall sized_push later ->
  let d0 := Display.__init__ Callable p n dispatch in
  let d1 := Display.set_regestry Callable d0
              (Display._regestry d0 ++ map Display.str l) in
  Display.push Callable d0 (Display.Stream l) flush
  = Display.Err Callable Py.TypeError d1 (Display._clear_lines Callable d0)
  /\ after d0 (Push (Display.Stream l) flush) = d1
  /\ Py.llen (Display._regestry d1) = n + Py.llen l
  /\ Py.llen (Display._regestry (fold_left after later d1)) = n + Py.llen l.
Proof.
  intros Hn Hl d0 d1.
  assert (H1 : Py.llen (Display._regestry d1) = n + Py.llen l).
  { unfold d1, d0. cbn [Display._regestry Display.set_regestry Display.__init__].
    unfold Py.llen, Display.empty_regestry.
    rewrite length_app, length_map, repeat_length. lia. }
  split; [reflexivity|]. split; [reflexivity|]. split; [exact H1|].
  rewrite (pushes_keep_length later Hl). exact H1.
Qed.

Lemma push_generator_grows_regestry_witness :
  Py.llen (Display._regestry
             (fold_left after
                [Push (Display.Atom (Display.AStr "c")) true;
                 Push (Display.Sequence [Display.AStr "d"; Display.AStr "e"]) true]
                (after (Display.__init__ unit "> " 2 true)
                   (Push (Display.Stream [Display.AStr "a"; Display.AStr "b"])
                      true))))
  = 2 + Py.llen [Display.AStr "a"; Display.AStr "b"].
Proof.
  refine (proj2 (proj2 (proj2
            (push_generator_grows_regestry unit "> " 2 true true
               [Display.AStr "a"; Display.AStr "b"] _ _ _)))).
  - lia.
  - repeat constructor.
Defined.

(** C10. [push] of a string, empty or of any length, takes the branch of
    the atoms although a string is iterable: the registry becomes the old
    one followed by the one line [s], without its first entry, so its
    length is unchanged and the characters of [s] are not spread over
    slots.  With capacity 3, pushing the string ab leaves the lines
    empty, empty, ab, where pushing the sequence of a and b leaves
    empty, a, b. *)
Theorem push_string_is_one_line (Callable : Type)
    (d : Display.IODisplay Callable) (s : string) (flush : bool) :
  Display.isinstance_Iterable (Display.Atom (Display.AStr s)) = true
  /\ Display.isinstance_Iterable (Display.Atom (Display.AStr s))
     && negb (Display.isinstance_str (Display.Atom (Display.AStr s))) = false
  /\ (exists out,
        Display.push Callable d (Display.Atom (Display.AStr s)) flush
        = Display.Ok Callable
            (Display.set_regestry Callable d
               (tl (Display._regestry d ++ [s]))) out)
  /\ tl (Display._regestry d ++ [s])
     = match Display._regestry d with
       | [] => []
       | _ :: rest => rest ++ [s]
       end
  /\ List.length (tl (Display._regestry d ++ [s]))
     = List.length (Display._regestry d)
  /\ Display._regestry
       (after (Display.__init__ Callable EmptyString 3 true)
          (Push (Display.Atom (Display.AStr "ab")) flush))
     = [EmptyString; EmptyString; "ab"%string]
  /\ Display._regestry
       (after (Display.__init__ Callable EmptyString 3 true)
          (Push (Display.Sequence [Display.AStr "a"; Display.AStr "b"]) flush))
     = [EmptyString; "a"%string; "b"%string].
Proof.
  repeat split.
  - apply (push_atom d (Display.AStr s) flush).
  - destruct (Display._regestry d); reflexivity.
  - destruct (Display._regestry d); cbn; [reflexivity|].
    rewrite length_app. simpl. lia.
  - destruct flush; reflexivity.
  - destruct flush; reflexivity.
Qed.

(* ------------------------------------------------------------------ *)
(** ** Stopping a display *)

Lemma display_step_raise {Callable : Type}
    (call : Callable -> string -> Display.IODisplay Callable
            -> Display.IODisplay Callable * string)
    (s : Display.loop_state Callable) (k : key) (e : Py.exn) (o : string) :
  Display.cursor_ok Callable s ->
  Display.step Callable call s k = Raise e o ->
  e = Py.UnicodeDecodeError /\ Py.decode k = None.
Proof.
  unfold Display.cursor_ok. intros Hc H.
  assert (Hw : Display.write_letter Callable (Display.disp s)
                 (Display.curr s) k = Raise e o ->
               e = Py.UnicodeDecodeError /\ Py.decode k = None).
  { unfold Display.write_letter. destruct (Py.decode k); [discriminate|].
    intros E. injection E as <- _. auto. }
  unfold Display.step in H.
  destruct (Ascii.eqb k ENTER).
  { destruct (Display.get Callable (Display.disp s) _) as [[str d1] o1].
    destruct (Display.callback d1) as [f|]; [destruct (call f str d1)|];
      discriminate. }
  destruct (Ascii.eqb k RIGHT && after_SPECIAL (Display.last_key s));
    [destruct (_ <? _); discriminate|].
  destruct (Ascii.eqb k LEFT && after_SPECIAL (Display.last_key s));
    [destruct (_ >? _); discriminate|].
  destruct (Ascii.eqb k BACKSPACE).
  { destruct (Display._written (Display.disp s)) as [|a w] eqn:Ew; [discriminate|].
    destruct (Display.curr s <=? 0) eqn:E; [discriminate|].
    apply Z.leb_gt in E.
    destruct (pop_in_range (a :: w) (Z.max 0 (Display.curr s - 1)))
      as [w' [Hp _]]; [lia|].
    rewrite Hp in H. discriminate. }
  destruct (Ascii.eqb k SPECIAL); [discriminate|].
  destruct (in_IGNORE k); [|auto].
  destruct (after_SPECIAL (Display.last_key s)); [discriminate|auto].
Qed.

Section Stop.
Context {Callable : Type}.
Variable call : Callable -> string -> Display.IODisplay Callable
                -> Display.IODisplay Callable * string.

(** The callbacks leave the running flag as they find it. *)
Hypothesis call_keeps_flag :
  forall f str d, Display._running (fst (call f str d)) = Display._running d.

Lemma loop_flag_down (s : Display.loop_state Callable) (out : string)
    (keys : list key) :
  Display._running (Display.disp s) = false ->
  Display.loop Callable call s out keys = Display.Left_loop Callable s out.
Proof. intros H. destruct keys; cbn [Display.loop]; rewrite H; reflexivity. Qed.

Lemma display_step_running (s s' : Display.loop_state Callable) (k : key)
    (o : string) :
  Display.step Callable call s k = Continue s' o ->
  Display._running (Display.disp s') = Display._running (Display.disp s).
Proof.
  assert (Hw : Display.write_letter Callable (Display.disp s)
                 (Display.curr s) k = Continue s' o ->
               Display._running (Display.disp s')
               = Display._running (Display.disp s)).
  { unfold Display.write_letter. destruct (Py.decode k); [|discriminate].
    intros E. injection E as <- _. reflexivity. }
  unfold Display.step.
  destruct (Ascii.eqb k ENTER).
  { destruct (Display.get Callable (Display.disp s) _) as [[str d1] o1] eqn:Eg.
    assert (Hd1 : Display._running d1 = Display._running (Display.disp s)).
    { unfold Display.get in Eg.
      destruct (Display.dispatch_on_enter _);
        [destruct (Display._written _)|]; injection Eg as _ <- _; reflexivity. }
    destruct (Display.callback d1) as [f|].
    - pose proof (call_keeps_flag f str d1) as Hf.
      destruct (call f str d1) as [d' o']. cbn [fst] in Hf.
      intros E. injection E as <- _. cbn [Display.disp]. congruence.
    - intros E. injection E as <- _. exact Hd1. }
  destruct (Ascii.eqb k RIGHT && after_SPECIAL (Display.last_key s)).
  { destruct (_ <? _); intros E; injection E as <- _; reflexivity. }
  destruct (Ascii.eqb k LEFT && after_SPECIAL (Display.last_key s)).
  { destruct (_ >? _); intros E; injection E as <- _; reflexivity. }
  destruct (Ascii.eqb k BACKSPACE).
  { destruct (Display._written (Display.disp s)) eqn:Ew.
    { intros E; injection E as <- _; reflexivity. }
    destruct (_ <=? _); [intros E; injection E as <- _; reflexivity|].
    destruct (Py.pop _ _); [|discriminate].
    intros E; injection E as <- _; reflexivity. }
  destruct (Ascii.eqb k SPECIAL); [intros E; injection E as <- _; reflexivity|].
  destruct (in_IGNORE k); [|exact Hw].
  destruct (after_SPECIAL _); [intros E; injection E as <- _; reflexivity | exact Hw].
Qed.

Lemma display_step_undecodable (s : Display.loop_state Callable) (k : key) :
  Py.decode k = None ->
  Display.step Callable call s k = Raise Py.UnicodeDecodeError EmptyString.
Proof.
  intros H. destruct k as [[] [] [] [] [] [] [] []]; vm_compute in H;
    try discriminate H; reflexivity.
Qed.

(** On keys that decode, a loop whose flag is up goes on. *)
Lemma loop_on_ascii_keys (keys rest : list key) :
  Forall ascii_key keys ->
  forall s out,
    Display._running (Display.disp s) = true -> Display.cursor_ok Callable s ->
    exists s' out',
      Display._running (Display.disp s') = true
      /\ Display.cursor_ok Callable s'
      /\ Display.loop Callable call s out (keys ++ rest)
         = Display.loop Callable call s' out' rest.
Proof.
  induction 1 as [|k ks Hk _ IH]; intros s out Hr Hc.
  - exists s, out. auto.
  - cbn [app Display.loop]. rewrite Hr. cbn [negb].
    destruct (Display.step Callable call s k) as [s1 o|r o|e o] eqn:E.
    + apply IH.
      * rewrite (display_step_running s s1 k o E). exact Hr.
      * exact (display_step_cursor call _ _ _ _ Hc E).
    + destruct r.
    + destruct (display_step_raise call s k e o Hc E) as [_ Hd].
      unfold ascii_key in Hk. congruence.
Qed.

(** A worker that starts [_start] on keys that decode, whatever the flag
    was: its loop runs with the flag up. *)
Lemma start_on_ascii_keys (d : Display.IODisplay Callable)
    (keys rest : list key) :
  Forall ascii_key keys ->
  exists s out,
    Display._running (Display.disp s) = true
    /\ Display._start Callable call d (keys ++ rest)
       = Display.loop Callable call s out rest.
Proof.
  intros Hk. unfold Display._start.
  destruct (loop_on_ascii_keys keys rest Hk
              {| Display.disp := Display.set_running Callable d true;
                 Display.curr := 0; Display.last_key := None |}
              (Display._render_lines Callable
                 (Display.set_running Callable d true) true))
    as (s & out & Hr & _ & E).
  - reflexivity.
  - unfold Display.cursor_ok. cbn.
    pose proof (llen_nonneg (Display._written d)). lia.
  - exists s, out. auto.
Qed.

Lemma stop_no_worker (d : Display.IODisplay Callable) (dispatch : bool) :
  Display._thread d = None ->
  Display.stop Callable call d dispatch
  = Some (Display.set_running Callable d false,
          if dispatch
          then Display._clear_lines Callable (Display.set_running Callable d false)
          else EmptyString).
Proof.
  intros Ht. unfold Display.stop.
  change (Display._thread (Display.set_running Callable d false))
    with (Display._thread d).
  rewrite Ht. destruct dispatch; reflexivity.
Qed.

Lemma stop_joined (d d' : Display.IODisplay Callable) (t : Display.Thread)
    (out : string) (dispatch : bool) :
  Display._thread d = Some t ->
  Display.join Callable call (Display.set_running Callable d false) t
  = Some (d', out) ->
  Display.stop Callable call d dispatch
  = Some (Display.set_thread Callable d' None,
          if dispatch
          then out +++ Display._clear_lines Callable
                         (Display.set_thread Callable d' None)
          else out).
Proof.
  intros Ht Hj. unfold Display.stop.
  change (Display._thread (Display.set_running Callable d false))
    with (Display._thread d).
  rewrite Ht, Hj. destruct dispatch; reflexivity.
Qed.

Lemma stop_not_joined (d : Display.IODisplay Callable) (t : Display.Thread)
    (dispatch : bool) :
  Display._thread d = Some t ->
  Display.join Callable call (Display.set_running Callable d false) t = None ->
  Display.stop Callable call d dispatch = None.
Proof.
  intros Ht Hj. unfold Display.stop.
  change (Display._thread (Display.set_running Callable d false))
    with (Display._thread d).
  rewrite Ht, Hj. reflexivity.
Qed.

Lemma set_running_same (d : Display.IODisplay Callable) :
  Display._running d = false -> Display.set_running Callable d false = d.
Proof. destruct d. cbn. intros ->. reflexivity. Qed.

(** A worker that has run the first statement of [_start] ends once the
    flag is down: at its next test, or by an exception of the iteration
    it is in. *)
Lemma resume_flag_down (d : Display.IODisplay Callable) (t : Display.Thread) :
  Display._running d = false -> Display.t_pc t <> Display.Created ->
  exists s out,
    Display._running (Display.disp s) = false
    /\ (Display.resume Callable call d t = Display.Left_loop Callable s out
        \/ exists e, Display.resume Callable call d t
                     = Display.Died Callable e s out).
Proof.
  intros Hd Hpc. unfold Display.resume.
  destruct (Display.t_pc t) as [| | | | |e]; [congruence| | | | |].
  - eexists. eexists. split; [|left; apply loop_flag_down; exact Hd]. exact Hd.
  - eexists. eexists. split; [|left; apply loop_flag_down; exact Hd]. exact Hd.
  - destruct (Display.t_keys t) as [|k ks].
    + eexists. eexists. split; [|left; apply loop_flag_down; exact Hd]. exact Hd.
    + destruct (Display.step Callable call _ k) as [s' o|r o|e o] eqn:E.
      * pose proof (display_step_running _ _ _ _ E) as Hr. cbn [Display.disp] in Hr.
        exists s', o. split; [congruence|]. left. apply loop_flag_down. congruence.
      * destruct r.
      * eexists. eexists. split; [|right; eexists; reflexivity]. exact Hd.
  - eexists. eexists. split; [|left; reflexivity]. exact Hd.
  - eexists. eexists. split; [|right; eexists; reflexivity]. exact Hd.
Qed.

(** Once the worker has run the first statement of [_start], or when
    there is no worker, [stop()] returns with the flag down and no
    thread kept, and a further [stop()] returns the same instance. *)
Lemma stop_once_worker_begun (d : Display.IODisplay Callable)
    (dispatch : bool) :
  match Display._thread d with
  | Some t => Display.t_pc t <> Display.Created
  | None => True
  end ->
  exists d1 out1,
    Display.stop Callable call d dispatch = Some (d1, out1)
    /\ Display._running d1 = false
    /\ Display._thread d1 = None
    /\ forall dispatch2,
         Display.stop Callable call d1 dispatch2
         = Some (d1, if dispatch2 then Display._clear_lines Callable d1
                     else EmptyString).
Proof.
  intros Hpc.
  assert (Hagain : forall d1 : Display.IODisplay Callable,
            Display._running d1 = false -> Display._thread d1 = None ->
            forall dispatch2,
              Display.stop Callable call d1 dispatch2
              = Some (d1, if dispatch2 then Display._clear_lines Callable d1
                          else EmptyString)).
  { intros d1 Hr Ht dispatch2. rewrite (stop_no_worker d1 dispatch2 Ht).
    rewrite (set_running_same d1 Hr). reflexivity. }
  destruct (Display._thread d) as [t|] eqn:Et.
  - destruct (resume_flag_down (Display.set_running Callable d false) t
                eq_refl Hpc) as (s & out & Hr & Hres).
    assert (Hj : Display.join Callable call
                   (Display.set_running Callable d false) t
                 = Some (Display.disp s, out)).
    { unfold Display.join. destruct Hres as [->|[e ->]]; reflexivity. }
    exists (Display.set_thread Callable (Display.disp s) None).
    exists (if dispatch
            then out +++ Display._clear_lines Callable
                           (Display.set_thread Callable (Display.disp s) None)
            else out).
    split; [|split; [exact Hr | split; [reflexivity|]]].
    + unfold Display.stop.
      change (Display._thread (Display.set_running Callable d false))
        with (Display._thread d).
      rewrite Et, Hj. destruct dispatch; reflexivity.
    + apply Hagain; [exact Hr | reflexivity].
  - exists (Display.set_running Callable d false). eexists.
    split; [apply stop_no_worker; exact Et|].
    split; [reflexivity|]. split; [exact Et|].
    apply Hagain; [reflexivity | exact Et].
Qed.

End Stop.

(** C7 at a [stop()] that runs before the worker's first statement.  A
    display is started in the background and [stop()] lowers the flag
    before the worker has run [self._running = True]: [start] itself
    leaves the flag alone.  The worker then raises the flag and enters
    its loop with nobody left to lower it.  While the keys decode (and
    the callbacks leave the flag alone) the worker never leaves the loop
    and [stop()] never returns.  When a byte that does not decode comes,
    the worker dies of UnicodeDecodeError and [stop()] returns with the
    flag up, the worker having seen no stop signal; a second [stop()]
    then lowers the flag, so the instance after two calls is not the
    instance after one. *)
Theorem stop_before_worker_begins (Callable : Type)
    (call : Callable -> string -> Display.IODisplay Callable
            -> Display.IODisplay Callable * string)
    (d0 : Display.IODisplay Callable) (cb : option Callable)
    (keys : list key) (dispatch : bool) :
  (forall f str d, Display._running (fst (call f str d)) = Display._running d) ->
  Forall ascii_key keys ->
  (exists d,
      Display.start Callable call d0 true cb keys = Display.Spawned Callable d
      /\ Display.stop Callable call d dispatch = None)
  /\ (forall k rest, Py.decode k = None ->
      exists d d1 out1 d2 out2,
        Display.start Callable call d0 true cb (keys ++ k :: rest)
        = Display.Spawned Callable d
        /\ Display.stop Callable call d dispatch = Some (d1, out1)
        /\ Display._running d1 = true
        /\ Display._thread d1 = None
        /\ Display.stop Callable call d1 dispatch = Some (d2, out2)
        /\ Display._running d2 = false).
Proof.
  intros Hcall Hkeys. split.
  - eexists. split; [reflexivity|].
    eapply stop_not_joined; [reflexivity|].
    unfold Display.join, Display.resume. cbn [Display.t_pc Display.t_keys].
    destruct (start_on_ascii_keys call Hcall
                (Display.set_running Callable
                   (Display.set_thread Callable
                      (Display.set_callback Callable d0 cb)
                      (Some {| Display.t_pc := Display.Created;
                               Display.t_curr := 0;
                               Display.t_last_key := None;
                               Display.t_keys := keys |})) false)
                keys [] Hkeys) as (s & out & Hr & E).
    rewrite app_nil_r in E. rewrite E.
    cbn [Display.loop]. rewrite Hr. reflexivity.
  - intros k rest Hk.
    destruct (start_on_ascii_keys call Hcall
                (Display.set_running Callable
                   (Display.set_thread Callable
                      (Display.set_callback Callable d0 cb)
                      (Some {| Display.t_pc := Display.Created;
                               Display.t_curr := 0;
                               Display.t_last_key := None;
                               Display.t_keys := keys ++ k :: rest |})) false)
                keys (k :: rest) Hkeys) as (s & out & Hr & E).
    eexists. exists (Display.set_thread Callable (Display.disp s) None).
    eexists. exists (Display.set_running Callable
                       (Display.set_thread Callable (Display.disp s) None) false).
    eexists.
    split; [reflexivity|]. split; [|split; [exact Hr | split; [reflexivity|]]].
    + eapply stop_joined; [reflexivity|].
      unfold Display.join, Display.resume. cbn [Display.t_pc Display.t_keys].
      rewrite E. cbn [Display.loop]. rewrite Hr. cbn [negb].
      rewrite (display_step_undecodable call s k Hk). reflexivity.
    + split; [apply stop_no_worker; reflexivity | reflexivity].
Qed.

Lemma stop_before_worker_begins_witness :
  exists d,
    Display.start unit (fun _ _ d => (d, EmptyString))
      (Display.__init__ unit "> " 2 true) true None ["h"; "i"; ENTER]%char
    = Display.Spawned unit d
    /\ Display.stop unit (fun _ _ d => (d, EmptyString)) d true = None.
Proof.
  refine (proj1 (stop_before_worker_begins unit (fun _ _ d => (d, EmptyString))
                   (Display.__init__ unit "> " 2 true) None
                   ["h"; "i"; ENTER]%char true _ _)).
  - reflexivity.
  - repeat constructor.
Defined.

(* ------------------------------------------------------------------ *)
(** ** The redraw protocol *)

Lemma write_app (s1 s2 : string) (t : Terminal.term) :
  Terminal.write t (s1 +++ s2) = Terminal.write (Terminal.write t s1) s2.
Proof. revert t. induction s1 as [|c s1 IH]; intros t; simpl; auto. Qed.

Lemma effect_seq (s1 s2 : string) (d1 d2 lo hi : Z) :
  effect s1 d1 lo hi -> effect s2 d2 (lo - d1) (hi - d1) ->
  effect (s1 +++ s2) (d1 + d2) lo hi.
Proof.
  intros H1 H2 t Ht. rewrite write_app.
  destruct (H1 t Ht) as (Hm1 & Hr1 & q1 & Hq1 & Hall1).
  destruct (H2 _ Hm1) as (Hm2 & Hr2 & q2 & Hq2 & Hall2).
  split; [exact Hm2|]. split; [lia|].
  exists (q2 ++ q1). split.
  - rewrite Hq2, Hq1, app_assoc. reflexivity.
  - apply Forall_app. split; [|exact Hall1].
    eapply Forall_impl; [|exact Hall2]. cbv beta. intros x Hx. lia.
Qed.

Lemma effect_empty (lo hi : Z) : effect EmptyString 0 lo hi.
Proof.
  intros t Ht. cbn. repeat split; [exact Ht | lia |].
  exists []. split; [reflexivity | constructor].
Qed.

Ltac control_effect :=
  let t := fresh "t" in let Ht := fresh "Ht" in
  intros t Ht; destruct t as [r c m p]; cbn in Ht; subst m; cbn;
  repeat split; try lia; exists []; split; [reflexivity | constructor].

Lemma effect_up (lo hi : Z) : effect ANSI_UP (-1) lo hi.
Proof. control_effect. Qed.

Lemma effect_down (lo hi : Z) : effect ANSI_DOWN 1 lo hi.
Proof. control_effect. Qed.

Lemma effect_cr (lo hi : Z) : effect CR 0 lo hi.
Proof. control_effect. Qed.

Lemma effect_nl (lo hi : Z) : effect NL 1 lo hi.
Proof. control_effect. Qed.

Lemma plain_char_not_control (c : ascii) :
  Terminal.plain_char c = true ->
  Ascii.eqb c ESC = false /\ Ascii.eqb c "010" = false
  /\ Ascii.eqb c "013" = false.
Proof.
  destruct c as [[] [] [] [] [] [] [] []]; vm_compute; intros H;
    try discriminate H; repeat split.
Qed.

Lemma effect_plain (s : string) (lo hi : Z) :
  lo <= 0 <= hi -> Terminal.plain s = true -> effect s 0 lo hi.
Proof.
  intros Hb. induction s as [|c s IH]; intros Hs.
  - apply effect_empty.
  - cbn in Hs. apply andb_true_iff in Hs. destruct Hs as [Hc Hs].
    destruct (plain_char_not_control c Hc) as (H1 & H2 & H3).
    intros t Ht. destruct t as [r col m p]. cbn in Ht. subst m.
    cbn [Terminal.write]. unfold Terminal.feed.
    cbn [Terminal.mode Terminal.row Terminal.col Terminal.printed].
    rewrite H1, H2, H3, Hc.
    destruct (IH Hs {| Terminal.row := r; Terminal.col := col + 1;
                       Terminal.mode := Terminal.Ground;
                       Terminal.printed := r :: p |} eq_refl)
      as (Hm & Hr & q & Hq & Hall).
    cbn [Terminal.row Terminal.printed] in *.
    split; [exact Hm|]. split; [exact Hr|].
    exists (q ++ [r]). split.
    + rewrite Hq, <- app_assoc. reflexivity.
    + apply Forall_app. split; [exact Hall|]. constructor; [lia|constructor].
Qed.

Lemma plain_spaces (n : nat) : Terminal.plain (Py.repeat_nat SP n) = true.
Proof. induction n as [|n IH]; [reflexivity|]. cbn. exact IH. Qed.

Lemma effect_ups (n : nat) (lo hi : Z) :
  effect (Py.repeat_nat ANSI_UP n) (- Z.of_nat n) lo hi.
Proof.
  revert lo hi. induction n as [|n IH]; intros lo hi.
  - apply effect_empty.
  - cbn [Py.repeat_nat].
    replace (- Z.of_nat (S n)) with (-1 + - Z.of_nat n) by lia.
    apply effect_seq; [apply effect_up | apply IH].
Qed.

Lemma clear_lines_buffer (reg : list string) (buffer : string) :
  fold_left
    (fun buffer element =>
       (buffer +++ (Py.mul SP (Py.len element) +++ CR)) +++ ANSI_DOWN)
    reg buffer
  = buffer +++ erase_rows reg.
Proof.
  revert buffer. induction reg as [|e reg IH]; intros buffer; cbn [fold_left erase_rows fold_right].
  - symmetry. apply append_empty_r.
  - rewrite IH. fold (erase_rows reg). rewrite !append_assoc. reflexivity.
Qed.

Lemma effect_erase_rows (reg : list string) :
  forall lo hi, lo <= 0 -> Z.of_nat (List.length reg) <= hi ->
    effect (erase_rows reg) (Z.of_nat (List.length reg)) lo hi.
Proof.
  induction reg as [|e reg IH]; intros lo hi Hlo Hhi.
  - apply effect_empty.
  - cbn [erase_rows fold_right]. fold (erase_rows reg).
    cbn [List.length] in *.
    replace (Z.of_nat (S (List.length reg)))
      with (((0 + 0) + 1) + Z.of_nat (List.length reg)) by lia.
    apply effect_seq; [apply effect_seq; [apply effect_seq|]|].
    + apply effect_plain; [lia|]. apply plain_spaces.
    + apply effect_cr.
    + apply effect_down.
    + apply IH; lia.
Qed.

Lemma plain_append (a b : string) :
  Terminal.plain a = true -> Terminal.plain b = true ->
  Terminal.plain (a +++ b) = true.
Proof.
  intros Ha Hb. induction a as [|c a IH]; [exact Hb|].
  cbn in *. apply andb_true_iff in Ha. destruct Ha as [Hc Ha].
  rewrite Hc, (IH Ha). reflexivity.
Qed.

Lemma effect_joined_lines (reg : list string) (last : string) :
  Forall (fun l => Terminal.plain l = true) reg ->
  Terminal.plain last = true ->
  forall lo hi, lo <= 0 -> Z.of_nat (List.length reg) <= hi ->
    effect (String.concat NL (reg ++ [last])) (Z.of_nat (List.length reg)) lo hi.
Proof.
  intros Hreg Hlast. induction Hreg as [|x reg Hx _ IH]; intros lo hi Hlo Hhi.
  - cbn. apply effect_plain; [cbn in Hhi; lia | exact Hlast].
  - assert (E : String.concat NL ((x :: reg) ++ [last])
                = x +++ NL +++ String.concat NL (reg ++ [last])).
    { cbn [app String.concat]. destruct (reg ++ [last]) eqn:El; [|reflexivity].
      destruct reg; discriminate. }
    rewrite E. cbn [List.length] in *.
    replace (Z.of_nat (S (List.length reg)))
      with (0 + (1 + Z.of_nat (List.length reg))) by lia.
    apply effect_seq; [apply effect_plain; [lia | exact Hx]|].
    apply effect_seq; [apply effect_nl|].
    apply IH; lia.
Qed.

(** The redraw of a tidy display: the cursor ends on the row it started
    on, and printing happens only on the [lines] rows above it and on
    that row. *)
Lemma redraw_tidy {C} (d : Display.IODisplay C) :
  tidy d -> effect (redraw d) 0 (- Display.lines d) 0.
Proof.
  intros (Hlen & Hreg & Hp & Hw).
  unfold redraw, Display._clear_lines, Display._render_lines, Display.get.
  rewrite clear_lines_buffer.
  unfold Py.mul. rewrite <- Hlen. unfold Py.llen. rewrite Nat2Z.id.
  set (n := Z.of_nat (List.length (Display._regestry d))).
  replace 0 with (((- n + 0) + n) + ((- n + 0) + n)) at 1 by lia.
  apply effect_seq.
  - apply effect_seq; [apply effect_seq|].
    + apply effect_ups.
    + apply effect_cr.
    + apply effect_erase_rows; lia.
  - apply effect_seq; [apply effect_seq|].
    + apply effect_ups.
    + apply effect_cr.
    + apply effect_joined_lines; try lia; [exact Hreg|].
      apply plain_append; assumption.
Qed.

(** C9 at a display that holds a line break.  After [push] of the string
    a, line feed, b on a display of capacity 1 with the prompt [> ], the
    redraw started on row 0 (the registry row is -1, the prompt row 0)
    ends with the cursor on row 1 and has printed on row 1, below the
    prompt row. *)
Theorem redraw_drifts_on_line_break :
  Display._regestry broken_line = [("a" +++ NL +++ "b")%string]
  /\ Terminal.row (Terminal.write (Terminal.at_ 0 0) (redraw broken_line)) = 1
  /\ In 1 (Terminal.printed
             (Terminal.write (Terminal.at_ 0 0) (redraw broken_line))).
Proof. vm_compute. repeat split. auto. Qed.

(* ------------------------------------------------------------------ *)
(** ** The trace and the outcome of a loop *)

Lemma run_polling_in_trace {S R} (step : S -> key -> step_result S R)
    (keys : list key) :
  forall s out s' out',
    run step s out keys = Polling s' out' -> In s' (trace step s keys).
Proof.
  induction keys as [|k ks IH]; intros s out s' out' H; cbn [run trace] in *.
  - injection H as <- _. left. reflexivity.
  - right. destruct (step s k) as [s1 o| |]; try discriminate.
    eapply IH. exact H.
Qed.

Lemma input_write_polling_cursor (prompt edit : string) (keys : list key)
    (s : InputWrite.state) (out : string) :
  InputWrite.input_write prompt edit keys = Polling s out ->
  InputWrite.cursor_ok s.
Proof.
  intros H. apply run_polling_in_trace in H.
  assert (Hall : Forall InputWrite.cursor_ok
                   (trace InputWrite.step (InputWrite.init edit) keys)).
  { apply trace_invariant.
    - intros s0 k s1 o. apply input_write_step_cursor.
    - unfold InputWrite.cursor_ok, InputWrite.init; simpl.
      rewrite chars_length. unfold Py.len. lia. }
  rewrite Forall_forall in Hall. apply Hall. exact H.
Qed.

(* ------------------------------------------------------------------ *)
(** ** Examples *)

(** Typing a, b, Backspace, Enter returns the string a. *)
Example input_write_round_trip :
  exists out,
    InputWrite.input_write EmptyString EmptyString
      ["a"; "b"; BACKSPACE; ENTER]%char
    = Returned "a"%string out.
Proof. eexists. vm_compute. reflexivity. Qed.

(** Editing in the middle: with the text ab, Left (prefix then K) and x
    give axb. *)
Example input_write_edit_in_place :
  exists out,
    InputWrite.input_write "? " "ab" [SPECIAL; LEFT; "x"%char; ENTER]
    = Returned "axb"%string out.
Proof. eexists. vm_compute. reflexivity. Qed.

(** A display whose worker stands at the test of its loop, with keys
    still to come, is stopped: the call returns, no worker is kept, the
    flag is down and the keys were not read. *)
Example stop_at_the_test :
  match Display.stop unit (fun _ _ d => (d, EmptyString))
          (Display.set_thread unit
             (Display.set_running unit (Display.__init__ unit "> " 2 true) true)
             (Some {| Display.t_pc := Display.At_test; Display.t_curr := 0;
                      Display.t_last_key := None;
                      Display.t_keys := ["h"; "i"]%char |}))
          false with
  | Some (d, out) =>
      Display._thread d = None /\ Display._running d = false
      /\ Display._written d = [] /\ out = EmptyString
  | None => False
  end.
Proof. vm_compute. repeat split. Qed.

(* ================================================================== *)
(** * Further properties *)

(** ** Invariants of a loop that is still polling *)

Lemma run_polling_invariant {S R} (step : S -> key -> step_result S R)
    (P : S -> Prop) :
  (forall s k s' o, P s -> step s k = Continue s' o -> P s') ->
  forall keys s out s' out',
    P s -> run step s out keys = Polling s' out' -> P s'.
Proof.
  intros Hstep keys. induction keys as [|k ks IH]; intros s out s' out' Hs H;
    cbn [run] in H.
  - injection H as <- _. exact Hs.
  - destruct (step s k) as [s1 o|r o|e o] eqn:E; try discriminate.
    eapply IH; [|exact H]. eapply Hstep; eauto.
Qed.

(* ------------------------------------------------------------------ *)
(** ** More on the selection menu *)

Lemma index_some_in {A} (l : list A) (i : Z) (x : A) :
  Py.index l i = Some x -> In x l.
Proof.
  unfold Py.index. destruct (_ && _); [|discriminate].
  apply nth_error_In.
Qed.

Lemma selection_step_down (m : Selection.menu) (i : Z) :
  index_ok m i ->
  exists out, Selection.step m i DOWN = Continue (down_target m i) out.
Proof.
  unfold index_ok, down_target. intros Hi.
  set (n := Selection.n_options m) in *.
  assert (Hopt : forall j, 0 <= j < n ->
            exists o, Py.index (Selection.options m) j = Some o)
    by (intros j Hj; apply index_in_range; exact Hj).
  destruct (Hopt i Hi) as [oi Hoi].
  unfold Selection.step, Selection.with_option.
  change (Ascii.eqb DOWN ENTER) with false.
  change (Ascii.eqb DOWN DOWN) with true. cbv iota.
  rewrite Hoi. fold n.
  destruct (i <? n - 1) eqn:Elast.
  - apply Z.ltb_lt in Elast. rewrite Z.min_l by lia.
    replace (i + 1 =? i) with false by (symmetry; apply Z.eqb_neq; lia).
    destruct (Hopt (i + 1)) as [o Ho]; [lia|]. rewrite Ho. eauto.
  - apply Z.ltb_ge in Elast. rewrite Z.min_r by lia.
    replace (n - 1 =? i) with true by (symmetry; apply Z.eqb_eq; lia).
    destruct (Selection.wrap m); simpl andb.
    + destruct (n >? 1) eqn:En.
      * destruct (Hopt 0) as [o Ho]; [lia|]. rewrite Ho. eauto.
      * assert (n <= 1) by (rewrite Z.gtb_ltb in En; apply Z.ltb_ge in En; lia).
        replace (n - 1) with 0 by lia.
        destruct (Hopt 0) as [o Ho]; [lia|]. rewrite Ho. eauto.
    + replace (n - 1) with i by lia. rewrite Hoi. eauto.
Qed.

Lemma selection_step_up (m : Selection.menu) (i : Z) :
  index_ok m i ->
  exists out, Selection.step m i UP = Continue (up_target m i) out.
Proof.
  unfold index_ok, up_target. intros Hi.
  set (n := Selection.n_options m) in *.
  assert (Hopt : forall j, 0 <= j < n ->
            exists o, Py.index (Selection.options m) j = Some o)
    by (intros j Hj; apply index_in_range; exact Hj).
  destruct (Hopt i Hi) as [oi Hoi].
  unfold Selection.step, Selection.with_option.
  change (Ascii.eqb UP ENTER) with false.
  change (Ascii.eqb UP DOWN) with false.
  change (Ascii.eqb UP UP) with true. cbv iota.
  rewrite Hoi. fold n.
  destruct (0 <? i) eqn:Efirst.
  - apply Z.ltb_lt in Efirst. rewrite Z.max_l by lia.
    replace (i - 1 =? i) with false by (symmetry; apply Z.eqb_neq; lia).
    destruct (Hopt (i - 1)) as [o Ho]; [lia|]. rewrite Ho. eauto.
  - apply Z.ltb_ge in Efirst. rewrite Z.max_r by lia.
    replace (0 =? i) with true by (symmetry; apply Z.eqb_eq; lia).
    destruct (Selection.wrap m); simpl andb.
    + destruct (n >? 1) eqn:En.
      * destruct (Hopt (n - 1)) as [o Ho]; [lia|]. rewrite Ho. eauto.
      * assert (n <= 1) by (rewrite Z.gtb_ltb in En; apply Z.ltb_ge in En; lia).
        replace (n - 1) with 0 by lia.
        destruct (Hopt 0) as [o Ho]; [lia|]. rewrite Ho. eauto.
    + replace 0 with i by lia. rewrite Hoi. eauto.
Qed.

Lemma down_target_ok (m : Selection.menu) (i : Z) :
  index_ok m i -> index_ok m (down_target m i).
Proof.
  unfold index_ok, down_target. intros H.
  destruct (i <? Selection.n_options m - 1) eqn:E;
    [apply Z.ltb_lt in E; lia|].
  destruct (Selection.wrap m); lia.
Qed.

Lemma up_target_ok (m : Selection.menu) (i : Z) :
  index_ok m i -> index_ok m (up_target m i).
Proof.
  unfold index_ok, up_target. intros H.
  destruct (0 <? i) eqn:E; [apply Z.ltb_lt in E; lia|].
  destruct (Selection.wrap m); lia.
Qed.

Lemma selection_step_other (m : Selection.menu) (i : Z) (k : key) :
  menu_key k = false -> Selection.step m i k = Continue i EmptyString.
Proof.
  unfold menu_key. intros H.
  apply orb_false_elim in H. destruct H as [H H3].
  apply orb_false_elim in H. destruct H as [H1 H2].
  unfold Selection.step. rewrite H1, H2, H3. reflexivity.
Qed.

(** What a key does at a valid index, by the three kinds of keys. *)
Lemma selection_step_kinds (m : Selection.menu) (i : Z) (k : key) :
  index_ok m i ->
  (k = ENTER /\ exists o, Py.index (Selection.options m) i = Some o
                          /\ Selection.step m i k = Return o NL)
  \/ (k = DOWN /\ exists out,
        Selection.step m i k = Continue (down_target m i) out)
  \/ (k = UP /\ exists out,
        Selection.step m i k = Continue (up_target m i) out)
  \/ (menu_key k = false /\ Selection.step m i k = Continue i EmptyString).
Proof.
  intros Hi.
  destruct (Ascii.eqb k ENTER) eqn:E1.
  { left. apply Ascii.eqb_eq in E1. subst k. split; [reflexivity|].
    destruct (index_in_range (Selection.options m) i Hi) as [o Ho].
    exists o. split; [exact Ho|].
    unfold Selection.step, Selection.with_option.
    change (Ascii.eqb ENTER ENTER) with true. cbv iota. rewrite Ho. reflexivity. }
  destruct (Ascii.eqb k DOWN) eqn:E2.
  { right. left. apply Ascii.eqb_eq in E2. subst k. split; [reflexivity|].
    apply selection_step_down. exact Hi. }
  destruct (Ascii.eqb k UP) eqn:E3.
  { right. right. left. apply Ascii.eqb_eq in E3. subst k. split; [reflexivity|].
    apply selection_step_up. exact Hi. }
  right. right. right.
  assert (H : menu_key k = false) by (unfold menu_key; rewrite E1, E2, E3; reflexivity).
  split; [exact H|]. apply selection_step_other. exact H.
Qed.

Lemma selection_step_keeps_index (m : Selection.menu) (i : Z) (k : key)
    (i' : Z) (o : string) :
  index_ok m i -> Selection.step m i k = Continue i' o -> index_ok m i'.
Proof.
  intros Hi H.
  destruct (selection_step_kinds m i k Hi)
    as [[_ (x & _ & E)]|[[_ [x E]]|[[_ [x E]]|[_ E]]]];
    rewrite E in H; try discriminate; injection H as <- _.
  - apply down_target_ok. exact Hi.
  - apply up_target_ok. exact Hi.
  - exact Hi.
Qed.

Lemma options_first_index (m : Selection.menu) :
  Selection.options m <> [] -> index_ok m 0.
Proof.
  unfold index_ok, Selection.n_options, Py.llen. intros H.
  destruct (Selection.options m); [congruence|]. simpl. lia.
Qed.

(** X1. On a menu of at least one string label, the highlight index is
    a valid index of the options, [0 <= current < len(options)], at
    every step of the menu loop, on every keyboard and with or without
    wrap. *)
Theorem selection_index_valid (m : Selection.menu) (keys : list key) :
  Selection.options m <> [] ->
  Forall (index_ok m) (trace (Selection.step m) 0 keys).
Proof.
  intros Hne. pose proof (options_first_index m Hne) as H0.
  apply trace_invariant; [|exact H0].
  intros s k s' o. apply selection_step_keeps_index.
Qed.

Lemma selection_index_valid_witness :
  Forall (index_ok (abc true))
    (trace (Selection.step (abc true)) 0 [DOWN; DOWN; DOWN; UP; "x"%char]).
Proof.
  refine (selection_index_valid (abc true) _ _).
  discriminate.
Defined.

Lemma run_app_polling {S R} (step : S -> key -> step_result S R)
    (ks rest : list key) :
  forall s out s' out',
    run step s out ks = Polling s' out' ->
    run step s out (ks ++ rest) = run step s' out' rest.
Proof.
  induction ks as [|k ks IH]; intros s out s' out' H; cbn [run app] in *.
  - injection H as <- <-. reflexivity.
  - destruct (step s k) as [s1 o|r o|e o]; try discriminate.
    apply IH. exact H.
Qed.

(** X2. Enter returns the option under the highlight: when the keys [ks]
    leave the menu open with the highlight at [i], the same keys followed
    by Enter make the call return [options[i]], whatever keys come after
    that Enter. *)
Theorem selection_enter_returns_highlight (m : Selection.menu)
    (ks rest : list key) (i : Z) :
  Selection.index_after m ks = Some i ->
  exists o out,
    Py.index (Selection.options m) i = Some o
    /\ In o (Selection.options m)
    /\ Selection.selection m (ks ++ ENTER :: rest) = Returned o out.
Proof.
  unfold Selection.index_after, Selection.selection. intros H.
  destruct (Selection.options m) as [|o0 os] eqn:Eo; [discriminate|].
  destruct (run (Selection.step m) 0 (Selection.display m) ks)
    as [r out|e out|s out] eqn:Er; try discriminate.
  injection H as ->.
  assert (Hi : index_ok m i).
  { eapply (run_polling_invariant (Selection.step m) (index_ok m)); [| |exact Er].
    - intros s k s' o. apply selection_step_keeps_index.
    - apply options_first_index. congruence. }
  destruct (selection_step_kinds m i ENTER Hi)
    as [[_ (o & Ho & E)]|[[K _]|[[K _]|[K _]]]]; try discriminate.
  exists o, (out +++ NL). rewrite <- Eo. split; [exact Ho|]. split.
  - eapply index_some_in. exact Ho.
  - rewrite (run_app_polling _ _ _ _ _ _ _ Er). cbn [run]. rewrite E. reflexivity.
Qed.

Lemma selection_enter_returns_highlight_witness :
  exists o out,
    Py.index (Selection.options (abc true)) 0 = Some o
    /\ In o (Selection.options (abc true))
    /\ Selection.selection (abc true)
         ([DOWN; DOWN; DOWN] ++ ENTER :: [UP])
       = Returned o out.
Proof.
  apply (selection_enter_returns_highlight (abc true) [DOWN; DOWN; DOWN] [UP] 0).
  vm_compute. reflexivity.
Defined.

Lemma selection_run_downs (m : Selection.menu) (k : nat) :
  forall i out,
    index_ok m i ->
    exists out',
      run (Selection.step m) i out (repeat DOWN k)
      = Polling (if Selection.wrap m
                 then (i + Z.of_nat k) mod Selection.n_options m
                 else Z.min (i + Z.of_nat k) (Selection.n_options m - 1)) out'.
Proof.
  induction k as [|k IH]; intros i out Hi; cbn [repeat run].
  - exists out. f_equal. unfold index_ok in Hi.
    destruct (Selection.wrap m).
    + rewrite Z.add_0_r, Z.mod_small by lia. reflexivity.
    + lia.
  - destruct (selection_step_down m i Hi) as [o E]. rewrite E.
    destruct (IH (down_target m i) (out +++ o) (down_target_ok m i Hi)) as [out' E'].
    exists out'. rewrite E'. f_equal.
    unfold index_ok, down_target in *.
    set (n := Selection.n_options m) in *.
    destruct (i <? n - 1) eqn:El.
    + apply Z.ltb_lt in El.
      destruct (Selection.wrap m); [f_equal|]; lia.
    + apply Z.ltb_ge in El. assert (i = n - 1) by lia. subst i.
      destruct (Selection.wrap m); [|lia].
      replace (n - 1 + Z.of_nat (S k)) with (Z.of_nat k + 1 * n) by lia.
      rewrite Z.mod_add by lia. reflexivity.
Qed.

Lemma selection_run_ups (m : Selection.menu) (k : nat) :
  forall i out,
    index_ok m i ->
    exists out',
      run (Selection.step m) i out (repeat UP k)
      = Polling (if Selection.wrap m
                 then (i - Z.of_nat k) mod Selection.n_options m
                 else Z.max (i - Z.of_nat k) 0) out'.
Proof.
  induction k as [|k IH]; intros i out Hi; cbn [repeat run].
  - exists out. f_equal. unfold index_ok in Hi.
    destruct (Selection.wrap m).
    + rewrite Z.sub_0_r, Z.mod_small by lia. reflexivity.
    + lia.
  - destruct (selection_step_up m i Hi) as [o E]. rewrite E.
    destruct (IH (up_target m i) (out +++ o) (up_target_ok m i Hi)) as [out' E'].
    exists out'. rewrite E'. f_equal.
    unfold index_ok, up_target in *.
    set (n := Selection.n_options m) in *.
    destruct (0 <? i) eqn:El.
    + apply Z.ltb_lt in El.
      destruct (Selection.wrap m); [f_equal|]; lia.
    + apply Z.ltb_ge in El. assert (i = 0) by lia. subst i.
      destruct (Selection.wrap m); [|lia].
      replace (n - 1 - Z.of_nat k) with (0 - Z.of_nat (S k) + 1 * n) by lia.
      rewrite Z.mod_add by lia. reflexivity.
Qed.

(** X3. Pressing Down [k] times on a fresh menu of [n] options leaves the
    highlight at [k mod n] with wrap and at [min k (n-1)] without;
    pressing Up [k] times leaves it at [(-k) mod n] with wrap and at 0
    without. *)
Theorem selection_repeated_moves (m : Selection.menu) (k : nat) :
  Selection.options m <> [] ->
  Selection.index_after m (repeat DOWN k)
  = Some (if Selection.wrap m
          then Z.of_nat k mod Selection.n_options m
          else Z.min (Z.of_nat k) (Selection.n_options m - 1))
  /\ Selection.index_after m (repeat UP k)
     = Some (if Selection.wrap m
             then (- Z.of_nat k) mod Selection.n_options m
             else 0).
Proof.
  intros Hne. pose proof (options_first_index m Hne) as H0.
  unfold Selection.index_after, Selection.selection.
  destruct (Selection.options m) as [|o0 os] eqn:Eo; [congruence|].
  destruct (selection_run_downs m k 0 (Selection.display m) H0) as [o1 E1].
  destruct (selection_run_ups m k 0 (Selection.display m) H0) as [o2 E2].
  rewrite E1, E2. cbn [Z.add]. split; [reflexivity|].
  f_equal. destruct (Selection.wrap m); [reflexivity|lia].
Qed.

Lemma selection_repeated_moves_witness :
  Selection.index_after (abc true) (repeat DOWN 7) = Some 1
  /\ Selection.index_after (abc true) (repeat UP 7) = Some 2.
Proof.
  apply (selection_repeated_moves (abc true) 7). discriminate.
Defined.

(** X4. With wrap, Up undoes Down and Down undoes Up at every valid index;
    without wrap, Up undoes Down below the last index and Down undoes Up
    above index 0. *)
Theorem selection_moves_cancel (m : Selection.menu) (i : Z) :
  index_ok m i ->
  (Selection.wrap m = true \/ i < Selection.n_options m - 1 ->
   exists j o1 o2,
     Selection.step m i DOWN = Continue j o1
     /\ Selection.step m j UP = Continue i o2)
  /\ (Selection.wrap m = true \/ 0 < i ->
      exists j o1 o2,
        Selection.step m i UP = Continue j o1
        /\ Selection.step m j DOWN = Continue i o2).
Proof.
  intros Hi. split; intros Hc.
  - destruct (selection_step_down m i Hi) as [o1 E1].
    destruct (selection_step_up m _ (down_target_ok m i Hi)) as [o2 E2].
    exists (down_target m i), o1, o2. split; [exact E1|].
    rewrite E2. f_equal.
    unfold index_ok, up_target, down_target in *.
    set (n := Selection.n_options m) in *.
    destruct (i <? n - 1) eqn:E.
    + apply Z.ltb_lt in E.
      replace (0 <? i + 1) with true by (symmetry; apply Z.ltb_lt; lia). lia.
    + apply Z.ltb_ge in E. destruct Hc as [Hw|Hw]; [|lia].
      rewrite Hw. change (0 <? 0) with false. cbv iota. lia.
  - destruct (selection_step_up m i Hi) as [o1 E1].
    destruct (selection_step_down m _ (up_target_ok m i Hi)) as [o2 E2].
    exists (up_target m i), o1, o2. split; [exact E1|].
    rewrite E2. f_equal.
    unfold index_ok, up_target, down_target in *.
    set (n := Selection.n_options m) in *.
    destruct (0 <? i) eqn:E.
    + apply Z.ltb_lt in E.
      replace (i - 1 <? n - 1) with true by (symmetry; apply Z.ltb_lt; lia). lia.
    + apply Z.ltb_ge in E. destruct Hc as [Hw|Hw]; [|lia].
      rewrite Hw.
      replace (n - 1 <? n - 1) with false by (symmetry; apply Z.ltb_ge; lia).
      lia.
Qed.

Lemma selection_moves_cancel_witness :
  exists j o1 o2,
    Selection.step (abc true) 2 DOWN = Continue j o1
    /\ Selection.step (abc true) j UP = Continue 2 o2.
Proof.
  refine (proj1 (selection_moves_cancel (abc true) 2 _) _).
  - unfold index_ok. change (Selection.n_options (abc true)) with 3. lia.
  - left. reflexivity.
Defined.

Lemma selection_run_menu_keys (m : Selection.menu) (keys : list key) :
  forall idx out,
    run (Selection.step m) idx out keys
    = run (Selection.step m) idx out (filter menu_key keys).
Proof.
  induction keys as [|k ks IH]; intros idx out; [reflexivity|].
  cbn [filter]. destruct (menu_key k) eqn:E.
  - cbn [run]. destruct (Selection.step m idx k); try reflexivity. apply IH.
  - cbn [run]. rewrite (selection_step_other m idx k E), append_empty_r. apply IH.
Qed.

(** X5. The menu reacts to three bytes only, Enter, P and H: every other
    key is read and dropped, writing nothing, so the outcome of a call,
    output included, is the one of the keyboard with those keys removed. *)
Theorem selection_other_keys_dropped (m : Selection.menu) (keys : list key) :
  Selection.selection m keys = Selection.selection m (filter menu_key keys).
Proof.
  unfold Selection.selection. destruct (Selection.options m); [reflexivity|].
  apply selection_run_menu_keys.
Qed.

(* ------------------------------------------------------------------ *)
(** ** The menu on the terminal *)

Lemma effect_seq_sum (s1 s2 : string) (d d1 d2 lo hi : Z) :
  effect s1 d1 lo hi -> effect s2 d2 (lo - d1) (hi - d1) -> d = d1 + d2 ->
  effect (s1 +++ s2) d lo hi.
Proof. intros H1 H2 ->. apply effect_seq; assumption. Qed.

Lemma effect_mul_up (n lo hi : Z) :
  effect (Py.mul ANSI_UP n) (- Z.of_nat (Z.to_nat n)) lo hi.
Proof. unfold Py.mul. apply effect_ups. Qed.

Lemma effect_mul_down (n lo hi : Z) :
  effect (Py.mul ANSI_DOWN n) (Z.of_nat (Z.to_nat n)) lo hi.
Proof.
  unfold Py.mul. generalize (Z.to_nat n). intros k. revert lo hi.
  induction k as [|k IH]; intros lo hi.
  - apply effect_empty.
  - cbn [Py.repeat_nat].
    eapply effect_seq_sum; [apply effect_down | apply IH | lia].
Qed.

Lemma effect_spaces (n lo hi : Z) :
  lo <= 0 <= hi -> effect (Py.mul SP n) 0 lo hi.
Proof. intros H. apply effect_plain; [exact H|]. apply plain_spaces. Qed.

Ltac effect_atom :=
  first
    [ apply effect_cr | apply effect_nl | apply effect_up | apply effect_down
    | apply effect_mul_up | apply effect_mul_down
    | apply effect_spaces; lia
    | apply effect_plain; [lia | assumption]
    | apply effect_empty ].

Ltac effect_split :=
  lazymatch goal with
  | |- effect (_ +++ _) _ _ _ =>
      eapply effect_seq_sum; [effect_split | effect_split | first [reflexivity | lia]]
  | |- effect _ _ _ _ => effect_atom
  end.

Lemma selection_step_effect (m : Selection.menu) (i : Z) (k : key) :
  menu_plain m -> index_ok m i ->
  match Selection.step m i k with
  | Continue i' o =>
      effect o (i' - i) (- i) (Selection.n_options m - 1 - i)
  | Return _ o => o = NL
  | Raise _ _ => False
  end.
Proof.
  intros (Hopts & Ha & Hp) Hi. unfold index_ok in Hi.
  set (n := Selection.n_options m) in *.
  assert (Hopt : forall j, 0 <= j < n ->
            exists o, Py.index (Selection.options m) j = Some o
                      /\ Terminal.plain o = true).
  { intros j Hj. destruct (index_in_range (Selection.options m) j Hj) as [o Ho].
    exists o. split; [exact Ho|].
    rewrite Forall_forall in Hopts. apply Hopts. eapply index_some_in. exact Ho. }
  destruct (Hopt i Hi) as (oi & Hoi & Pi).
  destruct (Ascii.eqb k ENTER) eqn:E1; [|destruct (Ascii.eqb k DOWN) eqn:E2;
    [|destruct (Ascii.eqb k UP) eqn:E3]];
    unfold Selection.step, Selection.with_option, Selection.reset;
    rewrite ?E1, ?E2, ?E3, ?Hoi; fold n.
  - reflexivity.
  - destruct (Z.min (i + 1) (n - 1) =? i) eqn:Em.
    + apply Z.eqb_eq in Em.
      destruct (Selection.wrap m && (n >? 1)) eqn:Ew.
      * apply andb_true_iff in Ew. destruct Ew as [_ Ew].
        rewrite Z.gtb_ltb in Ew. apply Z.ltb_lt in Ew.
        destruct (Hopt 0) as (o & Ho & Po); [lia|]. rewrite Ho.
        effect_split.
      * rewrite Em, Hoi. effect_split.
    + apply Z.eqb_neq in Em.
      destruct (Hopt (Z.min (i + 1) (n - 1))) as (o & Ho & Po); [lia|].
      rewrite Ho. effect_split.
  - destruct (Z.max (i - 1) 0 =? i) eqn:Em.
    + apply Z.eqb_eq in Em.
      destruct (Selection.wrap m && (n >? 1)) eqn:Ew.
      * apply andb_true_iff in Ew. destruct Ew as [_ Ew].
        rewrite Z.gtb_ltb in Ew. apply Z.ltb_lt in Ew.
        destruct (Hopt (n - 1)) as (o & Ho & Po); [lia|]. rewrite Ho.
        effect_split.
      * rewrite Em, Hoi. effect_split.
    + apply Z.eqb_neq in Em.
      destruct (Hopt (Z.max (i - 1) 0)) as (o & Ho & Po); [lia|].
      rewrite Ho. effect_split.
  - replace (i - i) with 0 by lia. apply effect_empty.
Qed.

Lemma effect_option_lines (passive : string) (rest : list string) :
  Terminal.plain passive = true ->
  Forall (fun o => Terminal.plain o = true) rest ->
  forall lo hi, lo <= 1 -> Z.of_nat (List.length rest) <= hi ->
    effect (fold_right (fun o acc => (NL +++ passive +++ o) +++ acc)
              EmptyString rest)
      (Z.of_nat (List.length rest)) lo hi.
Proof.
  intros Hp Hrest. induction Hrest as [|o rest Ho _ IH]; intros lo hi Hlo Hhi.
  - apply effect_empty.
  - cbn [fold_right List.length] in *.
    eapply effect_seq_sum; [effect_split | apply IH; lia | lia].
Qed.

Lemma effect_menu_display (m : Selection.menu) :
  menu_plain m -> Selection.options m <> [] ->
  effect (Selection.display m) 0 0 (Selection.n_options m - 1).
Proof.
  intros (Hopts & Ha & Hp) Hne.
  unfold Selection.display, Selection.n_options, Py.llen.
  destruct (Selection.options m) as [|o0 rest]; [congruence|].
  inversion Hopts as [|x l Ho0 Hrest]; subst.
  cbn [List.length].
  pose proof (effect_option_lines (Selection.passive m) rest Hp Hrest) as Hl.
  eapply effect_seq_sum; [effect_split | |].
  - eapply effect_seq_sum; [apply Hl; lia | effect_split | reflexivity].
  - lia.
Qed.

Section MenuOnTerminal.
Variable m : Selection.menu.
Hypothesis Hplain : menu_plain m.
Variable t0 : Terminal.term.
Variable top : Z.

Lemma menu_shown_after (i : Z) (out o : string) (d : Z) :
  menu_shown m t0 top i out ->
  effect o d (- i) (Selection.n_options m - 1 - i) ->
  menu_shown m t0 top (i + d) (out +++ o).
Proof.
  intros (Hm & Hr & Hall) He. unfold menu_shown. rewrite write_app.
  destruct (He _ Hm) as (Hm' & Hr' & q & Hq & Hq').
  split; [exact Hm'|]. split; [lia|].
  rewrite Hq. apply Forall_app. split; [|exact Hall].
  eapply Forall_impl; [|exact Hq']. cbv beta. intros x Hx. lia.
Qed.

Lemma selection_run_shown (keys : list key) :
  forall i out,
    index_ok m i -> menu_shown m t0 top i out ->
    match run (Selection.step m) i out keys with
    | Polling i' out' => menu_shown m t0 top i' out'
    | Returned o out' =>
        exists i', Py.index (Selection.options m) i' = Some o
                   /\ menu_shown m t0 top (i' + 1) out'
    | Raised _ _ => False
    end.
Proof.
  induction keys as [|k ks IH]; intros i out Hi Hs; cbn [run]; [exact Hs|].
  pose proof (selection_step_effect m i k Hplain Hi) as He.
  pose proof (selection_step_keeps_index m i k) as Hk.
  destruct (selection_step_kinds m i k Hi)
    as [[_ (x & Hx & E)]|[[_ [x E]]|[[_ [x E]]|[_ E]]]];
    rewrite E in *.
  - exists i. split; [exact Hx|]. subst.
    apply menu_shown_after; [exact Hs|]. apply effect_nl.
  - apply IH; [eapply Hk; eauto|].
    replace (down_target m i) with (i + (down_target m i - i)) at 1 by lia.
    apply menu_shown_after; assumption.
  - apply IH; [eapply Hk; eauto|].
    replace (up_target m i) with (i + (up_target m i - i)) at 1 by lia.
    apply menu_shown_after; assumption.
  - apply IH; [exact Hi|].
    replace i with (i + (i - i)) at 1 by lia.
    apply menu_shown_after; assumption.
Qed.

End MenuOnTerminal.



(* ------------------------------------------------------------------ *)
(** ** More on Python lists *)

Lemma insert_split {A} (w : list A) (c : Z) (x : A) :
  0 <= c <= Py.llen w ->
  Py.insert w c x = firstn (Z.to_nat c) w ++ x :: skipn (Z.to_nat c) w.
Proof.
  intros H. unfold Py.insert, Py.clip.
  destruct (c <? 0) eqn:E; [apply Z.ltb_lt in E; lia|].
  rewrite Z.min_l by lia. reflexivity.
Qed.

Lemma insert_at_end {A} (w : list A) (x : A) :
  Py.insert w (Py.llen w) x = w ++ [x].
Proof.
  pose proof (llen_nonneg w).
  rewrite insert_split by lia. unfold Py.llen. rewrite Nat2Z.id.
  rewrite firstn_all, skipn_all. reflexivity.
Qed.

Lemma pop_insert {A} (w : list A) (c : Z) (x : A) :
  0 <= c <= Py.llen w -> Py.pop (Py.insert w c x) c = Some w.
Proof.
  intros H. rewrite insert_split by exact H. unfold Py.pop.
  destruct (c <? 0) eqn:E; [apply Z.ltb_lt in E; lia|].
  set (k := Z.to_nat c).
  assert (Hk : (k <= List.length w)%nat) by (unfold Py.llen in H; lia).
  assert (Hf : List.length (firstn k w) = k) by (apply firstn_length_le; exact Hk).
  replace ((0 <=? c) && (c <? Py.llen (firstn k w ++ x :: skipn k w))) with true.
  - f_equal.
    rewrite firstn_app, Hf, Nat.sub_diag, firstn_firstn, Nat.min_id.
    cbn [firstn]. rewrite app_nil_r.
    replace (S k) with (List.length (firstn k w) + 1)%nat by lia.
    rewrite skipn_app, Hf.
    replace (k + 1 - k)%nat with 1%nat by lia.
    rewrite skipn_all2 by lia. cbn [skipn app].
    apply firstn_skipn.
  - symmetry. apply andb_true_iff. split; [apply Z.leb_le; lia|].
    apply Z.ltb_lt. unfold Py.llen in *. rewrite length_app, Hf. simpl. lia.
Qed.

Lemma pop_last {A} (w : list A) :
  w <> [] -> Py.pop w (Py.llen w - 1) = Some (removelast w).
Proof.
  intros Hne. destruct (exists_last Hne) as (w' & x & ->).
  rewrite removelast_last.
  replace (Py.llen (w' ++ [x]) - 1) with (Py.llen w')
    by (unfold Py.llen; rewrite length_app; simpl; lia).
  rewrite <- (insert_at_end w' x). apply pop_insert.
  pose proof (llen_nonneg w'). lia.
Qed.

(* ------------------------------------------------------------------ *)
(** ** More on the edit line of [input_write] *)

Lemma run_raised_cause {S R} (step : S -> key -> step_result S R)
    (P : S -> Prop) (Q : Py.exn -> key -> Prop) :
  (forall s k s' o, P s -> step s k = Continue s' o -> P s') ->
  (forall s k e o, P s -> step s k = Raise e o -> Q e k) ->
  forall keys s out e out',
    P s -> run step s out keys = Raised e out' ->
    exists k, In k keys /\ Q e k.
Proof.
  intros Hstep Hcause keys. induction keys as [|k ks IH];
    intros s out e out' Hs H; cbn [run] in H; [discriminate|].
  destruct (step s k) as [s' o|r o|e' o] eqn:E.
  - destruct (IH s' _ e out' (Hstep _ _ _ _ Hs E) H) as (k' & Hin & Hq).
    exists k'. split; [right; exact Hin | exact Hq].
  - discriminate.
  - injection H as <- _. exists k. split; [left; reflexivity|].
    eapply Hcause; eauto.
Qed.

Lemma input_write_step_raise (s : InputWrite.state) (k : key) (e : Py.exn)
    (o : string) :
  InputWrite.cursor_ok s ->
  InputWrite.step s k = Raise e o ->
  e = Py.UnicodeDecodeError /\ Py.decode k = None.
Proof.
  unfold InputWrite.cursor_ok. intros Hc H.
  assert (Hw : InputWrite.write_letter (InputWrite.written s)
                 (InputWrite.curr s) k = Raise e o ->
               e = Py.UnicodeDecodeError /\ Py.decode k = None).
  { unfold InputWrite.write_letter. destruct (Py.decode k); [discriminate|].
    intros E. injection E as <- _. auto. }
  unfold InputWrite.step in H.
  destruct (Ascii.eqb k ENTER); [discriminate|].
  destruct (Ascii.eqb k RIGHT && after_SPECIAL (InputWrite.last_key s));
    [destruct (_ <? _); discriminate|].
  destruct (Ascii.eqb k LEFT && after_SPECIAL (InputWrite.last_key s));
    [destruct (_ >? _); discriminate|].
  destruct (Ascii.eqb k BACKSPACE).
  { destruct (InputWrite.written s) as [|a w] eqn:Ew; [discriminate|].
    destruct (InputWrite.curr s <=? 0) eqn:E; [discriminate|].
    apply Z.leb_gt in E.
    destruct (pop_in_range (a :: w) (InputWrite.curr s - 1)) as [w' [Hp _]];
      [lia|].
    rewrite Hp in H. discriminate. }
  destruct (Ascii.eqb k SPECIAL); [discriminate|].
  destruct (in_IGNORE k); [|auto].
  destruct (after_SPECIAL (InputWrite.last_key s)); [discriminate|auto].
Qed.

Lemma init_cursor_ok (edit : string) : InputWrite.cursor_ok (InputWrite.init edit).
Proof.
  unfold InputWrite.cursor_ok, InputWrite.init; simpl.
  rewrite chars_length. unfold Py.len. lia.
Qed.

Lemma hidden_step_raise (s : InputHidden.state) (k : key) (e : Py.exn)
    (o : string) :
  InputHidden.step s k = Raise e o ->
  e = Py.UnicodeDecodeError /\ Py.decode k = None.
Proof.
  unfold InputHidden.step, InputHidden.store_letter.
  destruct (Ascii.eqb k ENTER); [discriminate|].
  destruct (Ascii.eqb k BACKSPACE);
    [destruct (InputHidden.written s); discriminate|].
  destruct (Ascii.eqb k SPECIAL); [discriminate|].
  destruct (in_IGNORE k); [destruct (after_SPECIAL _); [discriminate|]|];
    (destruct (Py.decode k); [discriminate|]);
    intros E; injection E as <- _; auto.
Qed.

(** X7. The only exception that leaves the key loops of [input_write]
    and [input_hidden], called with a string prompt and a string to edit,
    is the UnicodeDecodeError of a byte of the keyboard that does not
    decode (a byte from 0x80 up): no [pop], [insert] or slice of the
    edit line ever fails. *)
Theorem key_loops_raise_only_on_decode :
  (forall prompt edit keys e out,
      InputWrite.input_write prompt edit keys = Raised e out ->
      e = Py.UnicodeDecodeError /\ exists k, In k keys /\ Py.decode k = None)
  /\ (forall prompt keys e out,
      InputHidden.input_hidden prompt keys = Raised e out ->
      e = Py.UnicodeDecodeError /\ exists k, In k keys /\ Py.decode k = None).
Proof.
  split.
  - intros prompt edit keys e out H.
    destruct (run_raised_cause InputWrite.step InputWrite.cursor_ok
                (fun e k => e = Py.UnicodeDecodeError /\ Py.decode k = None)
                input_write_step_cursor input_write_step_raise
                keys _ _ _ _ (init_cursor_ok edit) H) as (k & Hin & He & Hk).
    split; [exact He|]. exists k. auto.
  - intros prompt keys e out H.
    destruct (run_raised_cause InputHidden.step (fun _ => True)
                (fun e k => e = Py.UnicodeDecodeError /\ Py.decode k = None)
                (fun _ _ _ _ _ _ => I)
                (fun s k e o _ => hidden_step_raise s k e o)
                keys _ _ _ _ I H) as (k & Hin & He & Hk).
    split; [exact He|]. exists k. auto.
Qed.

Lemma same_text_step (a : InputWrite.state) (b : InputHidden.state) (k : key) :
  same_text a b -> Ascii.eqb k SPECIAL = false ->
  match InputWrite.step a k, InputHidden.step b k with
  | Continue a' _, Continue b' _ => same_text a' b'
  | Return x _, Return y _ => x = y
  | Raise e _, Raise e' _ => e = e'
  | _, _ => False
  end.
Proof.
  destruct a as [w c la], b as [w' lb]. unfold same_text.
  cbn [InputWrite.written InputWrite.curr InputWrite.last_key
       InputHidden.written InputHidden.last_key].
  intros (<- & -> & <- & Hl) Hk.
  assert (Hk' : after_SPECIAL (Some k) = false) by exact Hk.
  unfold InputWrite.step, InputHidden.step, InputWrite.write_letter,
    InputHidden.store_letter.
  cbn [InputWrite.written InputWrite.curr InputWrite.last_key
       InputHidden.written InputHidden.last_key].
  rewrite Hl, Hk, !andb_false_r.
  destruct (Ascii.eqb k ENTER); [reflexivity|].
  destruct (Ascii.eqb k BACKSPACE).
  { destruct w as [|x w1] eqn:Ew; [cbn; auto|]. cbv iota. rewrite <- Ew.
    assert (Hne : w <> []) by (rewrite Ew; discriminate).
    replace (Py.llen w <=? 0) with false
      by (symmetry; apply Z.leb_gt; rewrite Ew; unfold Py.llen; simpl; lia).
    rewrite pop_last by exact Hne. cbn.
    repeat split; auto.
    destruct (exists_last Hne) as (w' & y & ->).
    rewrite removelast_last. unfold Py.llen. rewrite length_app. simpl. lia. }
  assert (Hins : forall l : ascii,
            same_text
              {| InputWrite.written := Py.insert w (Py.llen w) l;
                 InputWrite.curr := Py.llen w + 1;
                 InputWrite.last_key := Some k |}
              {| InputHidden.written := w ++ [l];
                 InputHidden.last_key := Some k |}).
  { intros l. unfold same_text. cbn. rewrite insert_at_end.
    repeat split; auto. unfold Py.llen. rewrite length_app. simpl. lia. }
  destruct (in_IGNORE k); destruct (Py.decode k); try reflexivity; apply Hins.
Qed.

Lemma same_text_run (keys : list key) :
  Forall (fun k => Ascii.eqb k SPECIAL = false) keys ->
  forall a b o1 o2,
    same_text a b ->
    same_result (run InputWrite.step a o1 keys) (run InputHidden.step b o2 keys).
Proof.
  induction 1 as [|k ks Hk _ IH]; intros a b o1 o2 Hab; cbn [run].
  - exact Hab.
  - pose proof (same_text_step a b k Hab Hk) as Hs.
    destruct (InputWrite.step a k) as [a' oa|x oa|e oa];
      destruct (InputHidden.step b k) as [b' ob|y ob|e' ob];
      try contradiction.
    + apply IH. exact Hs.
    + exact Hs.
    + exact Hs.
Qed.

(** X8. On a keyboard without the prefix byte, [input_write] without initial
    text and [input_hidden] read the same text: they return the same
    string, or raise the same exception, or are both still reading with
    the same text typed so far, the cursor of [input_write] at its end. *)
Theorem input_write_agrees_with_hidden (prompt : string) (keys : list key) :
  Forall (fun k => Ascii.eqb k SPECIAL = false) keys ->
  same_result (InputWrite.input_write prompt EmptyString keys)
              (InputHidden.input_hidden prompt keys).
Proof.
  intros H. unfold InputWrite.input_write, InputHidden.input_hidden.
  apply same_text_run; [exact H|].
  unfold same_text. cbn. auto.
Qed.

Lemma input_write_agrees_with_hidden_witness :
  same_result
    (InputWrite.input_write "? " EmptyString ["a"; "M"; BACKSPACE; "b"; ENTER]%char)
    (InputHidden.input_hidden "? " ["a"; "M"; BACKSPACE; "b"; ENTER]%char).
Proof.
  apply input_write_agrees_with_hidden. repeat constructor.
Defined.

Lemma join_chars_app (a b : list ascii) :
  Py.join_chars (a ++ b) = Py.join_chars a +++ Py.join_chars b.
Proof. unfold Py.join_chars. induction a as [|x a IH]; simpl; congruence. Qed.

(** X9. Letters typed after the initial text are appended to it: with the
    keys [letters] (bytes that decode and are not Enter, Backspace or the
    prefix) followed by Enter, [input_write(prompt, edit)] returns [edit]
    followed by the letters. *)
Theorem input_write_appends_letters (prompt edit : string) (letters : list key) :
  Forall letter letters ->
  exists out,
    InputWrite.input_write prompt edit (letters ++ [ENTER])
    = Returned (edit +++ Py.join_chars letters) out.
Proof.
  intros Hl.
  assert (Hs : Forall (fun k => Ascii.eqb k SPECIAL = false) (letters ++ [ENTER])).
  { apply Forall_app. split.
    - eapply Forall_impl; [|exact Hl]. intros k (_ & _ & _ & E). exact E.
    - constructor; [reflexivity|constructor]. }
  assert (Hab : same_text (InputWrite.init edit)
                  {| InputHidden.written := Py.chars edit;
                     InputHidden.last_key := None |}).
  { unfold same_text. cbn. rewrite chars_length. auto. }
  pose proof (same_text_run _ Hs _ _ (prompt +++ edit) prompt Hab) as H.
  rewrite (hidden_run_letters letters Hl (Py.chars edit) None prompt eq_refl) in H.
  unfold InputWrite.input_write.
  destruct (run InputWrite.step (InputWrite.init edit) (prompt +++ edit)
              (letters ++ [ENTER])) as [x out|e out|s out]; try contradiction.
  cbn in H. subst x. exists out. f_equal.
  rewrite join_chars_app. f_equal.
  unfold Py.join_chars, Py.chars. apply string_of_list_ascii_of_string.
Qed.

Lemma input_write_appends_letters_witness :
  exists out,
    InputWrite.input_write "Name: " "Ada" ([" "; "L"; "."]%char ++ [ENTER])
    = Returned ("Ada" +++ Py.join_chars [" "; "L"; "."]%char) out.
Proof.
  apply input_write_appends_letters. repeat constructor.
Defined.

Lemma input_write_step_letter (w : list ascii) (c : Z) (last : option key)
    (k : key) :
  letter k -> after_SPECIAL last && in_IGNORE k = false ->
  exists o,
    InputWrite.step
      {| InputWrite.written := w; InputWrite.curr := c;
         InputWrite.last_key := last |} k
    = Continue {| InputWrite.written := Py.insert w c k;
                  InputWrite.curr := c + 1;
                  InputWrite.last_key := Some k |} o.
Proof.
  intros (Hd & E1 & E2 & E3) Hl. unfold ascii_key in Hd.
  unfold InputWrite.step, InputWrite.write_letter.
  cbn [InputWrite.written InputWrite.curr InputWrite.last_key].
  rewrite E1, E2, E3, Hd.
  destruct (after_SPECIAL last); cbn [andb] in Hl.
  - assert (Hu : unrelated k) by (unfold unrelated; auto).
    destruct (unrelated_not_arrow k Hu) as [ER EL].
    rewrite ER, EL, Hl. cbn [andb]. eexists. reflexivity.
  - rewrite !andb_false_r. destruct (in_IGNORE k); eexists; reflexivity.
Qed.

(** X10. A letter typed and then Backspace leave the edit line as it was:
    from any state with the cursor within the text, at any position, the
    letter is inserted at the cursor and Backspace removes it again, so
    that the text and the cursor are those before the two keys. *)
Theorem input_write_insert_backspace (s : InputWrite.state) (k : key) :
  InputWrite.cursor_ok s -> letter k ->
  after_SPECIAL (InputWrite.last_key s) && in_IGNORE k = false ->
  exists s1 o1 s2 o2,
    InputWrite.step s k = Continue s1 o1
    /\ InputWrite.written s1
       = Py.insert (InputWrite.written s) (InputWrite.curr s) k
    /\ InputWrite.step s1 BACKSPACE = Continue s2 o2
    /\ InputWrite.written s2 = InputWrite.written s
    /\ InputWrite.curr s2 = InputWrite.curr s.
Proof.
  destruct s as [w c last]. unfold InputWrite.cursor_ok.
  cbn [InputWrite.written InputWrite.curr InputWrite.last_key].
  intros Hc Hk Hl.
  destruct (input_write_step_letter w c last k Hk Hl) as [o1 E1].
  exists {| InputWrite.written := Py.insert w c k; InputWrite.curr := c + 1;
            InputWrite.last_key := Some k |}, o1.
  rewrite E1. unfold InputWrite.step.
  cbn [InputWrite.written InputWrite.curr InputWrite.last_key].
  change (Ascii.eqb BACKSPACE ENTER) with false.
  change (Ascii.eqb BACKSPACE RIGHT) with false.
  change (Ascii.eqb BACKSPACE LEFT) with false.
  change (Ascii.eqb BACKSPACE BACKSPACE) with true.
  cbn [andb].
  pose proof (pop_insert w c k Hc) as Hp.
  destruct (Py.insert w c k) as [|a w'] eqn:Ei.
  - exfalso. apply (f_equal Py.llen) in Ei. rewrite insert_length in Ei.
    pose proof (llen_nonneg w). cbn in Ei. lia.
  - cbv zeta.
    replace (c + 1 <=? 0) with false by (symmetry; apply Z.leb_gt; lia).
    replace (c + 1 - 1) with c by lia.
    rewrite Hp. do 2 eexists. repeat split; reflexivity.
Qed.

Lemma input_write_insert_backspace_witness :
  exists s1 o1 s2 o2,
    InputWrite.step (InputWrite.init "ab") "x"%char = Continue s1 o1
    /\ InputWrite.written s1
       = Py.insert (InputWrite.written (InputWrite.init "ab"))
           (InputWrite.curr (InputWrite.init "ab")) "x"%char
    /\ InputWrite.step s1 BACKSPACE = Continue s2 o2
    /\ InputWrite.written s2 = InputWrite.written (InputWrite.init "ab")
    /\ InputWrite.curr s2 = InputWrite.curr (InputWrite.init "ab").
Proof.
  apply (input_write_insert_backspace (InputWrite.init "ab") "x"%char).
  - unfold InputWrite.cursor_ok. cbn. lia.
  - repeat constructor.
  - reflexivity.
Defined.

Lemma input_write_run_lefts (w : list ascii) (rest : list key) (k : nat) :
  forall c last out,
    0 <= c -> after_SPECIAL last = false ->
    exists last' out',
      after_SPECIAL last' = false
      /\ run InputWrite.step
           {| InputWrite.written := w; InputWrite.curr := c;
              InputWrite.last_key := last |} out (lefts k ++ rest)
         = run InputWrite.step
             {| InputWrite.written := w;
                InputWrite.curr := Z.max 0 (c - Z.of_nat k);
                InputWrite.last_key := last' |} out' rest.
Proof.
  induction k as [|k IH]; intros c last out Hc Hl.
  - exists last, out. split; [exact Hl|].
    cbn [lefts repeat List.concat app]. rewrite Z.sub_0_r, Z.max_r by lia.
    reflexivity.
  - unfold lefts. cbn [repeat List.concat]. fold (lefts k).
    cbn [app run]. unfold InputWrite.step at 1.
    cbn [InputWrite.written InputWrite.curr InputWrite.last_key].
    change (Ascii.eqb SPECIAL ENTER) with false.
    change (Ascii.eqb SPECIAL RIGHT) with false.
    change (Ascii.eqb SPECIAL LEFT) with false.
    change (Ascii.eqb SPECIAL BACKSPACE) with false.
    change (Ascii.eqb SPECIAL SPECIAL) with true.
    cbn [andb]. unfold InputWrite.step at 1.
    cbn [InputWrite.written InputWrite.curr InputWrite.last_key].
    change (Ascii.eqb LEFT ENTER) with false.
    change (Ascii.eqb LEFT RIGHT) with false.
    change (Ascii.eqb LEFT LEFT) with true.
    change (after_SPECIAL (Some SPECIAL)) with true.
    cbn [andb].
    destruct (c >? 0) eqn:E.
    + rewrite Z.gtb_ltb in E. apply Z.ltb_lt in E.
      destruct (IH (c - 1) (Some LEFT) ((out +++ EmptyString) +++ ANSI_LEFT))
        as (last' & out' & Hl' & Er); [lia | reflexivity |].
      exists last', out'. split; [exact Hl'|]. rewrite Er.
      replace (c - 1 - Z.of_nat k) with (c - Z.of_nat (S k)) by lia.
      reflexivity.
    + rewrite Z.gtb_ltb in E. apply Z.ltb_ge in E.
      destruct (IH c (Some LEFT) ((out +++ EmptyString) +++ EmptyString))
        as (last' & out' & Hl' & Er); [lia | reflexivity |].
      exists last', out'. split; [exact Hl'|]. rewrite Er.
      rewrite !Z.max_l by lia. reflexivity.
Qed.

(** X11. Editing in the middle: with the initial text [edit], the Left arrow
    pressed [k] times, a letter and Enter, [input_write] returns [edit]
    with the letter inserted [k] characters before its end (at its start
    when [k] exceeds its length). *)
Theorem input_write_inserts_at_cursor (prompt edit : string) (k : nat)
    (x : key) :
  letter x ->
  exists out,
    InputWrite.input_write prompt edit (lefts k ++ [x; ENTER])
    = Returned
        (Py.join_chars
           (firstn (String.length edit - k) (Py.chars edit)
            ++ x :: skipn (String.length edit - k) (Py.chars edit))) out.
Proof.
  intros Hx. unfold InputWrite.input_write, InputWrite.init.
  destruct (input_write_run_lefts (Py.chars edit) [x; ENTER] k (Py.len edit)
              None (prompt +++ edit))
    as (last' & out' & Hl' & Er); [unfold Py.len; lia | reflexivity |].
  rewrite Er. cbn [run].
  destruct (input_write_step_letter (Py.chars edit)
              (Z.max 0 (Py.len edit - Z.of_nat k)) last' x Hx) as [o E].
  { rewrite Hl'. reflexivity. }
  rewrite E. unfold InputWrite.step.
  cbn [InputWrite.written InputWrite.curr InputWrite.last_key].
  change (Ascii.eqb ENTER ENTER) with true. cbv iota.
  eexists. f_equal. f_equal.
  rewrite insert_split.
  - replace (Z.to_nat (Z.max 0 (Py.len edit - Z.of_nat k)))
      with (String.length edit - k)%nat by (unfold Py.len; lia).
    reflexivity.
  - rewrite chars_length. unfold Py.len. lia.
Qed.

Lemma input_write_inserts_at_cursor_witness :
  exists out,
    InputWrite.input_write "? " "abcd" (lefts 3 ++ ["x"%char; ENTER])
    = Returned "axbcd"%string out.
Proof.
  apply (input_write_inserts_at_cursor "? " "abcd" 3 "x"%char).
  repeat constructor.
Defined.

(* ------------------------------------------------------------------ *)
(** ** The edit line on the terminal *)

Lemma write_digits (d : Decimal.uint) :
  forall r c a p s,
    Terminal.write
      {| Terminal.row := r; Terminal.col := c; Terminal.mode := Terminal.Csi a;
         Terminal.printed := p |} (NilEmpty.string_of_uint d +++ s)
    = Terminal.write
        {| Terminal.row := r; Terminal.col := c;
           Terminal.mode := Terminal.Csi (digits_read d a);
           Terminal.printed := p |} s.
Proof.
  induction d as [|d IH|d IH|d IH|d IH|d IH|d IH|d IH|d IH|d IH|d IH];
    intros r c a p s;
    cbn [NilEmpty.string_of_uint String.append Terminal.write digits_read];
    [reflexivity | rewrite <- IH; reflexivity ..].
Qed.

Lemma digits_read_acc (d : Decimal.uint) :
  forall acc : positive,
    digits_read d (Some (Z.pos acc)) = Some (Z.pos (Pos.of_uint_acc d acc)).
Proof.
  induction d as [|d IH|d IH|d IH|d IH|d IH|d IH|d IH|d IH|d IH|d IH];
    intros acc; cbn [digits_read Pos.of_uint_acc]; [reflexivity | ..];
    rewrite <- IH; f_equal; f_equal; lia.
Qed.

Lemma digits_read_zero (d : Decimal.uint) :
  digits_read d (Some 0) = Some (Z.of_N (Pos.of_uint d)).
Proof.
  induction d as [|d IH|d IH|d IH|d IH|d IH|d IH|d IH|d IH|d IH|d IH];
    cbn [digits_read Pos.of_uint]; [reflexivity | exact IH | ..];
    cbn [Z.mul Z.add Z.of_N]; apply digits_read_acc.
Qed.

Lemma digits_read_positive (p : positive) :
  digits_read (Pos.to_uint p) None = Some (Z.pos p).
Proof.
  pose proof (DecimalPos.Unsigned.to_uint_nonnil p) as Hn.
  pose proof (DecimalPos.Unsigned.of_to p) as Hof.
  pose proof (digits_read_zero (Pos.to_uint p)) as Hz.
  rewrite Hof in Hz. cbn [Z.of_N] in Hz. rewrite <- Hz.
  destruct (Pos.to_uint p); [congruence | reflexivity ..].
Qed.

Lemma write_csi_left (n r c : Z) (p : list Z) :
  0 < n ->
  Terminal.write
    {| Terminal.row := r; Terminal.col := c; Terminal.mode := Terminal.Ground;
       Terminal.printed := p |} (csi_left n)
  = {| Terminal.row := r; Terminal.col := Z.max 0 (c - n);
       Terminal.mode := Terminal.Ground; Terminal.printed := p |}.
Proof.
  intros Hn. destruct n as [|q|q]; try lia.
  unfold csi_left, Py.str_of_int. cbn [Z.to_int NilZero.string_of_int].
  assert (Hs : NilZero.string_of_uint (Pos.to_uint q)
               = NilEmpty.string_of_uint (Pos.to_uint q)).
  { pose proof (DecimalPos.Unsigned.to_uint_nonnil q).
    unfold NilZero.string_of_uint. destruct (Pos.to_uint q); congruence. }
  rewrite Hs. cbn [String.append Terminal.write].
  change (Terminal.feed
            (Terminal.feed
               {| Terminal.row := r; Terminal.col := c;
                  Terminal.mode := Terminal.Ground; Terminal.printed := p |}
               ESC) "[")
    with {| Terminal.row := r; Terminal.col := c;
            Terminal.mode := Terminal.Csi None; Terminal.printed := p |}.
  rewrite write_digits, digits_read_positive. reflexivity.
Qed.

Lemma cursor_at_record (t : Terminal.term) (r c : Z) :
  cursor_at t r c ->
  t = {| Terminal.row := r; Terminal.col := c; Terminal.mode := Terminal.Ground;
         Terminal.printed := Terminal.printed t |}.
Proof. destruct t as [r' c' m p]. intros (Hm & Hr & Hc). cbn in *. congruence. Qed.

Lemma cursor_after_plain (s : string) :
  Terminal.plain s = true ->
  forall t r c, cursor_at t r c ->
    cursor_at (Terminal.write t s) r (c + Py.len s).
Proof.
  induction s as [|a s IH]; intros Hs t r c Ht.
  - unfold Py.len. cbn. rewrite Z.add_0_r. exact Ht.
  - cbn in Hs. apply andb_true_iff in Hs. destruct Hs as [Ha Hs].
    destruct (plain_char_not_control a Ha) as (H1 & H2 & H3).
    rewrite (cursor_at_record t r c Ht).
    cbn [Terminal.write]. unfold Terminal.feed.
    cbn [Terminal.mode Terminal.row Terminal.col Terminal.printed].
    rewrite H1, H2, H3, Ha.
    replace (c + Py.len (String a s)) with ((c + 1) + Py.len s)
      by (unfold Py.len; cbn [String.length]; lia).
    apply IH; [exact Hs|]. unfold cursor_at. cbn. auto.
Qed.

Lemma cursor_after_left (t : Terminal.term) (r c : Z) :
  cursor_at t r c -> cursor_at (Terminal.write t ANSI_LEFT) r (Z.max 0 (c - 1)).
Proof.
  intros Ht. rewrite (cursor_at_record t r c Ht). unfold cursor_at. cbn. auto.
Qed.

Lemma cursor_after_right (t : Terminal.term) (r c : Z) :
  cursor_at t r c -> cursor_at (Terminal.write t ANSI_RIGHT) r (c + 1).
Proof.
  intros Ht. rewrite (cursor_at_record t r c Ht). unfold cursor_at. cbn. auto.
Qed.

Lemma cursor_after_csi_left (n : Z) (t : Terminal.term) (r c : Z) :
  0 < n -> cursor_at t r c ->
  cursor_at (Terminal.write t (csi_left n)) r (Z.max 0 (c - n)).
Proof.
  intros Hn Ht. rewrite (cursor_at_record t r c Ht).
  rewrite write_csi_left by exact Hn. unfold cursor_at. cbn. auto.
Qed.

Lemma cursor_after_newline (t : Terminal.term) (r c : Z) :
  cursor_at t r c -> cursor_at (Terminal.write t NL) (r + 1) 0.
Proof.
  intros Ht. rewrite (cursor_at_record t r c Ht). unfold cursor_at. cbn. auto.
Qed.

Lemma plain_join_chars (l : list ascii) :
  Forall (fun a => Terminal.plain_char a = true) l ->
  Terminal.plain (Py.join_chars l) = true.
Proof.
  unfold Py.join_chars. induction 1 as [|a l Ha _ IH]; [reflexivity|].
  cbn [string_of_list_ascii Terminal.plain]. rewrite Ha, IH. reflexivity.
Qed.

Lemma plain_chars (s : string) :
  Terminal.plain s = true ->
  Forall (fun a => Terminal.plain_char a = true) (Py.chars s).
Proof.
  induction s as [|a s IH]; intros H; cbn in *; [constructor|].
  apply andb_true_iff in H. destruct H as [Ha Hs]. constructor; auto.
Qed.

Lemma len_join_chars (l : list ascii) : Py.len (Py.join_chars l) = Py.llen l.
Proof.
  unfold Py.len, Py.llen, Py.join_chars. f_equal.
  induction l as [|a l IH]; cbn; congruence.
Qed.

Lemma Forall_skipn_keep {A} (P : A -> Prop) (l : list A) (n : nat) :
  Forall P l -> Forall P (skipn n l).
Proof.
  revert l. induction n as [|n IH]; intros l H; [exact H|].
  destruct l as [|a l]; [constructor|]. inversion H; subst. cbn. auto.
Qed.

Lemma Forall_firstn_keep {A} (P : A -> Prop) (l : list A) (n : nat) :
  Forall P l -> Forall P (firstn n l).
Proof.
  revert l. induction n as [|n IH]; intros l H; [constructor|].
  destruct l as [|a l]; [constructor|]. inversion H; subst. cbn. auto.
Qed.

Lemma rest_of_line (w : list ascii) (c : Z) :
  0 <= c <= Py.llen w ->
  Forall (fun a => Terminal.plain_char a = true) w ->
  Terminal.plain (Py.join_chars (Py.slice w c (Py.llen w))) = true
  /\ Py.len (Py.join_chars (Py.slice w c (Py.llen w))) = Py.llen w - c.
Proof.
  intros Hc Hw. rewrite slice_to_end by exact Hc. split.
  - apply plain_join_chars. apply Forall_skipn_keep. exact Hw.
  - rewrite len_join_chars. unfold Py.llen in *. rewrite length_skipn. lia.
Qed.

Lemma echoable_plain (k : key) :
  echoable k -> Ascii.eqb k ENTER = false -> Ascii.eqb k BACKSPACE = false ->
  Ascii.eqb k SPECIAL = false -> Terminal.plain_char k = true.
Proof. intros [H|[H|[H|H]]] H1 H2 H3; congruence. Qed.

Section LineOnTerminal.
Variable t0 : Terminal.term.
Variables r base : Z.
Hypothesis Hbase : 0 <= base.

Lemma write_letter_shown (w : list ascii) (c : Z) (k : key) (out : string)
    (last : option key) (s' : InputWrite.state) (o : string) :
  line_shown t0 r base {| InputWrite.written := w; InputWrite.curr := c;
                InputWrite.last_key := last |} out ->
  Terminal.plain_char k = true ->
  InputWrite.write_letter w c k = Continue s' o ->
  line_shown t0 r base s' (out +++ o).
Proof.
  unfold line_shown, InputWrite.cursor_ok.
  cbn [InputWrite.written InputWrite.curr].
  intros (Ht & Hc & Hw) Hk H.
  unfold InputWrite.write_letter in H.
  destruct (Py.decode k) as [l|] eqn:Ed; [|discriminate].
  assert (l = k).
  { unfold Py.decode in Ed. destruct (_ <? _); congruence. }
  subst l.
  assert (Hw' : Forall (fun a => Terminal.plain_char a = true) (Py.insert w c k)).
  { rewrite insert_split by exact Hc. apply Forall_app. split.
    - apply Forall_firstn_keep. exact Hw.
    - constructor; [exact Hk|].
      apply Forall_skipn_keep. exact Hw. }
  pose proof (insert_length w c k) as Hlen.
  destruct (rest_of_line (Py.insert w c k) (c + 1)) as [Hrp Hrl];
    [lia | exact Hw' |].
  assert (Hletter : cursor_at
            (Terminal.write (Terminal.write t0 out) (String k EmptyString))
            r (base + c + 1)).
  { pose proof (cursor_after_plain (String k EmptyString)) as Hp.
    cbn [Terminal.plain] in Hp.
    rewrite Hk in Hp.
    specialize (Hp eq_refl _ _ _ Ht). unfold Py.len in Hp. cbn in Hp.
    replace (base + c + 1) with (base + c + 1) by lia. exact Hp. }
  pose proof (cursor_after_plain _ Hrp _ _ _ Hletter) as Hrest.
  rewrite Hrl in Hrest.
  destruct (Py.llen (Py.insert w c k) - (c + 1) >? 0) eqn:En;
    inversion H; subst; clear H;
    cbn [InputWrite.written InputWrite.curr];
    (split; [|split; [lia | exact Hw']]);
    rewrite write_app; cbn [String.append Terminal.write] in *;
    rewrite ?write_app.
  - rewrite Z.gtb_ltb in En. apply Z.ltb_lt in En.
    pose proof (cursor_after_csi_left _ _ _ _ En Hrest) as Hl.
    replace (base + (c + 1))
      with (Z.max 0 (base + c + 1 + (Py.llen (Py.insert w c k) - (c + 1))
                     - (Py.llen (Py.insert w c k) - (c + 1)))) by lia.
    exact Hl.
  - rewrite Z.gtb_ltb in En. apply Z.ltb_ge in En.
    replace (base + (c + 1))
      with (base + c + 1 + (Py.llen (Py.insert w c k) - (c + 1))) by lia.
    exact Hrest.
Qed.

End LineOnTerminal.

Lemma len_append (a b : string) : Py.len (a +++ b) = Py.len a + Py.len b.
Proof.
  unfold Py.len. induction a as [|x a IH]; cbn [String.append String.length];
    [reflexivity | lia].
Qed.

Lemma pop_keeps_forall {A} (P : A -> Prop) (w w' : list A) (i : Z) :
  Py.pop w i = Some w' -> Forall P w -> Forall P w'.
Proof.
  unfold Py.pop. destruct (_ && _); [|discriminate].
  intros H Hw. injection H as <-. apply Forall_app. split.
  - apply Forall_firstn_keep. exact Hw.
  - exact (Forall_skipn_keep P w
             (S (Z.to_nat (if i <? 0 then i + Py.llen w else i))) Hw).
Qed.

Lemma input_write_step_shown (t0 : Terminal.term) (r base : Z)
    (s : InputWrite.state) (out : string) (k : key) :
  0 <= base -> line_shown t0 r base s out -> echoable k ->
  match InputWrite.step s k with
  | Continue s' o => line_shown t0 r base s' (out +++ o)
  | Return _ o => cursor_at (Terminal.write t0 (out +++ o)) (r + 1) 0
  | Raise _ _ => True
  end.
Proof.
  intros Hbase Hs Hk. destruct s as [w c last].
  pose proof Hs as (Ht & Hc & Hw). unfold InputWrite.cursor_ok in Hc.
  cbn [InputWrite.written InputWrite.curr] in Ht, Hc, Hw.
  assert (Hsame : forall l,
            line_shown t0 r base
              {| InputWrite.written := w; InputWrite.curr := c;
                 InputWrite.last_key := l |} (out +++ EmptyString)).
  { intros l. rewrite append_empty_r. unfold line_shown, InputWrite.cursor_ok.
    cbn. auto. }
  unfold InputWrite.step.
  cbn [InputWrite.written InputWrite.curr InputWrite.last_key].
  destruct (Ascii.eqb k ENTER) eqn:E1.
  { rewrite write_app. eapply cursor_after_newline. exact Ht. }
  destruct (Ascii.eqb k RIGHT && after_SPECIAL last).
  { destruct (c <? Py.llen w) eqn:E; [|apply Hsame].
    apply Z.ltb_lt in E. unfold line_shown, InputWrite.cursor_ok.
    cbn [InputWrite.written InputWrite.curr].
    split; [|split; [lia | exact Hw]].
    rewrite write_app. replace (base + (c + 1)) with (base + c + 1) by lia.
    apply cursor_after_right. exact Ht. }
  destruct (Ascii.eqb k LEFT && after_SPECIAL last).
  { destruct (c >? 0) eqn:E; [|apply Hsame].
    rewrite Z.gtb_ltb in E. apply Z.ltb_lt in E.
    unfold line_shown, InputWrite.cursor_ok.
    cbn [InputWrite.written InputWrite.curr].
    split; [|split; [lia | exact Hw]].
    rewrite write_app. replace (base + (c - 1)) with (Z.max 0 (base + c - 1)) by lia.
    apply cursor_after_left. exact Ht. }
  destruct (Ascii.eqb k BACKSPACE) eqn:E2.
  { destruct w as [|a w1] eqn:Ew; [apply Hsame|]. rewrite <- Ew in *.
    destruct (c <=? 0) eqn:E; [apply Hsame|]. apply Z.leb_gt in E.
    destruct (pop_in_range w (c - 1)) as (w' & Hp & Hl); [lia|].
    rewrite Hp.
    destruct (rest_of_line w c Hc Hw) as [Hrp Hrl].
    unfold line_shown, InputWrite.cursor_ok.
    cbn [InputWrite.written InputWrite.curr].
    split; [|split; [lia | eapply pop_keeps_forall; eauto]].
    do 3 rewrite write_app.
    pose proof (cursor_after_left _ _ _ Ht) as H1.
    assert (Hsp : Terminal.plain
                    (Py.join_chars (Py.slice w c (Py.llen w)) +++ SP) = true)
      by (apply plain_append; [exact Hrp | reflexivity]).
    pose proof (cursor_after_plain _ Hsp _ _ _ H1) as H2.
    rewrite len_append, Hrl in H2. change (Py.len SP) with 1 in H2.
    assert (Hn : 0 < Py.len (Py.join_chars (Py.slice w c (Py.llen w))) + 1)
      by (rewrite Hrl; lia).
    pose proof (cursor_after_csi_left _ _ _ _ Hn H2) as H3.
    rewrite Hrl in H3.
    replace (base + (c - 1))
      with (Z.max 0 (Z.max 0 (base + c - 1) + (Py.llen w - c + 1)
                     - (Py.llen w - c + 1))) by lia.
    rewrite Hrl. exact H3. }
  destruct (Ascii.eqb k SPECIAL) eqn:E3; [apply Hsame|].
  pose proof (echoable_plain k Hk E1 E2 E3) as Hpk.
  assert (Hletter : match InputWrite.write_letter w c k with
                    | Continue s' o => line_shown t0 r base s' (out +++ o)
                    | Return _ o =>
                        cursor_at (Terminal.write t0 (out +++ o)) (r + 1) 0
                    | Raise _ _ => True
                    end).
  { destruct (InputWrite.write_letter w c k) as [s' o|x o|e o] eqn:Ewl.
    - eapply write_letter_shown; eauto.
    - unfold InputWrite.write_letter in Ewl.
      destruct (Py.decode k); discriminate.
    - exact I. }
  destruct (in_IGNORE k); [|exact Hletter].
  destruct (after_SPECIAL last); [apply Hsame | exact Hletter].
Qed.

Lemma input_write_run_shown (t0 : Terminal.term) (r base : Z)
    (keys : list key) :
  0 <= base -> Forall echoable keys ->
  forall s out,
    line_shown t0 r base s out ->
    match run InputWrite.step s out keys with
    | Polling s' out' => line_shown t0 r base s' out'
    | Returned _ out' => cursor_at (Terminal.write t0 out') (r + 1) 0
    | Raised _ _ => True
    end.
Proof.
  intros Hbase Hkeys. induction Hkeys as [|k ks Hk _ IH]; intros s out Hs;
    cbn [run]; [exact Hs|].
  pose proof (input_write_step_shown t0 r base s out k Hbase Hs Hk) as H.
  destruct (InputWrite.step s k) as [s' o|x o|e o]; [apply IH; exact H | exact H | exact I].
Qed.



(* ------------------------------------------------------------------ *)
(** ** Backspace in the hidden line *)

Lemma hidden_step_letter (w : list ascii) (last : option key) (k : key) :
  letter k -> after_SPECIAL last = false ->
  InputHidden.step {| InputHidden.written := w; InputHidden.last_key := last |} k
  = Continue {| InputHidden.written := w ++ [k]; InputHidden.last_key := Some k |}
      EmptyString.
Proof.
  intros (Hd & E1 & E2 & E3) Hl. unfold ascii_key in Hd.
  unfold InputHidden.step, InputHidden.store_letter.
  cbn [InputHidden.written InputHidden.last_key].
  rewrite E1, E2, E3, Hl, Hd. destruct (in_IGNORE k); reflexivity.
Qed.

Lemma hidden_step_backspace (w : list ascii) (last : option key) :
  InputHidden.step {| InputHidden.written := w; InputHidden.last_key := last |}
    BACKSPACE
  = Continue {| InputHidden.written := removelast w;
                InputHidden.last_key := Some BACKSPACE |} EmptyString.
Proof. destruct w; reflexivity. Qed.

Lemma hidden_run_typed (ks rest : list key) :
  Forall letter ks ->
  forall w last out,
    after_SPECIAL last = false ->
    exists last',
      after_SPECIAL last' = false
      /\ run InputHidden.step
           {| InputHidden.written := w; InputHidden.last_key := last |} out
           (ks ++ rest)
         = run InputHidden.step
             {| InputHidden.written := w ++ ks; InputHidden.last_key := last' |}
             out rest.
Proof.
  induction 1 as [|k ks Hk _ IH]; intros w last out Hl.
  - exists last. rewrite app_nil_r. auto.
  - cbn [app run]. rewrite (hidden_step_letter w last k Hk Hl), append_empty_r.
    assert (Hk' : after_SPECIAL (Some k) = false)
      by (destruct Hk as (_ & _ & _ & E); exact E).
    destruct (IH (w ++ [k]) (Some k) out Hk') as (last' & Hl' & Er).
    exists last'. split; [exact Hl'|]. rewrite Er, <- app_assoc. reflexivity.
Qed.

Lemma removelast_firstn_pred {A} (w : list A) :
  removelast w = firstn (List.length w - 1) w.
Proof.
  destruct w as [|a w] using rev_ind; [reflexivity|].
  rewrite removelast_last, length_app. cbn [List.length].
  replace (List.length w + 1 - 1)%nat with (List.length w) by lia.
  rewrite firstn_app, Nat.sub_diag, firstn_all. cbn. rewrite app_nil_r.
  reflexivity.
Qed.

Lemma hidden_run_backspaces (rest : list key) (n : nat) :
  forall w last out,
    after_SPECIAL last = false ->
    exists last',
      after_SPECIAL last' = false
      /\ run InputHidden.step
           {| InputHidden.written := w; InputHidden.last_key := last |} out
           (repeat BACKSPACE n ++ rest)
         = run InputHidden.step
             {| InputHidden.written := firstn (List.length w - n) w;
                InputHidden.last_key := last' |} out rest.
Proof.
  induction n as [|n IH]; intros w last out Hl.
  - exists last. split; [exact Hl|]. cbn [repeat app].
    rewrite Nat.sub_0_r, firstn_all. reflexivity.
  - cbn [repeat app run]. rewrite hidden_step_backspace, append_empty_r.
    destruct (IH (removelast w) (Some BACKSPACE) out eq_refl) as (last' & Hl' & Er).
    exists last'. split; [exact Hl'|]. rewrite Er. f_equal. f_equal.
    rewrite removelast_firstn_pred, firstn_firstn, length_firstn.
    f_equal. lia.
Qed.

(** X13. Backspace pressed [n] times after typing removes the last [n]
    letters, all of them when [n] exceeds their number: for letters
    followed by [n] Backspaces and Enter, [input_hidden] returns the
    letters without the last [n], with the prompt and a newline as its
    output, and [input_write] without initial text returns the same
    string. *)
Theorem backspaces_remove_last_letters (prompt : string) (letters : list key)
    (n : nat) :
  Forall letter letters ->
  InputHidden.input_hidden prompt (letters ++ repeat BACKSPACE n ++ [ENTER])
  = Returned (Py.join_chars (firstn (List.length letters - n) letters))
      (prompt +++ NL)
  /\ exists out,
       InputWrite.input_write prompt EmptyString
         (letters ++ repeat BACKSPACE n ++ [ENTER])
       = Returned (Py.join_chars (firstn (List.length letters - n) letters)) out.
Proof.
  intros Hl.
  assert (Hh : InputHidden.input_hidden prompt
                 (letters ++ repeat BACKSPACE n ++ [ENTER])
               = Returned (Py.join_chars (firstn (List.length letters - n) letters))
                   (prompt +++ NL)).
  { unfold InputHidden.input_hidden, InputHidden.init.
    destruct (hidden_run_typed letters (repeat BACKSPACE n ++ [ENTER]) Hl
                [] None prompt eq_refl) as (l1 & Hl1 & E1).
    rewrite E1. cbn [app].
    destruct (hidden_run_backspaces [ENTER] n letters l1 prompt Hl1)
      as (l2 & Hl2 & E2).
    rewrite E2. reflexivity. }
  split; [exact Hh|].
  assert (Hs : Forall (fun k => Ascii.eqb k SPECIAL = false)
                 (letters ++ repeat BACKSPACE n ++ [ENTER])).
  { apply Forall_app. split.
    - eapply Forall_impl; [|exact Hl]. intros k (_ & _ & _ & E). exact E.
    - apply Forall_app. split.
      + apply Forall_forall. intros k Hk. apply repeat_spec in Hk. subst k.
        reflexivity.
      + constructor; [reflexivity|constructor]. }
  pose proof (same_text_run _ Hs (InputWrite.init EmptyString) InputHidden.init
                (prompt +++ EmptyString) prompt) as H.
  specialize (H ltac:(unfold same_text; cbn; auto)).
  unfold InputHidden.input_hidden in Hh. rewrite Hh in H.
  unfold InputWrite.input_write.
  destruct (run InputWrite.step (InputWrite.init EmptyString)
              (prompt +++ EmptyString)
              (letters ++ repeat BACKSPACE n ++ [ENTER]))
    as [x out|e out|s out]; try contradiction.
  cbn in H. subst x. exists out. reflexivity.
Qed.

Lemma backspaces_remove_last_letters_witness :
  InputHidden.input_hidden "pw: "
    (["a"; "b"; "c"]%char ++ repeat BACKSPACE 2 ++ [ENTER])
  = Returned "a"%string ("pw: " +++ NL).
Proof.
  refine (proj1 (backspaces_remove_last_letters "pw: " ["a"; "b"; "c"]%char 2 _)).
  repeat constructor.
Defined.

(* ------------------------------------------------------------------ *)
(** ** More on the registry *)

Section RegestryMore.
Context {Callable : Type}.

Lemma after_push_atom (d : Display.IODisplay Callable) (a : Display.atom)
    (flush : bool) :
  after d (Push (Display.Atom a) flush)
  = Display.set_regestry Callable d (tl (Display._regestry d ++ [Display.str a])).
Proof. cbn [after]. destruct (push_atom d a flush) as [out ->]. reflexivity. Qed.

Lemma after_push_sequence (d : Display.IODisplay Callable)
    (l : list Display.atom) (flush : bool) :
  after d (Push (Display.Sequence l) flush)
  = Display.set_regestry Callable d
      (skipn (List.length l) (Display._regestry d ++ map Display.str l)).
Proof. cbn [after]. destruct (push_sequence d l flush) as [out ->]. reflexivity. Qed.

Lemma push_each_regestry (l : list Display.atom) (flush : bool) :
  forall d : Display.IODisplay Callable,
    Display._regestry (fold_left after (push_each l flush) d)
    = skipn (List.length l) (Display._regestry d ++ map Display.str l).
Proof.
  induction l as [|a l IH]; intros d; cbn [push_each map fold_left List.length].
  - cbn [skipn]. rewrite app_nil_r. reflexivity.
  - fold (push_each l flush). rewrite IH, after_push_atom.
    cbn [Display._regestry Display.set_regestry map].
    destruct (Display._regestry d) as [|x reg].
    + cbn [app tl skipn]. reflexivity.
    + cbn [app tl skipn]. rewrite <- app_assoc. reflexivity.
Qed.

End RegestryMore.

(** X14. Pushing lines one call at a time and pushing them as one sequence
    leave the same registry, whatever the capacity and the number of
    lines. *)
Theorem push_each_is_push_sequence (Callable : Type)
    (d : Display.IODisplay Callable) (l : list Display.atom) (f1 f2 : bool) :
  Display._regestry (fold_left after (push_each l f1) d)
  = Display._regestry (after d (Push (Display.Sequence l) f2)).
Proof.
  rewrite push_each_regestry, after_push_sequence. reflexivity.
Qed.

(** X15. A batch at least as long as the registry replaces it whole: after
    [push] of a sequence of [k] lines on a registry of [n <= k] entries,
    the registry is the last [n] lines of the batch and no older line is
    left. *)
Theorem push_long_batch_keeps_newest (Callable : Type)
    (d : Display.IODisplay Callable) (l : list Display.atom) (flush : bool) :
  (List.length (Display._regestry d) <= List.length l)%nat ->
  Display._regestry (after d (Push (Display.Sequence l) flush))
  = skipn (List.length l - List.length (Display._regestry d))
      (map Display.str l)
  /\ List.length (Display._regestry (after d (Push (Display.Sequence l) flush)))
     = List.length (Display._regestry d).
Proof.
  intros H. rewrite after_push_sequence. cbn [Display._regestry Display.set_regestry].
  rewrite skipn_app. rewrite skipn_all2 by exact H. cbn [app]. split.
  - reflexivity.
  - rewrite length_skipn, length_map. lia.
Qed.

Lemma push_long_batch_keeps_newest_witness :
  Display._regestry
    (after (Display.__init__ unit "> " 2 true)
       (Push (Display.Sequence [Display.AStr "a"; Display.AInt 2;
                                Display.AStr "c"]) true))
  = skipn (3 - 2) (map Display.str [Display.AStr "a"; Display.AInt 2;
                                    Display.AStr "c"]).
Proof.
  refine (proj1 (push_long_batch_keeps_newest unit
                   (Display.__init__ unit "> " 2 true) _ true _)).
  vm_compute. lia.
Defined.

(* ------------------------------------------------------------------ *)
(** ** Pushing on the terminal *)

Lemma effect_clear_then_render {C} (d1 d2 : Display.IODisplay C) :
  tidy d1 -> tidy d2 -> Display.lines d2 = Display.lines d1 ->
  effect (Display._clear_lines C d1 +++ Display._render_lines C d2 false)
    0 (- Display.lines d1) 0.
Proof.
  intros (Hlen1 & Hreg1 & _ & _) (Hlen2 & Hreg2 & Hp2 & Hw2) Hl.
  unfold Display._clear_lines, Display._render_lines, Display.get.
  rewrite clear_lines_buffer.
  unfold Py.mul. rewrite Hl. rewrite <- Hlen1 at 1 2 3.
  assert (Hn : List.length (Display._regestry d2)
               = List.length (Display._regestry d1))
    by (unfold Py.llen in *; lia).
  unfold Py.llen. rewrite Nat2Z.id.
  set (n := Z.of_nat (List.length (Display._regestry d1))).
  replace 0 with (((- n + 0) + n) + ((- n + 0) + n)) at 1 by lia.
  apply effect_seq.
  - apply effect_seq; [apply effect_seq|].
    + apply effect_ups.
    + apply effect_cr.
    + apply effect_erase_rows; lia.
  - apply effect_seq; [apply effect_seq|].
    + apply effect_ups.
    + apply effect_cr.
    + unfold n. rewrite <- Hn.
      apply effect_joined_lines; try lia; [exact Hreg2|].
      apply plain_append; assumption.
Qed.



(* ------------------------------------------------------------------ *)
(** ** Submitting a line to the callback *)

Section Submit.
Context {Callable : Type}.
Variable call : Callable -> string -> Display.IODisplay Callable
                -> Display.IODisplay Callable * string.

Lemma display_step_letter (d : Display.IODisplay Callable) (c : Z)
    (last : option key) (k : key) :
  letter k -> after_SPECIAL last && in_IGNORE k = false ->
  exists o,
    Display.step Callable call
      {| Display.disp := d; Display.curr := c; Display.last_key := last |} k
    = Continue
        {| Display.disp :=
             Display.set_written Callable d (Py.insert (Display._written d) c k);
           Display.curr := c + 1; Display.last_key := Some k |} o.
Proof.
  intros (Hd & E1 & E2 & E3) Hl. unfold ascii_key in Hd.
  unfold Display.step, Display.write_letter.
  cbn [Display.disp Display.curr Display.last_key].
  rewrite E1, E2, E3, Hd.
  destruct (after_SPECIAL last); cbn [andb] in Hl.
  - assert (Hu : unrelated k) by (unfold unrelated; auto).
    destruct (unrelated_not_arrow k Hu) as [ER EL].
    rewrite ER, EL, Hl. cbn [andb]. eexists. reflexivity.
  - rewrite !andb_false_r. destruct (in_IGNORE k); eexists; reflexivity.
Qed.

Lemma display_loop_letters (rest : list key) (letters : list key) :
  Forall letter letters ->
  forall (d : Display.IODisplay Callable) w last out,
    Display._running d = true -> after_SPECIAL last = false ->
    exists last' out',
      after_SPECIAL last' = false
      /\ Display.loop Callable call
           {| Display.disp := Display.set_written Callable d w;
              Display.curr := Py.llen w; Display.last_key := last |} out
           (letters ++ rest)
         = Display.loop Callable call
             {| Display.disp := Display.set_written Callable d (w ++ letters);
                Display.curr := Py.llen (w ++ letters);
                Display.last_key := last' |} out' rest.
Proof.
  induction 1 as [|k ks Hk _ IH]; intros d w last out Hr Hl.
  - exists last, out. rewrite app_nil_r. auto.
  - cbn [app Display.loop].
    cbn [Display.disp Display._running Display.set_written]. rewrite Hr.
    cbn [negb].
    destruct (display_step_letter (Display.set_written Callable d w)
                (Py.llen w) last k Hk) as [o E].
    { rewrite Hl. reflexivity. }
    rewrite E. cbn [Display._written Display.set_written].
    rewrite insert_at_end.
    assert (Hk' : after_SPECIAL (Some k) = false)
      by (destruct Hk as (_ & _ & _ & E3); exact E3).
    destruct (IH d (w ++ [k]) (Some k) (out +++ o) Hr Hk') as (last' & out' & Hl' & Er).
    exists last', out'. split; [exact Hl'|].
    replace (Py.llen w + 1) with (Py.llen (w ++ [k]))
      by (unfold Py.llen; rewrite length_app; simpl; lia).
    change (Display.set_written Callable (Display.set_written Callable d w)
              (w ++ [k]))
      with (Display.set_written Callable d (w ++ [k])).
    rewrite Er, <- app_assoc. reflexivity.
Qed.

End Submit.

(** X17. A line typed and submitted: on a display with an empty edit line,
    started in the caller, letters followed by Enter hand the typed text,
    and nothing else, to the callback; the callback runs on the display
    with the edit line emptied when [dispatch_on_enter] is set and with
    the text still in it otherwise; the loop goes on from the display the
    callback left, with the cursor at 0 and no remembered key. *)
Theorem typed_line_reaches_callback (Callable : Type)
    (call : Callable -> string -> Display.IODisplay Callable
            -> Display.IODisplay Callable * string)
    (d : Display.IODisplay Callable) (f : Callable)
    (letters rest : list key) :
  Forall letter letters ->
  Display._written d = [] -> Display.callback d = Some f ->
  let shown :=
    Display.set_written Callable (Display.set_running Callable d true)
      (if Display.dispatch_on_enter d then [] else letters) in
  exists out,
    Display._start Callable call d (letters ++ ENTER :: rest)
    = Display.loop Callable call
        {| Display.disp := fst (call f (Py.join_chars letters) shown);
           Display.curr := 0; Display.last_key := None |} out rest.
Proof.
  intros Hl Hw Hcb shown. unfold Display._start. unfold shown. clear shown.
  remember (Display.set_running Callable d true) as D eqn:ED.
  assert (HDr : Display._running D = true) by (subst D; reflexivity).
  assert (HDc : Display.callback D = Some f) by (subst D; exact Hcb).
  assert (HDd : Display.dispatch_on_enter D = Display.dispatch_on_enter d)
    by (subst D; reflexivity).
  assert (HD : D = Display.set_written Callable D []).
  { subst D. unfold Display.set_written, Display.set_running. cbn. rewrite Hw.
    reflexivity. }
  rewrite <- HDd. clear ED HDd Hw Hcb.
  replace {| Display.disp := D; Display.curr := 0; Display.last_key := None |}
    with {| Display.disp := Display.set_written Callable D [];
            Display.curr := Py.llen (@nil ascii); Display.last_key := None |}
    by (rewrite <- HD; reflexivity).
  destruct (display_loop_letters call (ENTER :: rest) letters Hl D [] None
              (Display._render_lines Callable D true) HDr eq_refl)
    as (last' & out' & Hl' & Er).
  rewrite Er. cbn [app Display.loop].
  cbn [Display.disp Display._running Display.set_written]. rewrite HDr.
  cbn [negb]. unfold Display.step.
  cbn [Display.disp Display.curr Display.last_key].
  change (Ascii.eqb ENTER ENTER) with true. cbv iota.
  unfold Display.get.
  cbn [Display.dispatch_on_enter Display._written Display.set_written].
  destruct (Display.dispatch_on_enter D).
  - destruct letters as [|a l].
    + cbn [Display.callback Display.set_written]. rewrite HDc.
      destruct (call f _ _) as [d2 o2] eqn:Ec. cbn [fst]. eexists. reflexivity.
    + cbn [Display.callback Display.set_written]. rewrite HDc.
      change (Display.set_written Callable
                (Display.set_written Callable D (a :: l)) [])
        with (Display.set_written Callable D []).
      destruct (call f _ _) as [d2 o2] eqn:Ec. cbn [fst]. eexists. reflexivity.
  - cbn [Display.callback Display.set_written]. rewrite HDc.
    destruct (call f _ _) as [d2 o2] eqn:Ec. cbn [fst]. eexists. reflexivity.
Qed.

Lemma typed_line_reaches_callback_witness :
  exists out,
    Display._start unit (fun _ s d => (Display.set_regestry unit d [s], s))
      (Display.set_callback unit (Display.__init__ unit "> " 1 true) (Some tt))
      (["h"; "i"]%char ++ ENTER :: ["x"%char])
    = Display.loop unit (fun _ s d => (Display.set_regestry unit d [s], s))
        {| Display.disp :=
             Display.set_regestry unit
               (Display.set_written unit
                  (Display.set_running unit
                     (Display.set_callback unit
                        (Display.__init__ unit "> " 1 true) (Some tt)) true) [])
               ["hi"%string];
           Display.curr := 0; Display.last_key := None |} out ["x"%char].
Proof.
  apply (typed_line_reaches_callback unit
           (fun _ s d => (Display.set_regestry unit d [s], s))
           (Display.set_callback unit (Display.__init__ unit "> " 1 true) (Some tt))
           tt ["h"; "i"]%char ["x"%char]).
  - repeat constructor.
  - reflexivity.
  - reflexivity.
Defined.

(* ------------------------------------------------------------------ *)
(** ** The overload registry *)

Lemma dict_get_set_same {V} (k : string) (v : V) (d : Overload.dict V) :
  Overload.dict_get k (Overload.dict_set k v d) = Some v.
Proof.
  induction d as [|[k' v'] d IH]; cbn.
  - rewrite String.eqb_refl. reflexivity.
  - destruct (String.eqb k k') eqn:E; cbn.
    + rewrite String.eqb_refl. reflexivity.
    + rewrite E. exact IH.
Qed.

Lemma dict_get_set_other {V} (k k' : string) (v : V) (d : Overload.dict V) :
  String.eqb k' k = false ->
  Overload.dict_get k' (Overload.dict_set k v d) = Overload.dict_get k' d.
Proof.
  intros Hk. induction d as [|[k0 v0] d IH]; cbn.
  - rewrite Hk. reflexivity.
  - destruct (String.eqb k k0) eqn:E; cbn.
    + apply String.eqb_eq in E. subst k0. rewrite Hk. reflexivity.
    + destruct (String.eqb k' k0); [reflexivity | exact IH].
Qed.

Section OverloadRegistry.
Context {R : Type}.

Lemma init_object (f : Overload.function R) (u : Overload.uniques R) :
  fst (Overload.__init__ R f u)
  = {| Overload.fn := f; Overload.fn_name := Overload.__name__ f;
       Overload.fn_signature := Overload.signature_of R f |}.
Proof.
  unfold Overload.__init__. cbn.
  destruct (Overload.dict_get (Overload.__name__ f) u); reflexivity.
Qed.

Lemma lookup_init (f : Overload.function R) (u : Overload.uniques R)
    (n key : string) :
  lookup (snd (Overload.__init__ R f u)) n key
  = if String.eqb n (Overload.__name__ f)
       && String.eqb key (Overload.str_list (Overload.signature_of R f))
    then Some f
    else lookup u n key.
Proof.
  unfold lookup, Overload.__init__. cbn [Overload.fn Overload.fn_name Overload.fn_signature].
  destruct (String.eqb n (Overload.__name__ f)) eqn:En.
  - apply String.eqb_eq in En. subst n.
    destruct (Overload.dict_get (Overload.__name__ f) u) as [inner|] eqn:Eu;
      cbn [snd]; rewrite dict_get_set_same; cbn [andb].
    + destruct (String.eqb key _) eqn:Ek.
      * apply String.eqb_eq in Ek. subst key. apply dict_get_set_same.
      * apply dict_get_set_other. exact Ek.
    + cbn. destruct (String.eqb key _); reflexivity.
  - cbn [andb].
    destruct (Overload.dict_get (Overload.__name__ f) u) as [inner|] eqn:Eu;
      cbn [snd]; rewrite dict_get_set_other by exact En; reflexivity.
Qed.

Lemma named_init (f : Overload.function R) (u : Overload.uniques R) (n : string) :
  Overload.dict_get n u <> None \/ n = Overload.__name__ f ->
  Overload.dict_get n (snd (Overload.__init__ R f u)) <> None.
Proof.
  intros H. unfold Overload.__init__.
  cbn [Overload.fn Overload.fn_name Overload.fn_signature].
  destruct (String.eqb n (Overload.__name__ f)) eqn:En.
  - apply String.eqb_eq in En. subst n.
    destruct (Overload.dict_get (Overload.__name__ f) u); cbn [snd];
      rewrite dict_get_set_same; discriminate.
  - destruct H as [H|H]; [|subst n; rewrite String.eqb_refl in En; discriminate].
    destruct (Overload.dict_get (Overload.__name__ f) u); cbn [snd];
      rewrite dict_get_set_other by exact En; exact H.
Qed.

Lemma register_all_snoc (fs : list (Overload.function R))
    (g : Overload.function R) (u : Overload.uniques R) :
  Overload.register_all R (fs ++ [g]) u
  = snd (Overload.__init__ R g (Overload.register_all R fs u)).
Proof. unfold Overload.register_all. rewrite fold_left_app. reflexivity. Qed.

Lemma lookup_register_all (fs : list (Overload.function R)) (n key : string) :
  lookup (Overload.register_all R fs []) n key = reached fs n key.
Proof.
  induction fs as [|g fs IH] using rev_ind; [reflexivity|].
  rewrite register_all_snoc, lookup_init, IH.
  unfold reached. rewrite rev_app_distr. cbn [rev app find]. reflexivity.
Qed.

Lemma named_register_all (fs : list (Overload.function R))
    (f : Overload.function R) :
  In f fs ->
  Overload.dict_get (Overload.__name__ f) (Overload.register_all R fs []) <> None.
Proof.
  induction fs as [|g fs IH] using rev_ind; intros Hin; [destruct Hin|].
  rewrite register_all_snoc. apply named_init.
  apply in_app_or in Hin. destruct Hin as [Hin|[->|[]]]; [left; auto | right; reflexivity].
Qed.

End OverloadRegistry.

Lemma slice_inside {A} (a b : A) (l : list A) :
  Py.slice (a :: l ++ [b]) 1 (-1) = l.
Proof.
  unfold Py.slice, Py.clip, Py.llen.
  cbn [List.length]. rewrite length_app. cbn [List.length].
  change (1 <? 0) with false. change (-1 <? 0) with true. cbv iota.
  rewrite Z.min_l by lia. rewrite Z.max_r by lia.
  change (Z.to_nat 1) with 1%nat. cbn [skipn].
  replace (Z.to_nat (-1 + Z.of_nat (S (List.length l + 1)) - 1))
    with (List.length l + 0)%nat by lia.
  rewrite firstn_app_2. cbn. apply app_nil_r.
Qed.

Lemma chars_append (a b : string) :
  Py.chars (a +++ b) = Py.chars a ++ Py.chars b.
Proof. unfold Py.chars. induction a as [|x a IH]; cbn; congruence. Qed.

Lemma str_slice_brackets (s : string) :
  Overload.str_slice ("[" +++ s +++ "]") 1 (-1) = s.
Proof.
  unfold Overload.str_slice.
  change (Py.chars ("[" +++ s +++ "]")) with ("["%char :: Py.chars (s +++ "]")).
  rewrite chars_append. change (Py.chars "]") with ["]"%char].
  rewrite slice_inside. unfold Py.join_chars, Py.chars.
  apply string_of_list_ascii_of_string.
Qed.

Lemma call_signature_classes (args : list Display.atom)
    (kwargs : list (string * Display.atom)) :
  Overload.call_signature args kwargs
  = Overload.str_list (classes_of args kwargs).
Proof.
  unfold Overload.call_signature, Overload.str_list, classes_of.
  rewrite map_map. reflexivity.
Qed.

Lemma call_registered (R : Type)
    (fs : list (Overload.function R)) (f : Overload.function R)
    (u : Overload.uniques R)
    (args : list Display.atom) (kwargs : list (string * Display.atom)) :
  In f fs ->
  Overload.__call__ R (fst (Overload.__init__ R f u))
    (Overload.register_all R fs []) args kwargs
  = match reached fs (Overload.__name__ f)
            (Overload.str_list (classes_of args kwargs)) with
    | Some g => Overload.Called R (Overload.body g args kwargs)
    | None =>
        Overload.OverloadUnmatched R
          (Overload.unmatched_message (Overload.__name__ f)
             (String.concat ", "
                (map Overload.repr_class (classes_of args kwargs))))
    end.
Proof.
  intros Hin. rewrite init_object. unfold Overload.__call__.
  cbn [Overload.fn_name].
  pose proof (named_register_all fs f Hin) as Hn.
  pose proof (lookup_register_all fs (Overload.__name__ f)
                (Overload.call_signature args kwargs)) as Hl.
  unfold lookup in Hl.
  destruct (Overload.dict_get (Overload.__name__ f)
              (Overload.register_all R fs [])) as [inner|]; [|congruence].
  rewrite Hl, call_signature_classes. clear Hl.
  destruct (reached fs _ _); [reflexivity|].
  unfold Overload.str_list. rewrite str_slice_brackets. reflexivity.
Qed.

(** X19. A call of an overloaded name reaches the function registered last
    under that name with the signature string of the classes of the
    arguments, positional then keyword, and returns what that function
    gives; when no function of that name has this signature string it
    raises OverloadUnmatched, whose message lists the classes of the
    arguments between the quotes; the lookup of the name never fails for
    a decorated function. *)
Theorem overload_reaches_last_registered (R : Type)
    (fs : list (Overload.function R)) (f : Overload.function R)
    (u : Overload.uniques R)
    (args : list Display.atom) (kwargs : list (string * Display.atom)) :
  In f fs ->
  Overload.__call__ R (fst (Overload.__init__ R f u))
    (Overload.register_all R fs []) args kwargs
  = match reached fs (Overload.__name__ f)
            (Overload.str_list (classes_of args kwargs)) with
    | Some g => Overload.Called R (Overload.body g args kwargs)
    | None =>
        Overload.OverloadUnmatched R
          (Overload.unmatched_message (Overload.__name__ f)
             (String.concat ", "
                (map Overload.repr_class (classes_of args kwargs))))
    end.
Proof.
  intros Hin. rewrite init_object. unfold Overload.__call__.
  cbn [Overload.fn_name].
  pose proof (named_register_all fs f Hin) as Hn.
  pose proof (lookup_register_all fs (Overload.__name__ f)
                (Overload.call_signature args kwargs)) as Hl.
  unfold lookup in Hl.
  destruct (Overload.dict_get (Overload.__name__ f)
              (Overload.register_all R fs [])) as [inner|]; [|congruence].
  rewrite Hl, call_signature_classes. clear Hl.
  destruct (reached fs _ _); [reflexivity|].
  unfold Overload.str_list. rewrite str_slice_brackets. reflexivity.
Qed.

Lemma overload_reaches_last_registered_witness :
  Overload.__call__ string (fst (Overload.__init__ string add_ints []))
    (Overload.register_all string [add_ints; add_strs] [])
    [Display.AStr "2"; Display.AStr "3"] []
  = Overload.Called string "add_strs"%string.
Proof.
  refine (eq_trans
            (overload_reaches_last_registered string [add_ints; add_strs]
               add_ints [] [Display.AStr "2"; Display.AStr "3"] [] _) _).
  - left. reflexivity.
  - reflexivity.
Defined.

Lemma signature_without_return {R} (f : Overload.function R)
    (ps : list (string * Overload.class)) (r : Overload.class) :
  Overload.__annotations__ f = ps ++ [("return"%string, r)] ->
  Overload.signature_of R f = map snd ps.
Proof.
  intros H. unfold Overload.signature_of. rewrite H.
  rewrite !map_app, existsb_app. cbn [map fst snd existsb].
  change (String.eqb "return" "return") with true.
  cbn [orb]. rewrite orb_true_r.
  apply removelast_last.
Qed.

(** X20. The annotation of the result does not tell two functions apart: when
    two functions of the same name have the same annotated parameters and
    any result annotations, the one decorated later takes the place of
    the earlier one, and a call with arguments of the classes of the
    parameters, through either decorated object, runs the later one. *)
Theorem overload_ignores_return_annotation (R : Type)
    (fs : list (Overload.function R)) (f g : Overload.function R)
    (ps : list (string * Overload.class)) (rf rg : Overload.class)
    (u : Overload.uniques R)
    (args : list Display.atom) (kwargs : list (string * Display.atom)) :
  Overload.__name__ g = Overload.__name__ f ->
  Overload.__annotations__ f = ps ++ [("return"%string, rf)] ->
  Overload.__annotations__ g = ps ++ [("return"%string, rg)] ->
  classes_of args kwargs = map snd ps ->
  Overload.__call__ R (fst (Overload.__init__ R f u))
    (Overload.register_all R (fs ++ [f; g]) []) args kwargs
  = Overload.Called R (Overload.body g args kwargs)
  /\ Overload.__call__ R (fst (Overload.__init__ R g u))
       (Overload.register_all R (fs ++ [f; g]) []) args kwargs
     = Overload.Called R (Overload.body g args kwargs).
Proof.
  intros Hn Hf Hg Hc.
  assert (Hr : reached (fs ++ [f; g]) (Overload.__name__ f)
                 (Overload.str_list (classes_of args kwargs)) = Some g).
  { unfold reached. rewrite rev_app_distr. cbn [rev app find].
    rewrite Hn, String.eqb_refl, (signature_without_return g ps rg Hg), Hc,
      String.eqb_refl. reflexivity. }
  split.
  - rewrite call_registered by (apply in_or_app; right; left; reflexivity).
    rewrite Hr. reflexivity.
  - rewrite call_registered by (apply in_or_app; right; right; left; reflexivity).
    rewrite Hn, Hr. reflexivity.
Qed.

Lemma overload_ignores_return_annotation_witness :
  Overload.__call__ string (fst (Overload.__init__ string add_ints []))
    (Overload.register_all string ([] ++ [add_ints; add_ints_again]) [])
    [Display.AInt 2; Display.AInt 3] []
  = Overload.Called string "add_ints_again"%string.
Proof.
  refine (proj1 (overload_ignores_return_annotation string [] add_ints
                   add_ints_again
                   [("a", "int"); ("b", "int")]%string "int"%string "str"%string
                   [] [Display.AInt 2; Display.AInt 3] [] _ _ _ _));
    reflexivity.
Defined.

Lemma find_all_false {A} (p : A -> bool) (l : list A) :
  (forall x, In x l -> p x = false) -> find p l = None.
Proof.
  induction l as [|a l IH]; intros H; [reflexivity|].
  cbn. rewrite (H a (or_introl eq_refl)). apply IH.
  intros x Hx. apply H. right. exact Hx.
Qed.

Lemma str_list_nonempty (c : Overload.class) (cs : list Overload.class) :
  String.eqb (Overload.str_list (c :: cs)) (Overload.str_list []) = false.
Proof.
  unfold Overload.str_list, Overload.repr_class.
  destruct cs; reflexivity.
Qed.

(** X21. A function decorated without parameter annotations is registered
    under the signature of no argument: when every function of its name
    is in that case, every call of the name with at least one argument
    raises OverloadUnmatched, and none of the functions runs. *)
Theorem overload_unannotated_unreachable (R : Type)
    (fs : list (Overload.function R)) (f : Overload.function R)
    (u : Overload.uniques R)
    (args : list Display.atom) (kwargs : list (string * Display.atom)) :
  In f fs ->
  (forall g, In g fs -> Overload.__name__ g = Overload.__name__ f ->
             Overload.signature_of R g = []) ->
  args ++ map snd kwargs <> [] ->
  exists message,
    Overload.__call__ R (fst (Overload.__init__ R f u))
      (Overload.register_all R fs []) args kwargs
    = Overload.OverloadUnmatched R message.
Proof.
  intros Hin Hall Hargs. rewrite call_registered by exact Hin.
  assert (Hr : reached fs (Overload.__name__ f)
                 (Overload.str_list (classes_of args kwargs)) = None).
  { unfold reached. apply find_all_false. intros g Hg.
    apply in_rev in Hg.
    destruct (String.eqb (Overload.__name__ f) (Overload.__name__ g)) eqn:En;
      [|reflexivity].
    apply String.eqb_eq in En. rewrite (Hall g Hg (eq_sym En)). cbn [andb].
    unfold classes_of. destruct (args ++ map snd kwargs) as [|a l]; [congruence|].
    cbn [map]. apply str_list_nonempty. }
  rewrite Hr. eexists. reflexivity.
Qed.

Lemma overload_unannotated_unreachable_witness :
  exists message,
    Overload.__call__ string (fst (Overload.__init__ string bare []))
      (Overload.register_all string [bare] []) [Display.AInt 1] []
    = Overload.OverloadUnmatched string message.
Proof.
  apply (overload_unannotated_unreachable string [bare] bare []
           [Display.AInt 1] []).
  - left. reflexivity.
  - intros g [<-|[]] _. reflexivity.
  - discriminate.
Defined.

(* ------------------------------------------------------------------ *)
(** ** The live line of a display on the terminal *)

Lemma cursor_after_lefts (n : nat) :
  forall t r c, cursor_at t r c ->
    cursor_at (Terminal.write t (Py.repeat_nat ANSI_LEFT n)) r
      (Z.max 0 (c - Z.of_nat n)) \/ c < 0.
Proof.
  induction n as [|n IH]; intros t r c Ht.
  - destruct (Z.ltb_spec c 0); [right; assumption|]. left.
    cbn [Py.repeat_nat Terminal.write]. rewrite Z.sub_0_r, Z.max_r by lia.
    exact Ht.
  - destruct (Z.ltb_spec c 0); [right; assumption|]. left.
    cbn [Py.repeat_nat]. rewrite write_app.
    destruct (IH _ _ _ (cursor_after_left _ _ _ Ht)) as [H1|H1]; [|lia].
    replace (Z.max 0 (c - Z.of_nat (S n)))
      with (Z.max 0 (Z.max 0 (c - 1) - Z.of_nat n)) by lia.
    exact H1.
Qed.

Lemma cursor_after_mul_left (n : Z) (t : Terminal.term) (r c : Z) :
  0 <= n <= c -> cursor_at t r c ->
  cursor_at (Terminal.write t (Py.mul ANSI_LEFT n)) r (c - n).
Proof.
  intros Hn Ht. unfold Py.mul.
  destruct (cursor_after_lefts (Z.to_nat n) _ _ _ Ht) as [H|H]; [|lia].
  replace (c - n) with (Z.max 0 (c - Z.of_nat (Z.to_nat n))) by lia.
  exact H.
Qed.

Lemma cursor_after_spaces (n : Z) (t : Terminal.term) (r c : Z) :
  0 <= n -> cursor_at t r c ->
  cursor_at (Terminal.write t (Py.mul SP n)) r (c + n).
Proof.
  intros Hn Ht. unfold Py.mul.
  pose proof (cursor_after_plain _ (plain_spaces (Z.to_nat n)) _ _ _ Ht) as H.
  assert (Hl : Py.len (Py.repeat_nat SP (Z.to_nat n)) = n).
  { unfold Py.len. rewrite <- (Z2Nat.id n) at 2 by lia. f_equal.
    generalize (Z.to_nat n). intros k. induction k as [|k IH]; cbn; congruence. }
  rewrite Hl in H. exact H.
Qed.

Section LiveLine.
Context {Callable : Type}.
Variable call : Callable -> string -> Display.IODisplay Callable
                -> Display.IODisplay Callable * string.
Variable t0 : Terminal.term.
Variables r base : Z.
Hypothesis Hbase : 0 <= base.

Lemma display_write_letter_shown (d : Display.IODisplay Callable) (c : Z)
    (k : key) (out : string) (last : option key)
    (s' : Display.loop_state Callable) (o : string) :
  live_line_shown t0 r base
    {| Display.disp := d; Display.curr := c; Display.last_key := last |} out ->
  Terminal.plain_char k = true ->
  Display.write_letter Callable d c k = Continue s' o ->
  live_line_shown t0 r base s' (out +++ o).
Proof.
  unfold live_line_shown, Display.cursor_ok.
  cbn [Display.disp Display.curr].
  intros (Ht & Hc & Hw & Hcb) Hk H.
  set (w := Display._written d) in *.
  unfold Display.write_letter in H. fold w in H.
  destruct (Py.decode k) as [l|] eqn:Ed; [|discriminate].
  assert (l = k).
  { unfold Py.decode in Ed. destruct (_ <? _); congruence. }
  subst l.
  assert (Hw' : Forall (fun a => Terminal.plain_char a = true) (Py.insert w c k)).
  { rewrite insert_split by exact Hc. apply Forall_app. split.
    - apply Forall_firstn_keep. exact Hw.
    - constructor; [exact Hk|].
      apply Forall_skipn_keep. exact Hw. }
  pose proof (insert_length w c k) as Hlen.
  destruct (rest_of_line (Py.insert w c k) (c + 1)) as [Hrp Hrl];
    [lia | exact Hw' |].
  assert (Hletter : cursor_at
            (Terminal.write (Terminal.write t0 out) (String k EmptyString))
            r (base + c + 1)).
  { pose proof (cursor_after_plain (String k EmptyString)) as Hp.
    cbn [Terminal.plain] in Hp.
    rewrite Hk in Hp.
    specialize (Hp eq_refl _ _ _ Ht). unfold Py.len in Hp. cbn in Hp.
    exact Hp. }
  pose proof (cursor_after_plain _ Hrp _ _ _ Hletter) as Hrest.
  rewrite Hrl in Hrest.
  destruct (Py.llen (Py.insert w c k) - (c + 1) >? 0) eqn:En;
    inversion H; subst s' o; clear H;
    cbn [Display.disp Display.curr Display._written Display.set_written
         Display.callback];
    (split; [|split; [lia | split; [exact Hw' | exact Hcb]]]);
    rewrite write_app; cbn [String.append Terminal.write] in *;
    rewrite ?write_app.
  - rewrite Z.gtb_ltb in En. apply Z.ltb_lt in En.
    pose proof (cursor_after_csi_left _ _ _ _ En Hrest) as Hl.
    replace (base + (c + 1))
      with (Z.max 0 (base + c + 1 + (Py.llen (Py.insert w c k) - (c + 1))
                     - (Py.llen (Py.insert w c k) - (c + 1)))) by lia.
    exact Hl.
  - rewrite Z.gtb_ltb in En. apply Z.ltb_ge in En.
    replace (base + (c + 1))
      with (base + c + 1 + (Py.llen (Py.insert w c k) - (c + 1))) by lia.
    exact Hrest.
Qed.

Lemma display_step_shown (s : Display.loop_state Callable) (out : string)
    (k : key) :
  live_line_shown t0 r base s out -> echoable k ->
  match Display.step Callable call s k with
  | Continue s' o => live_line_shown t0 r base s' (out +++ o)
  | Return _ _ => False
  | Raise _ _ => True
  end.
Proof.
  intros Hs Hk. destruct s as [d c last].
  pose proof Hs as (Ht & Hc & Hw & Hcb). unfold Display.cursor_ok in Hc.
  cbn [Display.disp Display.curr] in Ht, Hc, Hw, Hcb.
  assert (Hsame : forall l,
            live_line_shown t0 r base
              {| Display.disp := d; Display.curr := c; Display.last_key := l |}
              (out +++ EmptyString)).
  { intros l. rewrite append_empty_r. unfold live_line_shown, Display.cursor_ok.
    cbn [Display.disp Display.curr]. auto. }
  unfold Display.step.
  cbn [Display.disp Display.curr Display.last_key].
  destruct (Ascii.eqb k ENTER) eqn:E1.
  { assert (H1 : cursor_at
              (Terminal.write (Terminal.write t0 out)
                 (if negb (c =? 0) then Py.mul ANSI_LEFT c else EmptyString))
              r base).
    { destruct (c =? 0) eqn:Ec; cbn [negb].
      - apply Z.eqb_eq in Ec. subst c. rewrite Z.add_0_r in Ht. exact Ht.
      - apply Z.eqb_neq in Ec.
        pose proof (cursor_after_mul_left c _ r (base + c) ltac:(lia) Ht) as H.
        replace (base + c - c) with base in H by lia. exact H. }
    unfold Display.get.
    destruct (Display.dispatch_on_enter d).
    - destruct (Display._written d) as [|a w] eqn:Ew.
      + rewrite Hcb. unfold live_line_shown, Display.cursor_ok.
        cbn [Display.disp Display.curr]. rewrite Ew, Z.add_0_r.
        rewrite append_empty_r, write_app.
        split; [exact H1 | split; [cbn; lia | split; [constructor | exact Hcb]]].
      + cbn [Display.callback Display.set_written]. rewrite Hcb.
        unfold live_line_shown, Display.cursor_ok.
        cbn [Display.disp Display.curr Display._written Display.set_written
             Display.callback].
        rewrite Z.add_0_r. do 3 rewrite write_app.
        split; [|split; [cbn; lia | split; [constructor | exact Hcb]]].
        pose proof (llen_nonneg (a :: w)) as Hn.
        pose proof (cursor_after_spaces (Py.llen (a :: w)) _ _ _ Hn H1) as H2.
        pose proof (cursor_after_mul_left (Py.llen (a :: w)) _ r
                      (base + Py.llen (a :: w)) ltac:(lia) H2) as H3.
        replace (base + Py.llen (a :: w) - Py.llen (a :: w)) with base in H3
          by lia.
        exact H3.
    - rewrite Hcb. unfold live_line_shown, Display.cursor_ok.
      cbn [Display.disp Display.curr]. rewrite Z.add_0_r.
      rewrite append_empty_r, write_app.
      pose proof (llen_nonneg (Display._written d)).
      split; [exact H1 | split; [lia | split; [exact Hw | exact Hcb]]]. }
  destruct (Ascii.eqb k RIGHT && after_SPECIAL last).
  { destruct (c <? Py.llen (Display._written d)) eqn:E; [|apply Hsame].
    apply Z.ltb_lt in E. unfold live_line_shown, Display.cursor_ok.
    cbn [Display.disp Display.curr].
    split; [|split; [lia | split; [exact Hw | exact Hcb]]].
    rewrite write_app. replace (base + (c + 1)) with (base + c + 1) by lia.
    apply cursor_after_right. exact Ht. }
  destruct (Ascii.eqb k LEFT && after_SPECIAL last).
  { destruct (c >? 0) eqn:E; [|apply Hsame].
    rewrite Z.gtb_ltb in E. apply Z.ltb_lt in E.
    unfold live_line_shown, Display.cursor_ok.
    cbn [Display.disp Display.curr].
    split; [|split; [lia | split; [exact Hw | exact Hcb]]].
    rewrite write_app. replace (base + (c - 1)) with (Z.max 0 (base + c - 1)) by lia.
    apply cursor_after_left. exact Ht. }
  destruct (Ascii.eqb k BACKSPACE) eqn:E2.
  { destruct (Display._written d) as [|a w1] eqn:Ew.
    { specialize (Hsame (Some k)). exact Hsame. }
    rewrite <- Ew in *.
    destruct (c <=? 0) eqn:E; [apply Hsame|]. apply Z.leb_gt in E.
    replace (Z.max 0 (c - 1)) with (c - 1) by lia.
    destruct (pop_in_range (Display._written d) (c - 1)) as (w' & Hp & Hl); [lia|].
    rewrite Hp.
    destruct (rest_of_line (Display._written d) c Hc Hw) as [Hrp Hrl].
    unfold live_line_shown, Display.cursor_ok.
    cbn [Display.disp Display.curr Display._written Display.set_written
         Display.callback].
    split; [|split; [lia | split; [eapply pop_keeps_forall; eauto | exact Hcb]]].
    do 3 rewrite write_app.
    pose proof (cursor_after_left _ _ _ Ht) as H1.
    assert (Hsp : Terminal.plain
                    (Py.join_chars (Py.slice (Display._written d) c
                                      (Py.llen (Display._written d))) +++ SP) = true)
      by (apply plain_append; [exact Hrp | reflexivity]).
    pose proof (cursor_after_plain _ Hsp _ _ _ H1) as H2.
    rewrite len_append, Hrl in H2. change (Py.len SP) with 1 in H2.
    assert (Hn : 0 < Py.len (Py.join_chars
                               (Py.slice (Display._written d) c
                                  (Py.llen (Display._written d)))) + 1)
      by (rewrite Hrl; lia).
    pose proof (cursor_after_csi_left _ _ _ _ Hn H2) as H3.
    rewrite Hrl in H3.
    replace (base + (c - 1))
      with (Z.max 0 (Z.max 0 (base + c - 1)
                     + (Py.llen (Display._written d) - c + 1)
                     - (Py.llen (Display._written d) - c + 1))) by lia.
    rewrite Hrl. exact H3. }
  destruct (Ascii.eqb k SPECIAL) eqn:E3; [apply Hsame|].
  pose proof (echoable_plain k Hk E1 E2 E3) as Hpk.
  assert (Hletter : match Display.write_letter Callable d c k with
                    | Continue s' o => live_line_shown t0 r base s' (out +++ o)
                    | Return _ _ => False
                    | Raise _ _ => True
                    end).
  { destruct (Display.write_letter Callable d c k) as [s' o|x o|e o] eqn:Ewl.
    - eapply display_write_letter_shown; eauto.
    - destruct x.
    - exact I. }
  destruct (in_IGNORE k); [|exact Hletter].
  destruct (after_SPECIAL last); [apply Hsame | exact Hletter].
Qed.

Lemma display_loop_shown (keys : list key) :
  Forall echoable keys ->
  forall s out,
    live_line_shown t0 r base s out ->
    match Display.loop Callable call s out keys with
    | Display.Left_loop _ s' out' => live_line_shown t0 r base s' out'
    | Display.Still_polling _ s' out' => live_line_shown t0 r base s' out'
    | Display.Died _ _ _ _ => True
    end.
Proof.
  induction 1 as [|k ks Hk _ IH]; intros s out Hs; cbn [Display.loop].
  - destruct (negb _); exact Hs.
  - destruct (negb _); [exact Hs|].
    pose proof (display_step_shown s out k Hs Hk) as H.
    destruct (Display.step Callable call s k) as [s' o|x o|e o];
      [apply IH; exact H | destruct x | exact I].
Qed.

End LiveLine.

Lemma cursor_after_joined_lines (reg : list string) (last : string) :
  Forall (fun l => Terminal.plain l = true) reg ->
  Terminal.plain last = true ->
  forall t r c, cursor_at t r c ->
    cursor_at (Terminal.write t (String.concat NL (reg ++ [last])))
      (r + Z.of_nat (List.length reg))
      ((match reg with [] => c | _ :: _ => 0 end) + Py.len last).
Proof.
  intros Hreg Hlast. induction Hreg as [|x reg Hx _ IH]; intros t r c Ht.
  - cbn [app String.concat List.length]. rewrite Z.add_0_r.
    apply cursor_after_plain; assumption.
  - assert (E : String.concat NL ((x :: reg) ++ [last])
                = x +++ NL +++ String.concat NL (reg ++ [last])).
    { cbn [app String.concat]. destruct (reg ++ [last]) eqn:El; [|reflexivity].
      destruct reg; discriminate. }
    rewrite E, !write_app.
    pose proof (cursor_after_plain x Hx _ _ _ Ht) as H1.
    pose proof (cursor_after_newline _ _ _ H1) as H2.
    pose proof (IH _ _ _ H2) as H3.
    cbn [List.length].
    replace (r + Z.of_nat (S (List.length reg)))
      with (r + 1 + Z.of_nat (List.length reg)) by lia.
    destruct reg; exact H3.
Qed.


